(** * Canvas quiz creator and module downloader: a shallow embedding

    This development embeds the two scripts of the repository,
    [create_canvas_quiz.py] and [get_canvas_module_items.py], and proves
    properties of the text2qti parser, of the quiz upload loop, of the
    start-up checks, of the requests the quiz creator sends, of the module
    walker and of the names it gives the files.

    Conventions of the embedding:
    - a Python [str] is a list of characters; a character is a code point
      below 256, so the character classes of [re] and of [str.strip] are
      the ones Python uses on that range;
    - a [while] loop over an index is a function with a fuel argument that
      counts the iterations it may still run; the theorems show how much
      fuel is always enough;
    - [print] calls of the upload loop, the start-up code and the module
      walker are events in an output log; the parser's single [print] of
      the question text does not influence any value and is left out of
      the parser, and module [Stdout] gives the upload with that line;
    - calls to the remote service are parameters of a [Section]. *)

From Stdlib Require Import Ascii String NArith ZArith QArith Bool Arith Lia.
From Stdlib Require Import DecimalString DecimalN.
From Stdlib Require Import List Permutation.

Import ListNotations.
Open Scope bool_scope.
Open Scope nat_scope.

(** ** Exceptions, results and the output log *)

Module Py.

(** A raised exception: its class and its message. *)
Record exn := Exn { exn_class : string; exn_msg : string }.

(** How a call ends: it returns, it raises, or the fuel of a loop ran out. *)
Inductive result (A : Type) :=
| Ok (a : A)
| Raise (e : exn)
| OutOfFuel.
Arguments Ok {A} a.
Arguments Raise {A} e.
Arguments OutOfFuel {A}.

Definition bind {A B : Type} (m : result A) (k : A -> result B) : result B :=
  match m with
  | Ok a => k a
  | Raise e => Raise e
  | OutOfFuel => OutOfFuel
  end.

(** Code that prints or calls the outside world: the events it produced,
    oldest first, and how it ended. *)
Definition io (E A : Type) : Type := (list E * result A)%type.

Definition ret {E A : Type} (a : A) : io E A := ([], Ok a).

Definition raise {E A : Type} (e : exn) : io E A := ([], Raise e).

Definition emit {E : Type} (e : E) : io E unit := ([e], Ok tt).

Definition lift {E A : Type} (r : result A) : io E A := ([], r).

Definition io_bind {E A B : Type} (m : io E A) (k : A -> io E B) : io E B :=
  match m with
  | (l, Ok a) => let (l', r) := k a in (l ++ l', r)
  | (l, Raise e) => (l, Raise e)
  | (l, OutOfFuel) => (l, OutOfFuel)
  end.

(** [try: body  except Exception as e: handler(e)] *)
Definition try_except {E A : Type} (body : io E A) (handler : exn -> io E A)
  : io E A :=
  match body with
  | (l, Raise e) => let (l', r) := handler e in (l ++ l', r)
  | other => other
  end.

(** What the outside world (a file, the remote service) gives back. *)
Inductive reply (A : Type) :=
| Answer (a : A)
| Failure (e : exn).
Arguments Answer {A} a.
Arguments Failure {A} e.

Definition call {E A : Type} (r : reply A) : io E A :=
  ([], match r with Answer a => Ok a | Failure e => Raise e end).

Definition IndexError : exn := Exn "IndexError" "list index out of range".
Definition KeyError (key : string) : exn := Exn "KeyError" key.
Definition ValueError (msg : string) : exn := Exn "ValueError" msg.
Definition AttributeError (attr : string) : exn := Exn "AttributeError" attr.

End Py.

Declare Scope py_scope.
Delimit Scope py_scope with py.
Notation "x <- m ;; k" := (Py.bind m (fun x => k))
  (at level 61, m at next level, right associativity) : py_scope.
Notation "x <~ m ;; k" := (Py.io_bind m (fun x => k))
  (at level 61, m at next level, right associativity) : py_scope.
Notation "m ;;; k" := (Py.io_bind m (fun _ => k))
  (at level 61, right associativity) : py_scope.
Open Scope py_scope.

(** ** Python strings *)

Module PyStr.

Definition str := list ascii.

(** A literal. *)
Definition lit (s : string) : str := list_ascii_of_string s.

Definition code (c : ascii) : N := N_of_ascii c.

Definition in_range (lo hi : N) (c : ascii) : bool :=
  (lo <=? code c)%N && (code c <=? hi)%N.

(** [str.isspace] on one character, which is also the class [\s] of [re]
    for [str] patterns: TAB..CR, FS..US, space, NEL and NBSP. *)
Definition is_space (c : ascii) : bool :=
  in_range 9 13 c || in_range 28 32 c || (code c =? 133)%N || (code c =? 160)%N.

(** The class [\d]: the decimal digits below code point 256. *)
Definition is_digit (c : ascii) : bool := in_range 48 57 c.

(** The class [[a-z]]. *)
Definition is_az (c : ascii) : bool := in_range 97 122 c.

(** A literal character of a pattern. *)
Definition is_char (x : ascii) (c : ascii) : bool := Ascii.eqb c x.

(** The class [.] (no DOTALL flag): anything but a line feed. *)
Definition not_newline (c : ascii) : bool := negb (code c =? 10)%N.

(** [str.lower] on one character: A..Z and the upper-case letters of the
    Latin-1 block (all of 192..222 but the multiplication sign). *)
Definition lower_char (c : ascii) : ascii :=
  if in_range 65 90 c || (in_range 192 222 c && negb (code c =? 215)%N)
  then ascii_of_N (code c + 32)
  else c.

Definition lower (s : str) : str := map lower_char s.

Fixpoint dropwhile (p : ascii -> bool) (s : str) : str :=
  match s with
  | [] => []
  | c :: s' => if p c then dropwhile p s' else s
  end.

Fixpoint takewhile (p : ascii -> bool) (s : str) : str :=
  match s with
  | [] => []
  | c :: s' => if p c then c :: takewhile p s' else []
  end.

Definition lstrip (s : str) : str := dropwhile is_space s.
Definition rstrip (s : str) : str := rev (dropwhile is_space (rev s)).

(** [s.strip()] *)
Definition strip (s : str) : str := rstrip (lstrip s).

Definition str_eqb (a b : str) : bool :=
  if list_eq_dec ascii_dec a b then true else false.

(** [s.startswith(p)] *)
Fixpoint startswith (p s : str) : bool :=
  match p, s with
  | [], _ => true
  | _ :: _, [] => false
  | a :: p', b :: s' => Ascii.eqb a b && startswith p' s'
  end.

(** [s.split(sep, 1)] for a one-character separator. *)
Fixpoint split1 (sep : ascii) (s : str) : list str :=
  match s with
  | [] => [[]]
  | c :: s' =>
      if Ascii.eqb c sep then [[]; s']
      else match split1 sep s' with
           | h :: t => (c :: h) :: t
           | [] => [[c]]
           end
  end.

(** [s.split(sep)] for a one-character separator. *)
Fixpoint split (sep : ascii) (s : str) : list str :=
  match s with
  | [] => [[]]
  | c :: s' =>
      if Ascii.eqb c sep then [] :: split sep s'
      else match split sep s' with
           | h :: t => (c :: h) :: t
           | [] => [[c]]
           end
  end.

Definition newline : ascii := ascii_of_N 10.

End PyStr.

(** ** The fragment of [re] the scripts use

    Every pattern of the parser is anchored at the start and is a sequence
    of single-character classes, each taken once, optionally ([?]), one or
    more times ([+]) or at least [n] times ([{n,}]); a group wraps one item.
    The matcher is the backtracking one of [re]: a repetition takes as many
    characters as it can and gives them back one at a time when what
    follows fails. *)

Module Re.
Import PyStr.

Inductive quant := Once | Opt | Plus | AtLeast (n : nat).

Record atom := Atom { cls : ascii -> bool; rep : quant; grp : bool }.

Definition regex := list atom.

Definition lo (q : quant) : nat :=
  match q with Once => 1 | Opt => 0 | Plus => 1 | AtLeast n => n end.

(** May a repetition that has taken [n] characters take one more? *)
Definition below (n : nat) (q : quant) : bool :=
  match q with Once | Opt => n <? 1 | Plus | AtLeast _ => true end.

Section Repetition.
Variables (c : ascii -> bool) (q : quant).
Variable k : str -> str -> option (list str).

(** [n] characters, [acc] reversed, are taken; [s] is what is left. *)
Fixpoint rep_match (n : nat) (acc : str) (s : str) {struct s}
  : option (list str) :=
  let stop := if lo q <=? n then k (rev acc) s else None in
  match s with
  | ch :: s' =>
      if c ch && below n q then
        match rep_match (S n) (ch :: acc) s' with
        | Some r => Some r
        | None => stop
        end
      else stop
  | [] => stop
  end.

End Repetition.

(** [re.match(r, s)]: the groups of the match, in order, or [None]. *)
Fixpoint re_match (r : regex) (s : str) : option (list str) :=
  match r with
  | [] => Some []
  | a :: r' =>
      rep_match (cls a) (rep a)
        (fun taken rest =>
           match re_match r' rest with
           | Some gs => Some (if grp a then taken :: gs else gs)
           | None => None
           end) 0 [] s
  end.

(** The truth value of a match object. *)
Definition is_match (r : regex) (s : str) : bool :=
  match re_match r s with Some _ => true | None => false end.

(** [m.group(i)] for [i >= 1]. *)
Definition group (m : list str) (i : nat) : str := nth (i - 1) m [].

End Re.

(** ** The text2qti parser ([Text2QtiParser]) *)

Module Text2Qti.
Import Py PyStr Re.

(** The patterns of [parse_content] and [_parse_question]. *)

(** [^\d+\.\s+] *)
Definition header_re : regex :=
  [Atom is_digit Plus false; Atom (is_char ".") Once false;
   Atom is_space Plus false].

(** [^\d+\.\s+(.+)] *)
Definition header_text_re : regex :=
  [Atom is_digit Plus false; Atom (is_char ".") Once false;
   Atom is_space Plus false; Atom not_newline Plus true].

(** [^(\*?)([a-z])\)\s+(.+)] *)
Definition choice_re : regex :=
  [Atom (is_char "*") Opt true; Atom is_az Once true;
   Atom (is_char ")") Once false; Atom is_space Plus false;
   Atom not_newline Plus true].

(** [^\[(.?)\]\s+(.+)] *)
Definition multi_re : regex :=
  [Atom (is_char "[") Once false; Atom not_newline Opt true;
   Atom (is_char "]") Once false; Atom is_space Plus false;
   Atom not_newline Plus true].

(** [^=\s+(.+)] *)
Definition numerical_re : regex :=
  [Atom (is_char "=") Once false; Atom is_space Plus false;
   Atom not_newline Plus true].

(** [^\*\s+(.+)] *)
Definition short_re : regex :=
  [Atom (is_char "*") Once false; Atom is_space Plus false;
   Atom not_newline Plus true].

(** [^_{3,}] *)
Definition essay_re : regex := [Atom (is_char "_") (AtLeast 3) false].

(** [^\^{3,}] *)
Definition upload_re : regex := [Atom (is_char "^") (AtLeast 3) false].

(** The values of a question's ['type']. *)
Inductive qtype :=
| multiple_choice | multiple_answer | true_false | numerical
| short_answer | essay | file_upload.

Definition qtype_eqb (a b : qtype) : bool :=
  match a, b with
  | multiple_choice, multiple_choice | multiple_answer, multiple_answer
  | true_false, true_false | numerical, numerical
  | short_answer, short_answer | essay, essay
  | file_upload, file_upload => true
  | _, _ => false
  end.

(** A choice: [{'text': ..., 'correct': ...}]. *)
Record choice := Choice { c_text : str; c_correct : bool }.

(** A question dict.  The keys ['text'], ['type'], ['choices'] and
    ['points'] are written when the dict is created; ['answer'] and
    ['answers'] are keys that a body line may add. *)
Record question := Question {
  q_text : str;
  q_type : qtype;
  q_choices : list choice;
  q_points : Q;
  q_answer : option str;
  q_answers : option (list str)
}.

Definition set_type (t : qtype) (q : question) : question :=
  Question (q_text q) t (q_choices q) (q_points q) (q_answer q) (q_answers q).

Definition append_choice (c : choice) (q : question) : question :=
  Question (q_text q) (q_type q) (q_choices q ++ [c]) (q_points q)
           (q_answer q) (q_answers q).

Definition set_answer (a : str) (q : question) : question :=
  Question (q_text q) (q_type q) (q_choices q) (q_points q)
           (Some a) (q_answers q).

(** [if 'answers' not in question: question['answers'] = []] and then
    [question['answers'].append(a)]. *)
Definition append_answer (a : str) (q : question) : question :=
  Question (q_text q) (q_type q) (q_choices q) (q_points q) (q_answer q)
           (Some (match q_answers q with Some l => l | None => [] end ++ [a])).

(** One turn of the [while] loop of [_parse_question] on a stripped line
    that is not a question header: the chain of checks, each ending in
    [i += 1; continue]. *)
Definition scan_line (line : str) (q : question) : question :=
  match re_match choice_re line with
  | Some m =>
      let is_correct := str_eqb (group m 1) (lit "*") in
      let choice_text := group m 3 in
      set_type multiple_choice (append_choice (Choice choice_text is_correct) q)
  | None =>
  match re_match multi_re line with
  | Some m =>
      let is_correct := str_eqb (group m 1) (lit "*") in
      let choice_text := group m 2 in
      set_type multiple_answer (append_choice (Choice choice_text is_correct) q)
  | None =>
  match re_match numerical_re line with
  | Some m =>
      let answer := strip (group m 1) in
      set_answer answer (set_type numerical q)
  | None =>
  match re_match short_re line with
  | Some m => set_type short_answer (append_answer (group m 1) q)
  | None =>
  if is_match essay_re line then set_type essay q
  else if is_match upload_re line then set_type file_upload q
  else q
  end end end end.

(** The [while i < len(lines)] loop of [_parse_question]. *)
Fixpoint scan_body (fuel : nat) (lines : list str) (i : nat) (q : question)
  : result (question * nat) :=
  if i <? length lines then
    match fuel with
    | 0 => OutOfFuel
    | S fuel' =>
        let line := strip (nth i lines []) in
        if is_match header_re line then Ok (q, i)
        else scan_body fuel' lines (i + 1) (scan_line line q)
    end
  else Ok (q, i).

Definition mem_str (s : str) (l : list str) : bool := existsb (str_eqb s) l.

(** The block after the loop: [# Auto-detect true/false questions]. *)
Definition auto_detect (q : question) : question :=
  if qtype_eqb (q_type q) multiple_choice && (length (q_choices q) =? 2) then
    let choice_texts := map (fun c => lower (c_text c)) (q_choices q) in
    if (mem_str (lit "true") choice_texts && mem_str (lit "false") choice_texts)
       || (mem_str (lit "yes") choice_texts && mem_str (lit "no") choice_texts)
    then set_type true_false q
    else q
  else q.

(** The question dict as [_parse_question] creates it. *)
Definition new_question (question_text : str) : question :=
  Question question_text multiple_choice [] 1 None None.

(** [_parse_question(lines, start_idx)]; [fuel] bounds the turns of its
    loop. *)
Definition parse_question_fuel (fuel : nat) (lines : list str) (start_idx : nat)
  : result (option question * nat) :=
  match nth_error lines start_idx with
  | None => Raise IndexError
  | Some l =>
      let question_line := strip l in
      match re_match header_text_re question_line with
      | None => Ok (None, start_idx + 1)
      | Some m =>
          let question_text := group m 1 in
          r <- scan_body fuel lines (start_idx + 1) (new_question question_text) ;;
          Ok (Some (auto_detect (fst r)), snd r)
      end
  end.

Definition _parse_question (lines : list str) (start_idx : nat)
  : result (option question * nat) :=
  parse_question_fuel (length lines) lines start_idx.

(** The attributes of a [Text2QtiParser] object. *)
Record parser := Parser {
  quiz_title : str;
  quiz_description : str;
  multiple_attempts : str;
  questions : list question
}.

(** [Text2QtiParser()] *)
Definition new_parser : parser := Parser (lit "Quiz") [] [] [].

(** [line.split(':', 1)[1].strip()] *)
Definition setting_value (line : str) : result str :=
  match nth_error (split1 ":" line) 1 with
  | Some v => Ok (strip v)
  | None => Raise IndexError
  end.

(** The three [if line.lower().startswith(...)] statements. *)
Definition parse_settings (line : str) (self : parser) : result parser :=
  self1 <-
    (if startswith (lit "quiz title:") (lower line) then
       v <- setting_value line ;;
       Ok (Parser v (quiz_description self) (multiple_attempts self)
                  (questions self))
     else Ok self) ;;
  self2 <-
    (if startswith (lit "quiz description:") (lower line) then
       v <- setting_value line ;;
       Ok (Parser (quiz_title self1) v (multiple_attempts self1)
                  (questions self1))
     else Ok self1) ;;
  if startswith (lit "multiple attempts:") (lower line) then
    v <- setting_value line ;;
    Ok (Parser (quiz_title self2) (quiz_description self2) v (questions self2))
  else Ok self2.

(** [if question: self.questions.append(question)] *)
Definition append_question (question : option question) (self : parser) : parser :=
  match question with
  | Some q => Parser (quiz_title self) (quiz_description self)
                     (multiple_attempts self) (questions self ++ [q])
  | None => self
  end.

(** The [while i < len(lines)] loop of [parse_content]. *)
Fixpoint parse_loop (fuel : nat) (lines : list str) (i : nat) (self : parser)
  : result parser :=
  if i <? length lines then
    match fuel with
    | 0 => OutOfFuel
    | S fuel' =>
        let line := strip (nth i lines []) in
        if str_eqb line [] || startswith (lit "%") line then
          parse_loop fuel' lines (i + 1) self
        else
          self' <- parse_settings line self ;;
          if is_match header_re line then
            r <- _parse_question lines i ;;
            parse_loop fuel' lines (snd r) (append_question (fst r) self')
          else parse_loop fuel' lines (i + 1) self'
    end
  else Ok self.

(** The dict [parse_content] returns. *)
Record quiz_data := QuizData {
  title : str;
  description : str;
  qd_multiple_attempts : str;
  qd_questions : list question
}.

(** [parse_content(content)]: the returned dict and the parser object
    afterwards. *)
Definition parse_content (self : parser) (content : str)
  : result (quiz_data * parser) :=
  let lines := split newline content in
  let self0 := Parser (quiz_title self) (quiz_description self)
                      (multiple_attempts self) [] in
  self' <- parse_loop (length lines) lines 0 self0 ;;
  Ok (QuizData (quiz_title self') (quiz_description self')
               (multiple_attempts self') (questions self'), self').

End Text2Qti.
(** ** Uploading a parsed quiz ([create_canvas_quiz.py]) *)

Module QuizCreator.
Import Py PyStr Text2Qti.

(** What the script prints, one constructor for each [print] call. *)
Inductive message :=
| MsgQuizCreated (quiz_title : str) (quiz_id : Z)
| MsgQuestionCreated (i : nat) (t : qtype)
| MsgErrorCreatingQuestion (i : nat) (e : exn)
| MsgTypeNotSupported (t : qtype)
| MsgUsingCanvasUrl (url : string)
| MsgUsingCourseId (course_id : Z)
| MsgCreatingFromFile (quiz_file : string)
| MsgCreationComplete
| MsgQuizTitle (quiz_title : str)
| MsgQuizId (quiz_id : Z)
| MsgTotalPoints (total_points : Q)
| MsgQuestionsCreated (total_questions : nat)
| MsgAssignmentUrl (url : string) (course_id quiz_id : Z)
| MsgErrorCreatingFromFile (e : exn)
| MsgNoFileProvided.

Section World.

(** The JSON object the service answers with, and its two keys the script
    reads. *)
Variable response : Type.
Variable response_id : response -> option Z.
Variable response_title : response -> option str.

(** [open(file_path).read()] *)
Variable read_file : string -> reply str.

(** [CanvasQuizCreator.create_quiz]: shapes the request and posts it. *)
Variable create_quiz :
  string -> string -> Z -> str -> str -> Q -> str -> reply response.

(** The four [_create_*_question] methods: each shapes an item and posts
    it; arguments are the base URL, the token, the course, the quiz, the
    question and its position. *)
Variable _create_multiple_choice_question :
  string -> string -> Z -> Z -> question -> nat -> reply response.
Variable _create_multiple_answer_question :
  string -> string -> Z -> Z -> question -> nat -> reply response.
Variable _create_true_false_question :
  string -> string -> Z -> Z -> question -> nat -> reply response.
Variable _create_essay_question :
  string -> string -> Z -> Z -> question -> nat -> reply response.

(** The process environment after [load_dotenv()], [int(...)] on a string
    and [os.path.exists]. *)
Variable getenv : string -> option string.
Variable int_of_string : string -> option Z.
Variable path_exists : string -> bool.

(** [create_question_from_parsed] *)
Definition create_question_from_parsed (canvas_url api_token : string)
  (course_id assignment_id : Z) (question_data : question) (position : nat)
  : io message response :=
  match q_type question_data with
  | multiple_choice =>
      call (_create_multiple_choice_question canvas_url api_token course_id
              assignment_id question_data position)
  | multiple_answer =>
      call (_create_multiple_answer_question canvas_url api_token course_id
              assignment_id question_data position)
  | true_false =>
      call (_create_true_false_question canvas_url api_token course_id
              assignment_id question_data position)
  | essay =>
      call (_create_essay_question canvas_url api_token course_id
              assignment_id question_data position)
  | t =>
      emit (MsgTypeNotSupported t) ;;;
      call (_create_multiple_choice_question canvas_url api_token course_id
              assignment_id question_data position)
  end.

(** The loop [for i, question_data in enumerate(quiz_data['questions'], 1)]
    with its [try]/[except]; [created] is [created_questions] so far. *)
Fixpoint add_questions (canvas_url api_token : string)
  (course_id assignment_id : Z) (qs : list question) (i : nat)
  (created : list response) : io message (list response) :=
  match qs with
  | [] => ret created
  | question_data :: qs' =>
      created' <~
        try_except
          (question <~ create_question_from_parsed canvas_url api_token
                         course_id assignment_id question_data i ;;
           emit (MsgQuestionCreated i (q_type question_data)) ;;;
           ret (created ++ [question]))
          (fun e => emit (MsgErrorCreatingQuestion i e) ;;; ret created) ;;
      add_questions canvas_url api_token course_id assignment_id qs' (S i)
                    created'
  end.

(** The dict [create_quiz_from_text2qti_file] returns. *)
Record creation := Creation {
  quiz : response;
  cr_questions : list response;
  total_questions : nat;
  total_points : Q
}.

(** [sum(q.get('points', 1.0) for q in quiz_data['questions'])] *)
Definition sum_points (qs : list question) : Q :=
  fold_left (fun acc q => Qplus acc (q_points q)) qs 0%Q.

(** [quiz['id']] *)
Definition get_id (quiz : response) : io message Z :=
  match response_id quiz with
  | Some id => ret id
  | None => raise (KeyError "id")
  end.

(** [create_quiz_from_text2qti_file]; its log holds the messages of the
    upload, and [Stdout.create_quiz_from_text2qti_file] below adds the
    question texts that the parser prints before them. *)
Definition create_quiz_from_text2qti_file (file_path : string) (course_id : Z)
  (canvas_url api_token : string) : io message creation :=
  content <~ call (read_file file_path) ;;
  parsed <~ lift (parse_content new_parser content) ;;
  let quiz_data := fst parsed in
  let total_points := sum_points (qd_questions quiz_data) in
  quiz <~ call (create_quiz canvas_url api_token course_id (title quiz_data)
                  (description quiz_data) total_points
                  (qd_multiple_attempts quiz_data)) ;;
  quiz_id <~ get_id quiz ;;
  emit (MsgQuizCreated (title quiz_data) quiz_id) ;;;
  assignment_id <~ get_id quiz ;;
  created_questions <~
    add_questions canvas_url api_token course_id assignment_id
                  (qd_questions quiz_data) 1 [] ;;
  ret (Creation quiz created_questions (length created_questions) total_points).

(** The truth value of [os.getenv(name)]: set and not empty. *)
Definition env_set (name : string) : bool :=
  match getenv name with
  | Some v => negb (String.eqb v "")
  | None => false
  end.

Definition env_value (name : string) : string :=
  match getenv name with Some v => v | None => "" end.

(** [result['quiz'][key]] *)
Definition quiz_key {A : Type} (key : string) (v : option A) : io message A :=
  match v with
  | Some x => ret x
  | None => raise (KeyError key)
  end.

(** The printing after a successful [create_quiz_from_text2qti_file]. *)
Definition print_summary (canvas_url : string) (course_id : Z) (r : creation)
  : io message unit :=
  emit MsgCreationComplete ;;;
  t <~ quiz_key "title" (response_title (quiz r)) ;;
  emit (MsgQuizTitle t) ;;;
  id <~ quiz_key "id" (response_id (quiz r)) ;;
  emit (MsgQuizId id) ;;;
  emit (MsgTotalPoints (total_points r)) ;;;
  emit (MsgQuestionsCreated (total_questions r)) ;;;
  id' <~ quiz_key "id" (response_id (quiz r)) ;;
  emit (MsgAssignmentUrl canvas_url course_id id').

(** [main()], after [argparse] has produced [args.filename]. *)
Definition main (filename : string) : io message unit :=
  if negb (env_set "CANVAS_URL") then
    raise (ValueError "CANVAS_URL not found in environment variables. Please check your .env file.")
  else if negb (env_set "CANVAS_API_TOKEN") then
    raise (ValueError "CANVAS_API_TOKEN not found in environment variables. Please check your .env file.")
  else if negb (env_set "CANVAS_COURSE_ID") then
    raise (ValueError "CANVAS_COURSE_ID not found in environment variables. Please check your .env file.")
  else
    let CANVAS_URL := env_value "CANVAS_URL" in
    let API_TOKEN := env_value "CANVAS_API_TOKEN" in
    match int_of_string (env_value "CANVAS_COURSE_ID") with
    | None =>
        raise (ValueError "CANVAS_COURSE_ID must be a valid integer in your .env file.")
    | Some COURSE_ID =>
        emit (MsgUsingCanvasUrl CANVAS_URL) ;;;
        emit (MsgUsingCourseId COURSE_ID) ;;;
        let quiz_file := filename in
        if negb (String.eqb quiz_file "") && path_exists quiz_file then
          emit (MsgCreatingFromFile quiz_file) ;;;
          try_except
            (r <~ create_quiz_from_text2qti_file quiz_file COURSE_ID
                    CANVAS_URL API_TOKEN ;;
             print_summary CANVAS_URL COURSE_ID r)
            (fun e => emit (MsgErrorCreatingFromFile e))
        else
          emit MsgNoFileProvided
    end.

End World.

Arguments Creation {response} quiz cr_questions total_questions total_points.
Arguments quiz {response} c.
Arguments cr_questions {response} c.
Arguments total_questions {response} c.
Arguments total_points {response} c.

End QuizCreator.

(** ** Walking the modules of a course ([get_canvas_module_items.py]) *)

Module ModuleItems.
Import Py.

(** A module item as [canvasapi] hands it over: an attribute the service
    did not send is absent. *)
Record module_item := ModuleItem {
  item_type : option string;
  item_title : option string;
  item_position : option Z;
  item_published : option bool;
  item_content_id : option Z;
  item_page_url : option string
}.

(** A module; [get_module_items] is the answer to
    [module.get_module_items()]. *)
Record canvas_module := CanvasModule {
  module_id : option Z;
  module_name : option string;
  module_position : option Z;
  get_module_items : reply (list module_item)
}.

(** A file object of the service and a page. *)
Record file_obj := FileObj {
  file_handle : Z;
  filename : option string;
  content_type : option string
}.

Record page := Page { body : option string }.

(** What the script prints, which of its two download functions it calls
    on which item, and what it asks of the disk: [Mkdir], [DownloadTo] and
    [WritePage] record the attempt, whose outcome the world decides. *)
Inductive event :=
| PrintProcessingModule (module_id : Z) (module_name : string)
| PrintProcessing (title item_type : string) (position : Z)
| PrintSkipping (item_type : string)
| PrintErrorDownloading (title : string) (e : exn)
| PrintNoContentId (title : string)
| PrintFileInfo (content_type original_filename : string)
| PrintDownloaded (sortable_filename : string)
| PrintErrorDownloadingFile (title : string) (e : exn)
| PrintNoPageUrl (title : string)
| PrintDownloadedPage (sortable_filename : string)
| PrintErrorDownloadingPage (title : string) (e : exn)
| CallDownloadFile (item : module_item)
| CallDownloadPage (item : module_item)
| Mkdir (path : string)
| DownloadTo (f : file_obj) (filepath : string)
| WritePage (filepath title page_content : string).

(** Does the event put a file on the disk? *)
Definition writes_file (e : event) : bool :=
  match e with
  | DownloadTo _ _ | WritePage _ _ _ => true
  | _ => false
  end.

(** [getattr(obj, name, default)] on an attribute that may be absent. *)
Definition getattr {A : Type} (attr : option A) (default : A) : A :=
  match attr with Some v => v | None => default end.

(** [obj.name] on an attribute that may be absent. *)
Definition attr {E A : Type} (name : string) (a : option A) : io E A :=
  match a with Some v => ret v | None => raise (AttributeError name) end.

Definition allowed_types : list string := ["File"; "Attachment"; "Page"]%string.

Definition type_allowed (t : string) : bool := existsb (String.eqb t) allowed_types.

(** The condition of the list comprehension [items_to_download]. *)
Definition to_download (item : module_item) : bool :=
  type_allowed (getattr (item_type item) ""%string)
  && getattr (item_published item) false.

Section World.

(** The remote service and the disk. *)
Variable get_file : Z -> reply file_obj.
Variable get_page : string -> reply page.
Variable file_download : file_obj -> string -> reply unit.
Variable write_text : string -> reply unit.
Variable mkdir : string -> reply unit.
Variable get_modules : reply (list canvas_module).

(** [make_sortable_filename], [Path(name).suffix] and [Path(dir) / name]:
    file-name shaping, which no property below looks into. *)
Variable make_sortable_filename :
  string -> string -> Z -> Z -> string -> reply string.
Variable path_suffix : string -> string.
Variable path_join : string -> string -> string.

(** [download_file] *)
Definition download_file (item : module_item) (module : canvas_module)
  (download_dir : string) (module_id : Z) (position : Z) : io event unit :=
  let content_id := item_content_id item in
  let title := getattr (item_title item) "untitled"%string in
  match content_id with
  | None | Some 0%Z => emit (PrintNoContentId title)
  | Some content_id =>
      try_except
        (file_obj <~ call (get_file content_id) ;;
         let original_filename := getattr (filename file_obj) title in
         let file_ext := path_suffix original_filename in
         let content_type := getattr (content_type file_obj) "unknown"%string in
         emit (PrintFileInfo content_type original_filename) ;;;
         module_name <~ attr "name" (module_name module) ;;
         module_position <~ attr "position" (module_position module) ;;
         sortable_filename <~
           call (make_sortable_filename title module_name module_position
                   position file_ext) ;;
         let filepath := path_join download_dir sortable_filename in
         emit (DownloadTo file_obj filepath) ;;;
         call (file_download file_obj filepath) ;;;
         emit (PrintDownloaded sortable_filename))
        (fun e => emit (PrintErrorDownloadingFile title e))
  end.

(** [download_page] *)
Definition download_page (item : module_item) (module : canvas_module)
  (download_dir : string) (module_id : Z) (position : Z) : io event unit :=
  let page_url := item_page_url item in
  let title := getattr (item_title item) "untitled"%string in
  match page_url with
  | None | Some EmptyString => emit (PrintNoPageUrl title)
  | Some page_url =>
      try_except
        (page <~ call (get_page page_url) ;;
         let page_content := getattr (body page) ""%string in
         module_name <~ attr "name" (module_name module) ;;
         module_position <~ attr "position" (module_position module) ;;
         sortable_filename <~
           call (make_sortable_filename title module_name module_position
                   position ".html") ;;
         let filepath := path_join download_dir sortable_filename in
         emit (WritePage filepath title page_content) ;;;
         call (write_text filepath) ;;;
         emit (PrintDownloadedPage sortable_filename))
        (fun e => emit (PrintErrorDownloadingPage title e))
  end.

(** The body of [for item in items_to_download]. *)
Definition process_item (module : canvas_module) (download_dir : string)
  (module_id : Z) (item : module_item) : io event unit :=
  let item_type := getattr (item_type item) ""%string in
  let title := getattr (item_title item) "untitled"%string in
  let position := getattr (item_position item) 0%Z in
  emit (PrintProcessing title item_type position) ;;;
  try_except
    (if String.eqb item_type "File" then
       emit (CallDownloadFile item) ;;;
       download_file item module download_dir module_id position
     else if String.eqb item_type "Page" then
       emit (CallDownloadPage item) ;;;
       download_page item module download_dir module_id position
     else if String.eqb item_type "Attachment" then
       emit (CallDownloadFile item) ;;;
       download_file item module download_dir module_id position
     else emit (PrintSkipping item_type))
    (fun e => emit (PrintErrorDownloading title e)).

Fixpoint for_each {A : Type} (f : A -> io event unit) (l : list A)
  : io event unit :=
  match l with
  | [] => ret tt
  | x :: l' => f x ;;; for_each f l'
  end.

(** The loop [for module in modules]; [all_items] is the list so far. *)
Fixpoint process_modules (download_dir : string) (modules : list canvas_module)
  (all_items : list module_item) : io event (list module_item) :=
  match modules with
  | [] => ret all_items
  | module :: modules' =>
      let module_id := getattr (module_id module) 0%Z in
      let module_name := getattr (module_name module) "Unknown Module"%string in
      emit (PrintProcessingModule module_id module_name) ;;;
      items <~ call (get_module_items module) ;;
      let items_to_download := filter to_download items in
      let all_items := all_items ++ items_to_download in
      for_each (process_item module download_dir module_id) items_to_download ;;;
      process_modules download_dir modules' all_items
  end.

(** [download_course_modules] *)
Definition download_course_modules (download_dir : string)
  : io event (list module_item) :=
  emit (Mkdir download_dir) ;;;
  call (mkdir download_dir) ;;;
  modules <~ call get_modules ;;
  process_modules download_dir modules [].

End World.

End ModuleItems.

(** ** Numbers in f-strings *)

Module PyFormat.
Import PyStr.

(** The decimal digits of a number. *)
Definition digits (n : N) : str :=
  list_ascii_of_string (NilEmpty.string_of_uint (N.to_uint n)).

(** An [int] in an f-string, as in [{course_id}]. *)
Definition format_int (n : Z) : str :=
  if (n <? 0)%Z then "-"%char :: digits (Z.to_N (- n)) else digits (Z.to_N n).

Definition zfill (width : nat) (s : str) : str :=
  repeat "0"%char (width - length s) ++ s.

(** An [int] under the format [{n:03d}]: at least three characters, zeros
    after the sign. *)
Definition format_03d (n : Z) : str :=
  if (n <? 0)%Z then "-"%char :: zfill 2 (digits (Z.to_N (- n)))
  else zfill 3 (digits (Z.to_N n)).

End PyFormat.

(** ** File names that sort in module order ([make_sortable_filename]) *)

Module Filenames.
Import PyStr PyFormat.

(** The character class of the two [re.sub] calls: the space, the angle
    brackets, the colon, the double quote, the slash, the backslash, the
    bar, the question mark and the star. *)
Definition unsafe_char (c : ascii) : bool :=
  existsb (Ascii.eqb c)
    [" "; "<"; ">"; ":"; ascii_of_N 34; "/"; "\"; "|"; "?"; "*"]%char.

(** [re.sub] with that class repeated ([+]) and the replacement ['_']:
    every run of characters of the class becomes one underscore; [in_run]
    says that the character before was of the class. *)
Fixpoint sub_runs (in_run : bool) (s : str) : str :=
  match s with
  | [] => []
  | c :: s' =>
      if unsafe_char c then
        if in_run then sub_runs true s' else "_"%char :: sub_runs true s'
      else c :: sub_runs false s'
  end.

Definition sanitize (s : str) : str := sub_runs false s.

(** [s[:k]]; a negative [k] counts from the end. *)
Definition slice_to (k : Z) (s : str) : str :=
  if (0 <=? k)%Z then firstn (Z.to_nat k) s
  else firstn (length s - Z.to_nat (- k)) s.

Section Paths.

(** [os.path.splitext] *)
Variable splitext : str -> str * str.

(** [make_sortable_filename]; the default of [extension] is the empty
    string. *)
Definition make_sortable_filename (title module_title : str)
  (module_position position : Z) (extension : str) : str :=
  let (basefilename, ogextension) := splitext title in
  let extension := if str_eqb extension [] then ogextension else extension in
  let safe_title := sanitize basefilename in
  let safe_title := strip safe_title in
  let safe_module_title := sanitize module_title in
  let truncated_module_title := slice_to 25 safe_module_title in
  let prefix :=
    format_03d module_position ++ lit "_" ++ truncated_module_title
    ++ lit "_" ++ format_03d position in
  let base_name := prefix ++ lit "_" ++ safe_title in
  let base_name :=
    if 200 <? length base_name then
      let safe_title :=
        slice_to (200 - Z.of_nat (length prefix) - 1) safe_title in
      prefix ++ lit "_" ++ safe_title
    else base_name in
  base_name ++ extension.

End Paths.

End Filenames.

(** ** The requests of [CanvasQuizCreator] *)

Module QuizItems.
Import Py PyStr PyFormat Text2Qti QuizCreator.

(** The values a request carries as JSON; a dict keeps its keys in the
    order in which they were written. *)
#[warnings="-register-all"]
Inductive json :=
| JNull
| JBool (b : bool)
| JInt (n : Z)
| JFloat (x : Q)
| JStr (s : str)
| JList (l : list json)
| JObj (fields : list (string * json)).

(** [d[key] = value]: the value of a key of the dict is replaced where it
    stands, a new key is added at the end. *)
Fixpoint set_key (key : string) (value : json) (fields : list (string * json))
  : list (string * json) :=
  match fields with
  | [] => [(key, value)]
  | (k, v) :: rest =>
      if String.eqb k key then (k, value) :: rest
      else (k, v) :: set_key key value rest
  end.

(** [sub in s] on two strings. *)
Fixpoint contains (sub s : str) : bool :=
  startswith sub s
  || match s with
     | [] => false
     | _ :: s' => contains sub s'
     end.

(** [s.rstrip('/')] *)
Definition rstrip_slash (s : str) : str :=
  rev (dropwhile (is_char "/") (rev s)).

(** A [CanvasQuizCreator] object. *)
Record CanvasQuizCreator := Creator {
  canvas_url : str;
  api_token : str;
  headers : list (string * str)
}.

(** [__init__] *)
Definition init (canvas_url api_token : str) : CanvasQuizCreator :=
  Creator (rstrip_slash canvas_url) api_token
          [("Authorization"%string, lit "Bearer " ++ api_token);
           ("Content-Type"%string, lit "application/json")].

(** What a method hands to [requests.post]. *)
Record request := Request {
  url : str;
  req_headers : list (string * str);
  body : json
}.

(** The address of the items of a quiz. *)
Definition items_url (self : CanvasQuizCreator) (course_id assignment_id : Z)
  : str :=
  canvas_url self ++ lit "/api/quiz/v1/courses/" ++ format_int course_id
  ++ lit "/quizzes/" ++ format_int assignment_id ++ lit "/items".

(** [item_data]; the key [position] is added to the dict of the item
    when a position is given. *)
Definition item_data (item : list (string * json)) (position : option Z)
  : json :=
  JObj [("item"%string,
         JObj match position with
              | Some p => set_key "position" (JInt p) item
              | None => item
              end)].

(** The text between the tags of a paragraph. *)
Definition paragraph (text : str) : str := lit "<p>" ++ text ++ lit "</p>".

Definition shuffle_rules : string * json :=
  ("shuffleRules"%string,
   JObj [("choices"%string,
          JObj [("toLock"%string, JList []);
                ("shuffled"%string, JBool false)])]).

Section Requests.

(** The values that the calls of [str(uuid.uuid4())] return while one
    request is built, in the order of the calls. *)
Variable uuid4 : nat -> str.

(** The dict appended to [choice_data] for the choice at index [i]. *)
Definition choice_entry (i : nat) (choice : choice) : json :=
  JObj [("id"%string, JStr (uuid4 i));
        ("position"%string, JInt (Z.of_nat i + 1));
        ("itemBody"%string, JStr (paragraph (c_text choice)))].

(** The loop over the choices of [_create_multiple_choice_question]. *)
Fixpoint choice_loop (choices : list choice) (i : nat)
  (choice_data : list json) (correct_choice_id : json) : list json * json :=
  match choices with
  | [] => (choice_data, correct_choice_id)
  | choice :: rest =>
      let choice_data := choice_data ++ [choice_entry i choice] in
      let correct_choice_id :=
        if c_correct choice then JStr (uuid4 i) else correct_choice_id in
      choice_loop rest (S i) choice_data correct_choice_id
  end.

(** [_create_multiple_choice_question], up to the call of [requests.post]. *)
Definition multiple_choice_request (self : CanvasQuizCreator)
  (course_id assignment_id : Z) (question_data : question)
  (position : option Z) : request :=
  let url := items_url self course_id assignment_id in
  let (choice_data, correct_choice_id) :=
    choice_loop (q_choices question_data) 0 [] JNull in
  let item :=
    [("entry_type"%string, JStr (lit "Item"));
     ("points_possible"%string, JFloat (q_points question_data));
     ("entry"%string,
      JObj [("interaction_type_slug"%string, JStr (lit "choice"));
            ("title"%string, JStr (lit "Question"));
            ("item_body"%string, JStr (paragraph (q_text question_data)));
            ("calculator_type"%string, JStr (lit "none"));
            ("interaction_data"%string,
             JObj [("choices"%string, JList choice_data)]);
            ("properties"%string,
             JObj [shuffle_rules;
                   ("varyPointsByAnswer"%string, JBool false)]);
            ("scoring_data"%string,
             JObj [("value"%string, correct_choice_id)]);
            ("scoring_algorithm"%string, JStr (lit "Equivalence"))])] in
  Request url (headers self) (item_data item position).

(** The loop over the choices of [_create_multiple_answer_question]. *)
Fixpoint answer_loop (choices : list choice) (i : nat)
  (choice_data : list json) (correct_choice_ids : list json)
  : list json * list json :=
  match choices with
  | [] => (choice_data, correct_choice_ids)
  | choice :: rest =>
      let choice_data := choice_data ++ [choice_entry i choice] in
      let correct_choice_ids :=
        if c_correct choice then correct_choice_ids ++ [JStr (uuid4 i)]
        else correct_choice_ids in
      answer_loop rest (S i) choice_data correct_choice_ids
  end.

(** [_create_multiple_answer_question], up to the call of [requests.post]. *)
Definition multiple_answer_request (self : CanvasQuizCreator)
  (course_id assignment_id : Z) (question_data : question)
  (position : option Z) : request :=
  let url := items_url self course_id assignment_id in
  let (choice_data, correct_choice_ids) :=
    answer_loop (q_choices question_data) 0 [] [] in
  let item :=
    [("entry_type"%string, JStr (lit "Item"));
     ("points_possible"%string, JFloat (q_points question_data));
     ("entry"%string,
      JObj [("interaction_type_slug"%string, JStr (lit "multi-answer"));
            ("title"%string, JStr (lit "Question"));
            ("item_body"%string, JStr (paragraph (q_text question_data)));
            ("calculator_type"%string, JStr (lit "none"));
            ("interaction_data"%string,
             JObj [("choices"%string, JList choice_data)]);
            ("properties"%string, JObj [shuffle_rules]);
            ("scoring_data"%string,
             JObj [("value"%string, JList correct_choice_ids)]);
            ("scoring_algorithm"%string, JStr (lit "AllOrNothing"))])] in
  Request url (headers self) (item_data item position).

(** The loop over the choices of the public
    [create_multiple_choice_question]. *)
Fixpoint indexed_loop (correct_answer_index : Z) (choices : list choice)
  (i : nat) (choice_data : list json) (correct_choice_id : json)
  : list json * json :=
  match choices with
  | [] => (choice_data, correct_choice_id)
  | choice :: rest =>
      let choice_data := choice_data ++ [choice_entry i choice] in
      let correct_choice_id :=
        if (Z.of_nat i =? correct_answer_index)%Z then JStr (uuid4 i)
        else correct_choice_id in
      indexed_loop correct_answer_index rest (S i) choice_data
                   correct_choice_id
  end.

(** [title or ...]: the word Question when no title is given, or an
    empty one. *)
Definition title_or_default (title : option str) : str :=
  match title with
  | Some (c :: t) => c :: t
  | _ => lit "Question"
  end.

(** The public [create_multiple_choice_question], up to the call of
    [requests.post]; of each choice dict only ['text'] is read. *)
Definition indexed_choice_request (self : CanvasQuizCreator)
  (course_id assignment_id : Z) (question_text : str) (choices : list choice)
  (correct_answer_index : Z) (points : Q) (position : option Z)
  (title : option str) : request :=
  let url := items_url self course_id assignment_id in
  let (choice_data, correct_choice_id) :=
    indexed_loop correct_answer_index choices 0 [] JNull in
  let item :=
    [("entry_type"%string, JStr (lit "Item"));
     ("points_possible"%string, JFloat points);
     ("entry"%string,
      JObj [("interaction_type_slug"%string, JStr (lit "choice"));
            ("title"%string, JStr (title_or_default title));
            ("item_body"%string, JStr (paragraph question_text));
            ("calculator_type"%string, JStr (lit "none"));
            ("interaction_data"%string,
             JObj [("choices"%string, JList choice_data)]);
            ("properties"%string,
             JObj [shuffle_rules;
                   ("varyPointsByAnswer"%string, JBool false)]);
            ("scoring_data"%string,
             JObj [("value"%string, correct_choice_id)]);
            ("scoring_algorithm"%string, JStr (lit "Equivalence"))])] in
  Request url (headers self) (item_data item position).

End Requests.

(** The loop of [_create_true_false_question], which stops at the first
    choice marked correct. *)
Fixpoint truth_loop (choices : list choice) (correct_answer : bool) : bool :=
  match choices with
  | [] => correct_answer
  | choice :: rest =>
      if c_correct choice then
        let choice_text := lower (c_text choice) in
        if contains (lit "false") choice_text || contains (lit "no") choice_text
        then false
        else correct_answer
      else truth_loop rest correct_answer
  end.

(** [_create_true_false_question], up to the call of [requests.post]. *)
Definition true_false_request (self : CanvasQuizCreator)
  (course_id assignment_id : Z) (question_data : question)
  (position : option Z) : request :=
  let url := items_url self course_id assignment_id in
  let correct_answer := truth_loop (q_choices question_data) true in
  let item :=
    [("entry_type"%string, JStr (lit "Item"));
     ("points_possible"%string, JFloat (q_points question_data));
     ("entry"%string,
      JObj [("interaction_type_slug"%string, JStr (lit "true-false"));
            ("title"%string, JStr (lit "Question"));
            ("item_body"%string, JStr (paragraph (q_text question_data)));
            ("calculator_type"%string, JStr (lit "none"));
            ("interaction_data"%string,
             JObj [("true_choice"%string, JStr (lit "True"));
                   ("false_choice"%string, JStr (lit "False"))]);
            ("properties"%string, JObj []);
            ("scoring_data"%string,
             JObj [("value"%string, JBool correct_answer)]);
            ("scoring_algorithm"%string, JStr (lit "Equivalence"))])] in
  Request url (headers self) (item_data item position).

(** [_create_essay_question], up to the call of [requests.post]. *)
Definition essay_request (self : CanvasQuizCreator)
  (course_id assignment_id : Z) (question_data : question)
  (position : option Z) : request :=
  let url := items_url self course_id assignment_id in
  let item :=
    [("entry_type"%string, JStr (lit "Item"));
     ("points_possible"%string, JFloat (q_points question_data));
     ("entry"%string,
      JObj [("interaction_type_slug"%string, JStr (lit "essay"));
            ("title"%string, JStr (lit "Question"));
            ("item_body"%string, JStr (paragraph (q_text question_data)));
            ("calculator_type"%string, JStr (lit "none"));
            ("interaction_data"%string,
             JObj [("rce"%string, JBool true);
                   ("essay"%string, JNull);
                   ("word_count"%string, JBool true);
                   ("file_upload"%string, JBool false);
                   ("spell_check"%string, JBool true);
                   ("word_limit_enabled"%string, JBool false)]);
            ("properties"%string, JObj []);
            ("scoring_data"%string, JObj [("value"%string, JStr [])]);
            ("scoring_algorithm"%string, JStr (lit "None"))])] in
  Request url (headers self) (item_data item position).

(** [create_quiz], up to the call of [requests.post]; [quiz_settings] are
    the keyword arguments in the order of the call. *)
Definition quiz_request (self : CanvasQuizCreator) (course_id : Z)
  (quiz_title instructions : str) (points_possible : option Q)
  (quiz_settings : list (string * json)) : request :=
  let url :=
    canvas_url self ++ lit "/api/quiz/v1/courses/" ++ format_int course_id
    ++ lit "/quizzes" in
  let quiz :=
    [("title"%string, JStr quiz_title);
     ("instructions"%string, JStr instructions);
     ("grading_type"%string, JStr (lit "points"))] in
  let quiz :=
    match points_possible with
    | Some p => set_key "points_possible" (JFloat p) quiz
    | None => quiz
    end in
  let quiz :=
    fold_left (fun quiz kv => set_key (fst kv) (snd kv) quiz) quiz_settings
              quiz in
  Request url (headers self) (JObj [("quiz"%string, JObj quiz)]).

Section Service.

(** The answer of the service: [requests.post(url, headers=..., json=...)],
    [raise_for_status()] and [.json()], which fail together. *)
Variable response : Type.
Variable post : str -> list (string * str) -> json -> reply response.

Definition send (r : request) : reply response :=
  post (url r) (req_headers r) (body r).

Definition create_quiz (self : CanvasQuizCreator) (course_id : Z)
  (quiz_title instructions : str) (points_possible : option Q)
  (quiz_settings : list (string * json)) : reply response :=
  send (quiz_request self course_id quiz_title instructions points_possible
          quiz_settings).

Definition _create_multiple_choice_question (uuid4 : nat -> str)
  (self : CanvasQuizCreator) (course_id assignment_id : Z)
  (question_data : question) (position : option Z) : reply response :=
  send (multiple_choice_request uuid4 self course_id assignment_id
          question_data position).

Definition _create_multiple_answer_question (uuid4 : nat -> str)
  (self : CanvasQuizCreator) (course_id assignment_id : Z)
  (question_data : question) (position : option Z) : reply response :=
  send (multiple_answer_request uuid4 self course_id assignment_id
          question_data position).

Definition _create_true_false_question (self : CanvasQuizCreator)
  (course_id assignment_id : Z) (question_data : question)
  (position : option Z) : reply response :=
  send (true_false_request self course_id assignment_id question_data
          position).

Definition _create_essay_question (self : CanvasQuizCreator)
  (course_id assignment_id : Z) (question_data : question)
  (position : option Z) : reply response :=
  send (essay_request self course_id assignment_id question_data position).

Definition create_multiple_choice_question (uuid4 : nat -> str)
  (self : CanvasQuizCreator) (course_id assignment_id : Z)
  (question_text : str) (choices : list choice) (correct_answer_index : Z)
  (points : Q) (position : option Z) (title : option str) : reply response :=
  send (indexed_choice_request uuid4 self course_id assignment_id
          question_text choices correct_answer_index points position title).

(** The methods as [create_quiz_from_text2qti_file] calls them on
    [CanvasQuizCreator(canvas_url, api_token)]; [ids position] are the
    values [uuid4] returns during the call for that position. *)
Variable ids : nat -> nat -> str.

Definition on_creator {A : Type}
  (method : CanvasQuizCreator -> Z -> Z -> question -> option Z -> A)
  (canvas_url api_token : string) (course_id assignment_id : Z)
  (question_data : question) (position : nat) : A :=
  method (init (lit canvas_url) (lit api_token)) course_id assignment_id
         question_data (Some (Z.of_nat position)).

(** [create_question_from_parsed] with the four methods in place. *)
Definition create_question_from_parsed (canvas_url api_token : string)
  (course_id assignment_id : Z) (question_data : question) (position : nat)
  : io message response :=
  QuizCreator.create_question_from_parsed response
    (fun u t c a q p =>
       on_creator (_create_multiple_choice_question (ids p)) u t c a q p)
    (fun u t c a q p =>
       on_creator (_create_multiple_answer_question (ids p)) u t c a q p)
    (on_creator _create_true_false_question)
    (on_creator _create_essay_question)
    canvas_url api_token course_id assignment_id question_data position.

End Service.

End QuizItems.

(** ** The walk with [make_sortable_filename] in place *)

Module Downloads.
Import Py PyStr ModuleItems.

Section World.

Variable get_file : Z -> reply file_obj.
Variable get_page : string -> reply page.
Variable file_download : file_obj -> string -> reply unit.
Variable write_text : string -> reply unit.
Variable mkdir : string -> reply unit.
Variable get_modules : reply (list canvas_module).
Variable splitext : str -> str * str.
Variable path_suffix : string -> string.
Variable path_join : string -> string -> string.

(** [make_sortable_filename] as [download_file] and [download_page] call
    it; with numbers for the two positions it raises nothing. *)
Definition make_sortable_filename (title module_title : string)
  (module_position position : Z) (extension : string) : reply string :=
  Answer (string_of_list_ascii
            (Filenames.make_sortable_filename splitext (lit title)
               (lit module_title) module_position position (lit extension))).

Definition download_course_modules (download_dir : string)
  : io event (list module_item) :=
  ModuleItems.download_course_modules get_file get_page file_download
    write_text mkdir get_modules make_sortable_filename path_suffix path_join
    download_dir.

End World.

End Downloads.

(** ** The output of the upload with the line the parser prints *)

Module Stdout.
Import Py PyStr Re Text2Qti QuizCreator.

(** A line of the standard output of [create_canvas_quiz.py]: the question
    text that [_parse_question] prints, or a message of the upload. *)
Inductive line :=
| QuestionText (question_text : str)
| Said (m : message).

(** A part of the script whose prints are messages of the upload. *)
Definition said {A : Type} (m : io message A) : io line A :=
  (map Said (fst m), snd m).

(** [_parse_question] with its [print(question_text)], which stands
    between the creation of the question dict and the loop over the body
    lines. *)
Definition parse_question_fuel (fuel : nat) (lines : list str) (start_idx : nat)
  : io line (option question * nat) :=
  match nth_error lines start_idx with
  | None => raise IndexError
  | Some l =>
      let question_line := strip l in
      match re_match header_text_re question_line with
      | None => ret (None, start_idx + 1)
      | Some m =>
          let question_text := group m 1 in
          emit (QuestionText question_text) ;;;
          r <~ lift (scan_body fuel lines (start_idx + 1)
                       (new_question question_text)) ;;
          ret (Some (auto_detect (fst r)), snd r)
      end
  end.

Definition _parse_question (lines : list str) (start_idx : nat)
  : io line (option question * nat) :=
  parse_question_fuel (length lines) lines start_idx.

(** The [while i < len(lines)] loop of [parse_content]. *)
Fixpoint parse_loop (fuel : nat) (lines : list str) (i : nat) (self : parser)
  : io line parser :=
  if i <? length lines then
    match fuel with
    | 0 => lift OutOfFuel
    | S fuel' =>
        let line := strip (nth i lines []) in
        if str_eqb line [] || startswith (lit "%") line then
          parse_loop fuel' lines (i + 1) self
        else
          self' <~ lift (parse_settings line self) ;;
          if is_match header_re line then
            r <~ _parse_question lines i ;;
            parse_loop fuel' lines (snd r) (append_question (fst r) self')
          else parse_loop fuel' lines (i + 1) self'
    end
  else ret self.

(** [parse_content(content)] *)
Definition parse_content (self : parser) (content : str)
  : io line (quiz_data * parser) :=
  let lines := split newline content in
  let self0 := Parser (quiz_title self) (quiz_description self)
                      (multiple_attempts self) [] in
  self' <~ parse_loop (length lines) lines 0 self0 ;;
  ret (QuizData (quiz_title self') (quiz_description self')
                (multiple_attempts self') (questions self'), self').

Section World.

Variable response : Type.
Variable response_id : response -> option Z.
Variable read_file : string -> reply str.
Variable create_quiz :
  string -> string -> Z -> str -> str -> Q -> str -> reply response.
Variable _create_multiple_choice_question :
  string -> string -> Z -> Z -> question -> nat -> reply response.
Variable _create_multiple_answer_question :
  string -> string -> Z -> Z -> question -> nat -> reply response.
Variable _create_true_false_question :
  string -> string -> Z -> Z -> question -> nat -> reply response.
Variable _create_essay_question :
  string -> string -> Z -> Z -> question -> nat -> reply response.

(** [create_quiz_from_text2qti_file]: [parser.parse_file(file_path)] reads
    the file and parses it, printing the question texts, before the quiz is
    created. *)
Definition create_quiz_from_text2qti_file (file_path : string) (course_id : Z)
  (canvas_url api_token : string) : io line (creation response) :=
  content <~ call (read_file file_path) ;;
  parsed <~ parse_content new_parser content ;;
  let quiz_data := fst parsed in
  let total_points := sum_points (qd_questions quiz_data) in
  quiz <~ call (create_quiz canvas_url api_token course_id (title quiz_data)
                  (description quiz_data) total_points
                  (qd_multiple_attempts quiz_data)) ;;
  quiz_id <~ said (get_id response response_id quiz) ;;
  emit (Said (MsgQuizCreated (title quiz_data) quiz_id)) ;;;
  assignment_id <~ said (get_id response response_id quiz) ;;
  created_questions <~
    said (add_questions response _create_multiple_choice_question
            _create_multiple_answer_question _create_true_false_question
            _create_essay_question canvas_url api_token course_id
            assignment_id (qd_questions quiz_data) 1 []) ;;
  ret (Creation quiz created_questions (length created_questions) total_points).

End World.

End Stdout.

(** * The vocabulary of the properties

    The predicates and the functions the theorems are stated with, and the
    small inputs the development runs the scripts on. *)

Module Text2QtiSpec.
Import Py PyStr Re Text2Qti.

(** The first and the last character of a string are no white space. *)
Definition trimmed (s : str) : Prop :=
  (forall c t, s = c :: t -> is_space c = false)
  /\ (forall c t, s = t ++ [c] -> is_space c = false).

(** A group is put in front of the groups found after it. *)
Definition push (g : bool) (taken : str) (o : option (list str))
  : option (list str) :=
  match o with
  | Some gs => Some (if g then taken :: gs else gs)
  | None => None
  end.

(** White space, possibly none. *)
Definition blank (ws : str) : Prop := forallb is_space ws = true.

(** White space, at least one character. *)
Definition gap (ws : str) : Prop := ws <> [] /\ forallb is_space ws = true.

(** The text after a marker: not empty, no white space at either end and,
    as in every line of a text cut at the line feeds, no line feed. *)
Definition plain_text (t : str) : Prop :=
  t <> [] /\ trimmed t /\ forallb not_newline t = true.


(** Two lower-cased choice texts that are 'true' and 'false', or 'yes' and
    'no', in either order. *)
Definition true_false_pair (a b : str) : Prop :=
  (a = lit "true" /\ b = lit "false") \/ (a = lit "false" /\ b = lit "true")
  \/ (a = lit "yes" /\ b = lit "no") \/ (a = lit "no" /\ b = lit "yes").

(** A scanned question that the detection reclassifies. *)
Definition looks_true_false (q : question) : Prop :=
  q_type q = multiple_choice
  /\ exists c1 c2,
       q_choices q = [c1; c2]
       /\ true_false_pair (lower (c_text c1)) (lower (c_text c2)).

(** A line that starts a question. *)
Definition is_header (l : str) : bool := is_match header_re (strip l).

(** The text of a question, read off its header line. *)
Definition header_text (l : str) : str :=
  match re_match header_text_re (strip l) with
  | Some m => group m 1
  | None => []
  end.

(** The lines of a block after its header: up to the next header. *)
Fixpoint body_of (ls : list str) : list str :=
  match ls with
  | [] => []
  | l :: ls' => if is_header l then [] else l :: body_of ls'
  end.

(** The body lines applied to a question, one after the other. *)
Definition scan_lines (body : list str) (q : question) : question :=
  fold_left (fun q l => scan_line (strip l) q) body q.

(** The questions of a text, block by block. *)
Fixpoint block_questions (ls : list str) : list question :=
  match ls with
  | [] => []
  | l :: ls' =>
      if is_header l
      then auto_detect (scan_lines (body_of ls') (new_question (header_text l)))
           :: block_questions ls'
      else block_questions ls'
  end.

(** The points are 1.0; a short-answer question has its list of answers
    and a numerical question its answer. *)
Definition well_formed (q : question) : Prop :=
  q_points q = 1%Q
  /\ (q_type q = short_answer -> exists l, q_answers q = Some l)
  /\ (q_type q = numerical -> exists a, q_answer q = Some a).

(** The type a stripped line sets, if it is a marker line. *)
Definition kind_of (s : str) : option qtype :=
  if is_match choice_re s then Some multiple_choice
  else if is_match multi_re s then Some multiple_answer
  else if is_match numerical_re s then Some numerical
  else if is_match short_re s then Some short_answer
  else if is_match essay_re s then Some essay
  else if is_match upload_re s then Some file_upload
  else None.

(** The choice a stripped line appends, if any. *)
Definition line_choices (s : str) : list choice :=
  match re_match choice_re s with
  | Some m => [Choice (group m 3) (str_eqb (group m 1) (lit "*"))]
  | None =>
      match re_match multi_re s with
      | Some m => [Choice (group m 2) (str_eqb (group m 1) (lit "*"))]
      | None => []
      end
  end.

(** The six marker patterns, in the order the loop tries them. *)
Definition marker_patterns : list regex :=
  [choice_re; multi_re; numerical_re; short_re; essay_re; upload_re].

(** The only marker pattern that the first two characters of a stripped
    line leave possible, as its index in [marker_patterns]. *)
Definition marker_tag (s : str) : option nat :=
  match s with
  | [] => None
  | c1 :: t =>
      if is_az c1 then Some 0
      else if is_char "[" c1 then Some 1
      else if is_char "=" c1 then Some 2
      else if is_char "_" c1 then Some 4
      else if is_char "^" c1 then Some 5
      else if is_char "*" c1 then
        match t with
        | [] => None
        | c2 :: _ => if is_space c2 then Some 3 else Some 0
        end
      else None
  end.

(** The kind of the last marker line of a body. *)
Fixpoint last_kind (body : list str) : option qtype :=
  match body with
  | [] => None
  | l :: body' =>
      match last_kind body' with
      | Some k => Some k
      | None => kind_of (strip l)
      end
  end.

(** The type of the question a block starting at line 0 gives. *)
Definition block_type (lines : list str) : option qtype :=
  match _parse_question lines 0 with
  | Ok (Some q, _) => Some (q_type q)
  | _ => None
  end.

End Text2QtiSpec.

Module QuizCreatorSpec.
Import Py PyStr Text2Qti QuizCreator.

Section World.

Variable response : Type.
Variable _create_multiple_choice_question :
  string -> string -> Z -> Z -> question -> nat -> reply response.
Variable _create_multiple_answer_question :
  string -> string -> Z -> Z -> question -> nat -> reply response.
Variable _create_true_false_question :
  string -> string -> Z -> Z -> question -> nat -> reply response.
Variable _create_essay_question :
  string -> string -> Z -> Z -> question -> nat -> reply response.
Variables canvas_url api_token : string.
Variables course_id assignment_id : Z.

(** How the creation of the question at position [i] ends. *)
Definition outcome (i : nat) (q : question) : result response :=
  snd (create_question_from_parsed response
         _create_multiple_choice_question _create_multiple_answer_question
         _create_true_false_question _create_essay_question canvas_url api_token course_id
         assignment_id q i).

(** The answers to the questions whose creation succeeds, positions
    counted from [i]. *)
Fixpoint created_from (i : nat) (qs : list question) : list response :=
  match qs with
  | [] => []
  | q :: qs' =>
      match outcome i q with
      | Ok r => r :: created_from (S i) qs'
      | _ => created_from (S i) qs'
      end
  end.

Definition succeeds (i : nat) (q : question) : bool :=
  match outcome i q with Ok _ => true | _ => false end.

Fixpoint count_created (i : nat) (qs : list question) : nat :=
  match qs with
  | [] => 0
  | q :: qs' => (if succeeds i q then 1 else 0) + count_created (S i) qs'
  end.

End World.

(** *** A small quiz and a service that refuses essay questions *)

Open Scope string_scope.

Definition sample_content : str :=
  lit "Quiz title: Sample
1. What is 2+3?
a) 6
*b) 5
2. Explain why.
___
3. Which are prime?
[*] 5
[ ] 8
".

Definition sample_response : Type := (Z * str)%type.

Definition sample_id (r : sample_response) : option Z := Some (fst r).

Definition sample_title (r : sample_response) : option str := Some (snd r).

Definition sample_read_file (file_path : string) : reply str :=
  Answer sample_content.

Definition sample_create_quiz (canvas_url api_token : string) (course_id : Z)
  (quiz_title instructions : str) (points_possible : Q)
  (multiple_attempts : str) : reply sample_response :=
  Answer (42%Z, quiz_title).

Definition sample_accept (canvas_url api_token : string)
  (course_id assignment_id : Z) (q : question) (position : nat)
  : reply sample_response :=
  Answer (Z.of_nat position, q_text q).

Definition sample_refuse (canvas_url api_token : string)
  (course_id assignment_id : Z) (q : question) (position : nat)
  : reply sample_response :=
  Failure (Exn "HTTPError" "500 Server Error").

Definition sample_int (s : string) : option Z := Some 12345%Z.

Definition sample_exists (path : string) : bool := true.

(** An environment without CANVAS_URL, and one without CANVAS_COURSE_ID. *)
Definition env_without_url (name : string) : option string :=
  if String.eqb name "CANVAS_API_TOKEN" then Some "secret"
  else if String.eqb name "CANVAS_COURSE_ID" then Some "12345"
  else None.

Definition env_without_course (name : string) : option string :=
  if String.eqb name "CANVAS_API_TOKEN" then Some "secret"
  else if String.eqb name "CANVAS_URL" then Some "https://canvas.example.edu"
  else None.

Definition sample_main (getenv : string -> option string) : io message unit :=
  main sample_response sample_id sample_title sample_read_file
    sample_create_quiz sample_accept sample_accept sample_accept sample_refuse
    getenv sample_int sample_exists "quiz.txt".

Definition sample_upload : io message (creation sample_response) :=
  create_quiz_from_text2qti_file sample_response sample_id sample_read_file
    sample_create_quiz sample_accept sample_accept sample_accept sample_refuse
    "quiz.txt" 12345 "https://canvas.example.edu" "secret".

Definition sample_quiz_data : quiz_data :=
  match parse_content new_parser sample_content with
  | Ok r => fst r
  | _ => QuizData [] [] [] []
  end.

Definition sample_parser : parser :=
  match parse_content new_parser sample_content with
  | Ok r => snd r
  | _ => new_parser
  end.

Close Scope string_scope.

End QuizCreatorSpec.

Module ModuleItemsSpec.
Import Py ModuleItems.

(** The item's type is one of the three the walker downloads. *)
Definition downloadable_type (item : module_item) : Prop :=
  item_type item = Some "File"%string
  \/ item_type item = Some "Page"%string
  \/ item_type item = Some "Attachment"%string.

(** The events that hand an item to [download_file] or [download_page]. *)
Definition handed_over (e : event) : option module_item :=
  match e with
  | CallDownloadFile item | CallDownloadPage item => Some item
  | _ => None
  end.

Definition not_a_call (e : event) : Prop := handed_over e = None.

Definition call_of (P : module_item -> Prop) (e : event) : Prop :=
  match handed_over e with Some item => P item | None => True end.

(** The attribute of a module that [download_file] and [download_page]
    read first among those it lacks: [module.name], then
    [module.position]. *)
Definition missing_module_attribute (m : canvas_module) : option string :=
  match module_name m with
  | None => Some "name"%string
  | Some _ =>
      match module_position m with
      | None => Some "position"%string
      | Some _ => None
      end
  end.

(** The items of a module whose listing the service answered. *)
Definition listed (m : canvas_module) : list module_item :=
  match get_module_items m with Answer items => items | Failure _ => [] end.

Definition answered (m : canvas_module) : Prop :=
  exists items, get_module_items m = Answer items.

(** *** A small course, to run the walker on *)

Open Scope string_scope.

Definition sample_get_file (content_id : Z) : reply file_obj :=
  if Z.eqb content_id 7
  then Answer (FileObj 7 (Some "notes.pdf") (Some "application/pdf"))
  else Failure (Exn "ResourceDoesNotExist" "Not Found").

Definition sample_get_page (page_url : string) : reply page :=
  Answer (Page (Some "<p>Welcome</p>")).

Definition sample_file_download (f : file_obj) (filepath : string) : reply unit :=
  Answer tt.

Definition sample_write_text (filepath : string) : reply unit := Answer tt.

Definition sample_mkdir (path : string) : reply unit := Answer tt.

Definition sample_sortable (title module_title : string)
  (module_position position : Z) (extension : string) : reply string :=
  Answer (module_title ++ "_" ++ title ++ extension).

Definition sample_suffix (name : string) : string := ".pdf".

Definition sample_join (dir name : string) : string := dir ++ "/" ++ name.

Definition sample_file : module_item :=
  ModuleItem (Some "File") (Some "notes") (Some 1%Z) (Some true) (Some 7%Z) None.

Definition sample_quiz : module_item :=
  ModuleItem (Some "Quiz") (Some "week 1 quiz") (Some 2%Z) (Some true) None None.

Definition sample_hidden_page : module_item :=
  ModuleItem (Some "Page") (Some "draft") (Some 3%Z) (Some false) None (Some "draft").

Definition sample_bare_page : module_item :=
  ModuleItem (Some "Page") None None (Some true) None None.

Definition sample_empty_item : module_item :=
  ModuleItem None None None None None None.

Definition sample_module : canvas_module :=
  CanvasModule None None None
    (Answer [sample_file; sample_quiz; sample_hidden_page; sample_bare_page;
             sample_empty_item]).

Definition sample_modules : reply (list canvas_module) := Answer [sample_module].

Definition sample_run : io event (list module_item) :=
  download_course_modules sample_get_file sample_get_page sample_file_download
    sample_write_text sample_mkdir sample_modules sample_sortable
    sample_suffix sample_join "downloads".

Close Scope string_scope.

End ModuleItemsSpec.

Module ParserSpec.
Import Py PyStr Re Text2Qti Text2QtiSpec.

(** The two marker lines that [marker_line] leaves out: an accepted short
    answer [* answer] and the file-upload rule [^^^]. *)
Inductive answer_line : str -> (question -> question) -> Prop :=
| short_line (ws t : str) :
    gap ws -> plain_text t ->
    answer_line ("*"%char :: ws ++ t)
                (fun q => set_type short_answer (append_answer t q))
| upload_line (n : nat) :
    3 <= n ->
    answer_line (repeat "^"%char n) (fun q => set_type file_upload q).

(** A stripped line that cannot be a marker line: it is empty, or its first
    character is neither a lower-case letter nor one of [[], [=], [_], [^]
    and [*]. *)
Definition no_marker_start (s : str) : Prop :=
  match s with
  | [] => True
  | c :: _ =>
      is_az c = false /\ c <> "["%char /\ c <> "="%char /\ c <> "_"%char
      /\ c <> "^"%char /\ c <> "*"%char
  end.

End ParserSpec.

Module SettingsSpec.
Import Py PyStr Re Text2Qti Text2QtiSpec.

(** The lines before the first question header. *)
Definition preamble (lines : list str) : list str := body_of lines.

(** A line that [parse_content] passes over: blank, or a remark. *)
Definition skipped (l : str) : bool :=
  str_eqb (strip l) [] || startswith (lit "%") (strip l).

(** The settings statements applied to the lines that are not passed over,
    one after the other. *)
Fixpoint read_settings (ls : list str) (self : parser) : result parser :=
  match ls with
  | [] => Ok self
  | l :: ls' =>
      if skipped l then read_settings ls' self
      else self' <- parse_settings (strip l) self ;; read_settings ls' self'
  end.

(** Two parser objects with the same title, description and
    multiple_attempts. *)
Definition same_settings (a b : parser) : Prop :=
  quiz_title a = quiz_title b
  /\ quiz_description a = quiz_description b
  /\ multiple_attempts a = multiple_attempts b.

(** [parse_content] on a text already cut into lines. *)
Definition parse_lines (self : parser) (lines : list str) : result parser :=
  parse_loop (length lines) lines 0
    (Parser (quiz_title self) (quiz_description self) (multiple_attempts self) []).

End SettingsSpec.

Module UploadSpec.
Import Py PyStr Text2Qti QuizCreator.

(** The dict a new parser returns for a text. *)
Definition parsed (content : str) : quiz_data :=
  match parse_content new_parser content with
  | Ok r => fst r
  | _ => QuizData [] [] [] []
  end.

Open Scope string_scope.

(** A service that refuses every quiz, an environment with the three
    variables, and a disk without the file. *)
Definition refuse_quiz (canvas_url api_token : string) (course_id : Z)
  (quiz_title instructions : str) (points_possible : Q)
  (multiple_attempts : str) : reply QuizCreatorSpec.sample_response :=
  Failure (Exn "HTTPError" "401 Unauthorized").

Definition env_complete (name : string) : option string :=
  if String.eqb name "CANVAS_API_TOKEN" then Some "secret"
  else if String.eqb name "CANVAS_URL" then Some "https://canvas.example.edu"
  else if String.eqb name "CANVAS_COURSE_ID" then Some "12345"
  else None.

Definition no_such_file (path : string) : bool := false.

Close Scope string_scope.

End UploadSpec.

Module WalkerSpec.
Import Py ModuleItems ModuleItemsSpec.

(** What the walk returns as far as the listings decide it: the items to
    download of each module, module after module, or the exception of the
    first listing that fails. *)
Fixpoint listing_result (modules : list canvas_module)
  (all_items : list module_item) : result (list module_item) :=
  match modules with
  | [] => Ok all_items
  | m :: modules' =>
      match get_module_items m with
      | Answer items => listing_result modules' (all_items ++ filter to_download items)
      | Failure e => Raise e
      end
  end.

(** The items handed to [download_file] or [download_page], in the order
    of the calls. *)
Definition calls (log : list event) : list module_item :=
  flat_map (fun e => match handed_over e with Some item => [item] | None => [] end)
           log.

(** The number of files the events ask the disk to write. *)
Definition writes (log : list event) : nat := length (filter writes_file log).

(** The events of [download_file] and [download_page] themselves. *)
Definition inner_event (e : event) : Prop :=
  match e with
  | PrintSkipping _ | PrintErrorDownloading _ _
  | CallDownloadFile _ | CallDownloadPage _ => False
  | _ => True
  end.

(** What the walk never prints, and which function gets which type. *)
Definition expected (e : event) : Prop :=
  match e with
  | PrintSkipping _ | PrintErrorDownloading _ _ => False
  | CallDownloadFile item =>
      item_type item = Some "File"%string
      \/ item_type item = Some "Attachment"%string
  | CallDownloadPage item => item_type item = Some "Page"%string
  | _ => True
  end.

(** A module with a name and a position, a file and a page of it. *)
Definition week_one : canvas_module :=
  CanvasModule (Some 10%Z) (Some "Week 1"%string) (Some 1%Z)
               (Answer [sample_file]).

Definition welcome_page : module_item :=
  ModuleItem (Some "Page"%string) (Some "Welcome"%string) (Some 2%Z)
             (Some true) None (Some "welcome"%string).

End WalkerSpec.

Module FilenamesSpec.
Import PyStr PyFormat Filenames.

(** The order of Python strings: by code point, a proper prefix first. *)
Fixpoint lex_ltb (a b : str) : bool :=
  match a, b with
  | _, [] => false
  | [], _ :: _ => true
  | x :: a', y :: b' =>
      (code x <? code y)%N || ((code x =? code y)%N && lex_ltb a' b')
  end.

(** A string without any character of the class that is replaced. *)
Definition safe (s : str) : Prop := Forall (fun c => unsafe_char c = false) s.

(** A position that [{:03d}] writes with three digits. *)
Definition three_digits (n : Z) : Prop := (0 <= n <= 999)%Z.

(** The extension the file name ends with. *)
Definition chosen_extension (splitext : str -> str * str)
  (title extension : str) : str :=
  if str_eqb extension [] then snd (splitext title) else extension.

(** A [splitext] that cuts at the last dot, to run the function on sample
    titles; it is [os.path.splitext] on a title whose last dot has no slash
    after it and does not begin the title or follow a slash. *)
Definition cut_at_last_dot (s : str) : str * str :=
  let r := rev s in
  let ext := rev (takewhile (fun c => negb (Ascii.eqb c ".")) r) in
  match dropwhile (fun c => negb (Ascii.eqb c ".")) r with
  | [] => (s, [])
  | _ :: base => (rev base, "."%char :: ext)
  end.

End FilenamesSpec.

Module QuizItemsSpec.
Import Py PyStr Text2Qti QuizCreator QuizItems.

(** The value of a key of a dict. *)
Fixpoint get_key (key : string) (fields : list (string * json)) : option json :=
  match fields with
  | [] => None
  | (k, v) :: rest => if String.eqb k key then Some v else get_key key rest
  end.

(** The value found by following keys into nested dicts. *)
Fixpoint field (path : list string) (j : json) : option json :=
  match path with
  | [] => Some j
  | key :: path' =>
      match j with
      | JObj fields =>
          match get_key key fields with
          | Some v => field path' v
          | None => None
          end
      | _ => None
      end
  end.

(** Where a request for an item keeps its choices, the answer that is
    scored as correct, the kind of the item and its position. *)
Definition choices_path : list string :=
  ["item"; "entry"; "interaction_data"; "choices"]%string.

Definition value_path : list string :=
  ["item"; "entry"; "scoring_data"; "value"]%string.

Definition slug_path : list string :=
  ["item"; "entry"; "interaction_type_slug"]%string.

Definition position_path : list string := ["item"; "position"]%string.

(** The entries of the choices, numbered from [i]. *)
Fixpoint entries_from (uuid4 : nat -> str) (i : nat) (choices : list choice)
  : list json :=
  match choices with
  | [] => []
  | c :: rest => choice_entry uuid4 i c :: entries_from uuid4 (S i) rest
  end.

Definition entries (uuid4 : nat -> str) (choices : list choice) : list json :=
  entries_from uuid4 0 choices.





(** What the first choice marked correct says: true unless it reads
    'false' or 'no'; true as well when no choice is marked. *)
Definition starred_truth (choices : list choice) : bool :=
  match find c_correct choices with
  | Some c => mem_str (lower (c_text c)) [lit "true"; lit "yes"]
  | None => true
  end.

(** The types [create_question_from_parsed] has no method for. *)
Definition unsupported (t : qtype) : Prop :=
  t = numerical \/ t = short_answer \/ t = file_upload.

(** The question without what an answer line has added. *)
Definition without_answers (q : question) : question :=
  Question (q_text q) multiple_choice (q_choices q) (q_points q) None None.

(** The keys [create_quiz] writes before the keyword settings. *)
Definition quiz_keys (quiz_title instructions : str)
  (points_possible : option Q) : list (string * json) :=
  [("title"%string, JStr quiz_title);
   ("instructions"%string, JStr instructions);
   ("grading_type"%string, JStr (lit "points"))]
  ++ match points_possible with
     | Some p => [("points_possible"%string, JFloat p)]
     | None => []
     end.

(** Sample values to run the methods on. *)
Definition sample_uuid4 (i : nat) : str := lit "id-" ++ PyFormat.digits (N.of_nat i).


Definition sample_post (u : str) (h : list (string * str)) (b : json)
  : reply json := Answer b.

End QuizItemsSpec.

Module DownloadsSpec.
Import Py PyStr ModuleItems ModuleItemsSpec FilenamesSpec.

(** The paths the events ask the disk to write, in order. *)
Definition written_paths (log : list event) : list string :=
  flat_map (fun e => match e with
                     | DownloadTo _ filepath => [filepath]
                     | WritePage filepath _ _ => [filepath]
                     | _ => []
                     end) log.

(** The position the walk gives an item. *)
Definition item_key (item : module_item) : Z := getattr (item_position item) 0%Z.

(** The positions of the items to download of a module. *)
Definition module_keys (m : canvas_module) : list Z :=
  match get_module_items m with
  | Answer items => map item_key (filter to_download items)
  | Failure _ => []
  end.

(** The positions of the modules that have one. *)
Definition module_positions (modules : list canvas_module) : list Z :=
  flat_map (fun m => match module_position m with
                     | Some p => [p]
                     | None => []
                     end) modules.

(** Positions as Canvas gives them: from 0 to 999, no two modules at the
    same position and no two items to download of a module at the same
    position. *)
Definition positions_ok (modules : list canvas_module) : Prop :=
  NoDup (module_positions modules)
  /\ Forall three_digits (module_positions modules)
  /\ Forall (fun m => NoDup (module_keys m)
                      /\ Forall three_digits (module_keys m)) modules.

Section Names.

Variable make_sortable_filename :
  string -> string -> Z -> Z -> string -> reply string.
Variable path_join : string -> string -> string.

(** A path under [dir] whose name [make_sortable_filename] gave for the
    module and the position. *)
Definition named (module : canvas_module) (pos : Z) (dir path : string) : Prop :=
  exists title mname mpos ext name,
    module_name module = Some mname
    /\ module_position module = Some mpos
    /\ make_sortable_filename title mname mpos pos ext = Answer name
    /\ path = path_join dir name.

(** No path, or one path with such a name. *)
Definition at_most_one (module : canvas_module) (pos : Z) (dir : string)
  (paths : list string) : Prop :=
  paths = [] \/ exists path, paths = [path] /\ named module pos dir path.

(** A path of some module of the list at some position of its items. *)
Definition module_path (dir : string) (modules : list canvas_module)
  (path : string) : Prop :=
  exists m p, In m modules /\ In p (module_keys m) /\ named m p dir path.

End Names.

(** A service that knows every file, and a module with two files of the
    same title. *)
Definition any_file (content_id : Z) : reply file_obj :=
  Answer (FileObj content_id (Some "notes.pdf"%string) None).


Definition twin_files : list module_item :=
  [ModuleItem (Some "File") (Some "notes.pdf") (Some 1%Z) (Some true)
              (Some 7%Z) None;
   ModuleItem (Some "File") (Some "notes.pdf") (Some 2%Z) (Some true)
              (Some 8%Z) None]%string.

Definition twin_modules : list canvas_module :=
  [CanvasModule (Some 10%Z) (Some "Week 1"%string) (Some 1%Z)
                (Answer twin_files)].

End DownloadsSpec.

Module StdoutSpec.
Import Py PyStr Text2Qti Text2QtiSpec QuizCreator Stdout.

(** The lines the parser prints for a text: the texts of its questions,
    in order. *)
Definition question_lines (content : str) : list line :=
  map QuestionText (map header_text (filter is_header (split newline content))).

(** The messages of a log, without the lines of the parser. *)
Definition messages (log : list line) : list message :=
  flat_map (fun l => match l with Said m => [m] | QuestionText _ => [] end) log.

End StdoutSpec.

(** * Properties *)

(** ** The output log *)

Module PyFacts.
Import Py.

Lemma io_bind_ok {E A B : Type} (l : list E) (a : A) (k : A -> io E B) :
  io_bind (l, Ok a) k = (l ++ fst (k a), snd (k a)).
Proof. simpl. destruct (k a); reflexivity. Qed.

Lemma io_bind_fst {E A B : Type} (m : io E A) (k : A -> io E B) :
  fst (io_bind m k)
  = fst m ++ match snd m with Ok a => fst (k a) | _ => [] end.
Proof.
  destruct m as [l [a | e | ]]; simpl.
  - destruct (k a); reflexivity.
  - now rewrite app_nil_r.
  - now rewrite app_nil_r.
Qed.

Lemma io_bind_snd {E A B : Type} (m : io E A) (k : A -> io E B) :
  snd (io_bind m k)
  = match snd m with
    | Ok a => snd (k a)
    | Raise e => Raise e
    | OutOfFuel => OutOfFuel
    end.
Proof.
  destruct m as [l [a | e | ]]; simpl; try reflexivity.
  destruct (k a); reflexivity.
Qed.

Lemma try_except_fst {E A : Type} (m : io E A) (h : exn -> io E A) :
  fst (try_except m h)
  = fst m ++ match snd m with Raise e => fst (h e) | _ => [] end.
Proof.
  destruct m as [l [a | e | ]]; simpl.
  - now rewrite app_nil_r.
  - destruct (h e); reflexivity.
  - now rewrite app_nil_r.
Qed.

Lemma try_except_snd {E A : Type} (m : io E A) (h : exn -> io E A) :
  snd (try_except m h)
  = match snd m with
    | Ok a => Ok a
    | Raise e => snd (h e)
    | OutOfFuel => OutOfFuel
    end.
Proof.
  destruct m as [l [a | e | ]]; simpl; try reflexivity.
  destruct (h e); reflexivity.
Qed.

(** A property of every event passes through sequencing and handlers. *)
Lemma io_bind_Forall {E A B : Type} (P : E -> Prop) (m : io E A)
  (k : A -> io E B) :
  Forall P (fst m) -> (forall a, Forall P (fst (k a))) ->
  Forall P (fst (io_bind m k)).
Proof.
  intros Hm Hk. rewrite io_bind_fst. apply Forall_app. split; [exact Hm | ].
  destruct (snd m); auto.
Qed.

Lemma try_except_Forall {E A : Type} (P : E -> Prop) (m : io E A)
  (h : exn -> io E A) :
  Forall P (fst m) -> (forall e, Forall P (fst (h e))) ->
  Forall P (fst (try_except m h)).
Proof.
  intros Hm Hh. rewrite try_except_fst. apply Forall_app. split; [exact Hm | ].
  destruct (snd m); auto.
Qed.

Lemma emit_Forall {E : Type} (P : E -> Prop) (e : E) :
  P e -> Forall P (fst (emit e)).
Proof. intros H. simpl. auto. Qed.

Lemma call_Forall {E A : Type} (P : E -> Prop) (r : reply A) :
  Forall P (fst (@call E A r)).
Proof. simpl. constructor. Qed.

Lemma ret_Forall {E A : Type} (P : E -> Prop) (a : A) :
  Forall P (fst (@ret E A a)).
Proof. simpl. constructor. Qed.

Lemma raise_Forall {E A : Type} (P : E -> Prop) (e : exn) :
  Forall P (fst (@raise E A e)).
Proof. simpl. constructor. Qed.

End PyFacts.

(** ** The module walker *)

Module ModuleItemsFacts.
Import Py PyFacts ModuleItems ModuleItemsSpec.

Lemma not_a_call_call_of (P : module_item -> Prop) (e : event) :
  not_a_call e -> call_of P e.
Proof. unfold not_a_call, call_of. intros ->. exact I. Qed.

Lemma type_allowed_spec (t : string) :
  type_allowed t = true <->
  t = "File"%string \/ t = "Attachment"%string \/ t = "Page"%string.
Proof.
  unfold type_allowed, allowed_types. simpl.
  rewrite orb_false_r, !orb_true_iff, !String.eqb_eq. tauto.
Qed.

Lemma to_download_spec (item : module_item) :
  to_download item = true <->
  downloadable_type item /\ item_published item = Some true.
Proof.
  unfold to_download, downloadable_type. rewrite andb_true_iff, type_allowed_spec.
  destruct (item_type item) as [t | ], (item_published item) as [[ | ] | ];
    simpl; split; intros [H1 H2]; split; auto; try discriminate;
    try (destruct H1 as [H1 | [H1 | H1]]; try discriminate;
         inversion H1; subst; auto);
    try (destruct H1 as [H1 | [H1 | H1]]; subst; auto).
Qed.

Section World.

Variable get_file : Z -> reply file_obj.
Variable get_page : string -> reply page.
Variable file_download : file_obj -> string -> reply unit.
Variable write_text : string -> reply unit.
Variable mkdir : string -> reply unit.
Variable get_modules : reply (list canvas_module).
Variable make_sortable_filename :
  string -> string -> Z -> Z -> string -> reply string.
Variable path_suffix : string -> string.
Variable path_join : string -> string -> string.

Local Abbreviation download_file :=
  (download_file get_file file_download make_sortable_filename path_suffix path_join).
Local Abbreviation download_page :=
  (download_page get_page write_text make_sortable_filename path_join).
Local Abbreviation process_item :=
  (process_item get_file get_page file_download write_text
                make_sortable_filename path_suffix path_join).
Local Abbreviation process_modules :=
  (process_modules get_file get_page file_download write_text
                   make_sortable_filename path_suffix path_join).
Local Abbreviation download_course_modules :=
  (download_course_modules get_file get_page file_download write_text mkdir
                           get_modules make_sortable_filename path_suffix path_join).

Ltac io_result :=
  repeat progress (cbn [call emit ret raise attr snd]; rewrite ?io_bind_snd).

Ltac log_steps :=
  repeat first
    [ apply io_bind_Forall; [ | intros ? ]
    | apply try_except_Forall; [ | intros ? ]
    | apply emit_Forall
    | apply call_Forall
    | apply ret_Forall
    | apply raise_Forall ].

Lemma attr_Forall {A : Type} (P : event -> Prop) (name : string) (a : option A) :
  Forall P (fst (@attr event A name a)).
Proof. destruct a; simpl; constructor. Qed.

Lemma download_file_log item module dir mid pos :
  Forall not_a_call (fst (download_file item module dir mid pos)).
Proof.
  unfold ModuleItems.download_file.
  destruct (item_content_id item) as [[ | cid | cid] | ];
    log_steps; try apply attr_Forall; reflexivity.
Qed.

Lemma download_page_log item module dir mid pos :
  Forall not_a_call (fst (download_page item module dir mid pos)).
Proof.
  unfold ModuleItems.download_page.
  destruct (item_page_url item) as [[ | c u] | ];
    log_steps; try apply attr_Forall; reflexivity.
Qed.

Lemma process_item_log module dir mid item :
  to_download item = true ->
  Forall (call_of (fun it => to_download it = true))
         (fst (process_item module dir mid item)).
Proof.
  intros Hd. unfold ModuleItems.process_item.
  apply io_bind_Forall; [apply emit_Forall; exact I | intros _].
  apply try_except_Forall; [ | intros e; apply emit_Forall; exact I].
  repeat match goal with
         | |- context [if ?b then _ else _] => destruct b
         end;
    try (apply io_bind_Forall; [apply emit_Forall; exact Hd | intros _]);
    try (apply emit_Forall; exact I);
    eapply Forall_impl;
    try (intros ev; apply not_a_call_call_of);
    first [apply download_file_log | apply download_page_log].
Qed.

Lemma for_each_log (P : event -> Prop) (f : module_item -> io event unit)
  (l : list module_item) :
  Forall (fun x => Forall P (fst (f x))) l -> Forall P (fst (for_each f l)).
Proof.
  induction 1 as [ | x l Hx _ IH]; simpl.
  - constructor.
  - apply io_bind_Forall; auto.
Qed.

Lemma filter_to_download (items : list module_item) :
  Forall (fun it => to_download it = true) (filter to_download items).
Proof. apply Forall_forall. intros it Hin. apply filter_In in Hin. tauto. Qed.

Lemma process_modules_cons dir m modules all_items :
  process_modules dir (m :: modules) all_items
  = (emit (PrintProcessingModule (getattr (module_id m) 0%Z)
             (getattr (module_name m) "Unknown Module"%string)) ;;;
     items <~ call (get_module_items m) ;;
     for_each (process_item m dir (getattr (module_id m) 0%Z))
              (filter to_download items) ;;;
     process_modules dir modules (all_items ++ filter to_download items)).
Proof. reflexivity. Qed.

Lemma process_modules_log dir modules all_items :
  Forall (call_of (fun it => to_download it = true))
         (fst (process_modules dir modules all_items)).
Proof.
  revert all_items. induction modules as [ | m modules IH]; intros all_items.
  - constructor.
  - rewrite process_modules_cons.
    apply io_bind_Forall; [apply emit_Forall; exact I | intros _].
    apply io_bind_Forall; [apply call_Forall | intros items].
    apply io_bind_Forall; [ | intros _; apply IH].
    apply for_each_log. eapply Forall_impl; [ | apply filter_to_download].
    intros it Hit. now apply process_item_log.
Qed.

Lemma process_modules_result dir modules all_items :
  Forall (fun it => to_download it = true) all_items ->
  match snd (process_modules dir modules all_items) with
  | Ok items => Forall (fun it => to_download it = true) items
  | _ => True
  end.
Proof.
  revert all_items. induction modules as [ | m modules IH]; intros all_items Hall.
  - exact Hall.
  - rewrite process_modules_cons, io_bind_snd. cbn [emit snd].
    rewrite io_bind_snd. cbn [call snd].
    destruct (get_module_items m) as [items | e]; [ | exact I].
    rewrite io_bind_snd.
    destruct (snd (for_each _ _)); try exact I.
    apply IH. apply Forall_app. split; [exact Hall | apply filter_to_download].
Qed.

(** Every item [download_course_modules] returns, and every item it hands
    to [download_file] or [download_page], passed the filter. *)
Lemma download_course_modules_filtered dir :
  Forall (call_of (fun it => to_download it = true))
         (fst (download_course_modules dir))
  /\ match snd (download_course_modules dir) with
     | Ok items => Forall (fun it => to_download it = true) items
     | _ => True
     end.
Proof.
  unfold ModuleItems.download_course_modules. split.
  - apply io_bind_Forall; [apply emit_Forall; exact I | intros _].
    apply io_bind_Forall; [apply call_Forall | intros _].
    apply io_bind_Forall; [apply call_Forall | intros modules].
    apply process_modules_log.
  - rewrite !io_bind_snd. cbn [emit call snd].
    destruct (mkdir dir) as [[] | e]; [ | exact I].
    destruct get_modules as [modules | e]; [ | exact I].
    apply process_modules_result. constructor.
Qed.

(** Neither [download_file] nor [download_page] lets an exception out. *)
Lemma download_file_returns item module dir mid pos :
  snd (download_file item module dir mid pos) = Ok tt.
Proof.
  unfold ModuleItems.download_file.
  destruct (item_content_id item) as [[ | cid | cid] | ]; try reflexivity;
    rewrite try_except_snd; io_result;
    destruct (get_file _) as [f | e]; try reflexivity; io_result;
    destruct (module_name module); try reflexivity; io_result;
    destruct (module_position module); try reflexivity; io_result;
    destruct (make_sortable_filename _ _ _ _ _); try reflexivity; io_result;
    destruct (file_download _ _) as [[] | e]; reflexivity.
Qed.

Lemma download_page_returns item module dir mid pos :
  snd (download_page item module dir mid pos) = Ok tt.
Proof.
  unfold ModuleItems.download_page.
  destruct (item_page_url item) as [[ | c u] | ]; try reflexivity;
    rewrite try_except_snd; io_result;
    destruct (get_page _) as [f | e]; try reflexivity; io_result;
    destruct (module_name module); try reflexivity; io_result;
    destruct (module_position module); try reflexivity; io_result;
    destruct (make_sortable_filename _ _ _ _ _); try reflexivity; io_result;
    destruct (write_text _) as [[] | e]; reflexivity.
Qed.

Lemma process_item_returns module dir mid item :
  snd (process_item module dir mid item) = Ok tt.
Proof.
  unfold ModuleItems.process_item.
  rewrite io_bind_snd. cbn [emit snd]. rewrite try_except_snd.
  repeat match goal with
         | |- context [if ?b then _ else _] => destruct b
         end;
    try reflexivity;
    rewrite io_bind_snd; cbn [emit snd];
    first [rewrite download_file_returns | rewrite download_page_returns];
    reflexivity.
Qed.

Lemma process_item_first module dir mid item :
  exists rest,
    fst (process_item module dir mid item)
    = PrintProcessing (getattr (item_title item) "untitled"%string)
                      (getattr (item_type item) ""%string)
                      (getattr (item_position item) 0%Z) :: rest.
Proof.
  unfold ModuleItems.process_item. rewrite io_bind_fst. simpl fst at 1.
  eexists. reflexivity.
Qed.

Lemma for_each_returns (f : module_item -> io event unit) (l : list module_item) :
  (forall x, snd (f x) = Ok tt) -> snd (for_each f l) = Ok tt.
Proof.
  intros Hf. induction l as [ | x l IH]; simpl; [reflexivity | ].
  rewrite io_bind_snd, Hf. exact IH.
Qed.

Lemma for_each_In (f : module_item -> io event unit) (l : list module_item)
  (x : module_item) (e : event) :
  (forall y, snd (f y) = Ok tt) -> In x l -> In e (fst (f x)) ->
  In e (fst (for_each f l)).
Proof.
  intros Hf. induction l as [ | y l IH]; simpl; [tauto | ].
  intros [-> | Hin] He; rewrite io_bind_fst, Hf; apply in_or_app; auto.
Qed.

Lemma process_modules_returns dir modules all_items :
  Forall answered modules ->
  snd (process_modules dir modules all_items)
  = Ok (all_items ++ flat_map (fun m => filter to_download (listed m)) modules).
Proof.
  intros Hall. revert all_items.
  induction Hall as [ | m modules [items Hm] _ IH]; intros all_items.
  - simpl. now rewrite app_nil_r.
  - rewrite process_modules_cons, io_bind_snd. cbn [emit snd].
    rewrite io_bind_snd. cbn [call snd]. rewrite Hm, io_bind_snd.
    rewrite for_each_returns by apply process_item_returns.
    rewrite IH. simpl. unfold listed at 2. rewrite Hm. now rewrite app_assoc.
Qed.

Lemma process_modules_prints dir modules all_items m :
  Forall answered modules -> In m modules ->
  In (PrintProcessingModule (getattr (module_id m) 0%Z)
        (getattr (module_name m) "Unknown Module"%string))
     (fst (process_modules dir modules all_items))
  /\ forall item,
       In item (listed m) -> to_download item = true ->
       In (PrintProcessing (getattr (item_title item) "untitled"%string)
             (getattr (item_type item) ""%string)
             (getattr (item_position item) 0%Z))
          (fst (process_modules dir modules all_items)).
Proof.
  intros Hall. revert all_items.
  induction Hall as [ | m' modules [items Hm] _ IH]; intros all_items Hin.
  - destruct Hin.
  - rewrite process_modules_cons, io_bind_fst. cbn [emit fst snd].
    rewrite io_bind_fst. cbn [call fst snd]. rewrite Hm. cbn [app].
    rewrite io_bind_fst.
    rewrite for_each_returns by apply process_item_returns.
    destruct Hin as [-> | Hin].
    + split; [now left | ]. intros item Hi Hd. right. apply in_or_app. left.
      unfold listed in Hi. rewrite Hm in Hi.
      apply for_each_In with (x := item).
      * apply process_item_returns.
      * apply filter_In. tauto.
      * destruct (process_item_first m dir (getattr (module_id m) 0%Z) item)
          as [rest ->]. now left.
    + destruct (IH (all_items ++ filter to_download items) Hin) as [H1 H2].
      split.
      * right. apply in_or_app. now right.
      * intros item Hi Hd. right. apply in_or_app. right. now apply H2.
Qed.

(** C7: whatever the service answers, an item that [download_course_modules]
    returns has type File, Page or Attachment, and so has an item that it
    passes to [download_file] or [download_page]; an item of another type
    is neither returned nor passed on. *)
Theorem C7_only_downloadable_types (dir : string) (item : module_item) :
  (forall items, snd (download_course_modules dir) = Ok items ->
                 In item items -> downloadable_type item)
  /\ (In (CallDownloadFile item) (fst (download_course_modules dir)) ->
      downloadable_type item)
  /\ (In (CallDownloadPage item) (fst (download_course_modules dir)) ->
      downloadable_type item)
  /\ (~ downloadable_type item ->
      (forall items, snd (download_course_modules dir) = Ok items ->
                     ~ In item items)
      /\ ~ In (CallDownloadFile item) (fst (download_course_modules dir))
      /\ ~ In (CallDownloadPage item) (fst (download_course_modules dir))).
Proof.
  destruct (download_course_modules_filtered dir) as [Hlog Hres].
  assert (Hret : forall items, snd (download_course_modules dir) = Ok items ->
                               In item items -> downloadable_type item).
  { intros items Hok Hin. rewrite Hok in Hres.
    rewrite Forall_forall in Hres. apply Hres in Hin.
    now apply to_download_spec in Hin. }
  assert (Hf : In (CallDownloadFile item) (fst (download_course_modules dir)) ->
               downloadable_type item).
  { intros Hin. rewrite Forall_forall in Hlog. apply Hlog in Hin.
    now apply to_download_spec in Hin. }
  assert (Hp : In (CallDownloadPage item) (fst (download_course_modules dir)) ->
               downloadable_type item).
  { intros Hin. rewrite Forall_forall in Hlog. apply Hlog in Hin.
    now apply to_download_spec in Hin. }
  repeat split; auto.
  - intros items Hok Hin. eauto.
Qed.

(** C10: an item that [download_course_modules] returns, or hands to
    [download_file] or [download_page], has [published] equal to [True];
    an item that is not published is left out whatever its type. *)
Theorem C10_only_published (dir : string) (item : module_item) :
  (forall items, snd (download_course_modules dir) = Ok items ->
                 In item items -> item_published item = Some true)
  /\ (In (CallDownloadFile item) (fst (download_course_modules dir))
      \/ In (CallDownloadPage item) (fst (download_course_modules dir)) ->
      item_published item = Some true).
Proof.
  destruct (download_course_modules_filtered dir) as [Hlog Hres]. split.
  - intros items Hok Hin. rewrite Hok in Hres.
    rewrite Forall_forall in Hres. apply Hres in Hin.
    now apply to_download_spec in Hin.
  - rewrite Forall_forall in Hlog.
    intros [Hin | Hin]; apply Hlog in Hin; now apply to_download_spec in Hin.
Qed.

(** [download_file] on an item without [content_id], and
    [download_page] on an item without [page_url], print one message and
    return: no exception, no file written.  When the service answers the
    listings, [download_course_modules] returns without an exception
    whichever attributes are absent, and works with the defaults: id 0 and
    name 'Unknown Module' for a module; title 'untitled', position 0, type
    '' and published False for an item. *)
Theorem getattr_sites_use_defaults :
  (forall ty ti po pu url module dir mid pos,
     let out := download_file (ModuleItem ty ti po pu None url) module dir mid pos in
     out = ([PrintNoContentId (getattr ti "untitled"%string)], Ok tt)
     /\ existsb writes_file (fst out) = false)
  /\ (forall ty ti po pu cid module dir mid pos,
        let out := download_page (ModuleItem ty ti po pu cid None) module dir mid pos in
        out = ([PrintNoPageUrl (getattr ti "untitled"%string)], Ok tt)
        /\ existsb writes_file (fst out) = false)
  /\ (forall dir modules,
        mkdir dir = Answer tt -> get_modules = Answer modules ->
        Forall answered modules ->
        snd (download_course_modules dir)
        = Ok (flat_map (fun m => filter to_download (listed m)) modules)
        /\ forall m,
             In m modules ->
             In (PrintProcessingModule (getattr (module_id m) 0%Z)
                   (getattr (module_name m) "Unknown Module"%string))
                (fst (download_course_modules dir))
             /\ forall item,
                  In item (listed m) ->
                  (to_download item = true ->
                   In (PrintProcessing
                         (getattr (item_title item) "untitled"%string)
                         (getattr (item_type item) ""%string)
                         (getattr (item_position item) 0%Z))
                      (fst (download_course_modules dir)))
                  /\ (item_type item = None \/ item_published item = None ->
                      to_download item = false)).
Proof.
  split; [ | split].
  - intros. split; reflexivity.
  - intros. split; reflexivity.
  - intros dir modules Hmk Hget Hall.
    unfold ModuleItems.download_course_modules. split.
    + rewrite io_bind_snd. cbn [emit snd]. rewrite io_bind_snd, Hmk.
      cbn [call snd]. rewrite io_bind_snd, Hget. cbn [call snd].
      now rewrite process_modules_returns.
    + intros m Hin.
      rewrite io_bind_fst. cbn [emit fst snd].
      rewrite io_bind_fst, Hmk. cbn [call fst snd].
      rewrite io_bind_fst, Hget. cbn [call fst snd app].
      destruct (process_modules_prints dir modules [] m Hall Hin) as [H1 H2].
      split; [now right | ].
      intros item Hi. split.
      * intros Hd. right. now apply H2.
      * unfold to_download.
        intros [-> | ->]; simpl; [reflexivity | apply andb_false_r].
Qed.

(** C8 (where the code breaks it): [download_file] and [download_page] read
    [module.name] and [module.position] without a default.  For a module
    without a name, which the walker itself takes as 'Unknown Module', or
    without a position, a file or a page that the service knows is not
    downloaded: the read raises [AttributeError], the handler of the
    function prints it, and nothing is written. *)
Theorem C8_absent_module_attribute_loses_download item module dir mid pos a :
  missing_module_attribute module = Some a ->
  let title := getattr (item_title item) "untitled"%string in
  (forall cid f,
     item_content_id item = Some cid -> cid <> 0%Z -> get_file cid = Answer f ->
     download_file item module dir mid pos
     = ([PrintFileInfo (getattr (content_type f) "unknown"%string)
                       (getattr (filename f) title);
         PrintErrorDownloadingFile title (AttributeError a)], Ok tt))
  /\ (forall url p,
        item_page_url item = Some url -> url <> ""%string ->
        get_page url = Answer p ->
        download_page item module dir mid pos
        = ([PrintErrorDownloadingPage title (AttributeError a)], Ok tt))
  /\ (module_name module = None ->
      a = "name"%string
      /\ getattr (module_name module) "Unknown Module"%string
         = "Unknown Module"%string).
Proof.
  intros Hm. cbv zeta. unfold missing_module_attribute in Hm.
  split; [ | split].
  - intros cid f Hc Hnz Hf. unfold ModuleItems.download_file. rewrite Hc.
    destruct cid as [ | c | c]; [now elim Hnz | | ]; rewrite Hf;
      destruct (module_name module) as [name | ];
      try (injection Hm as <-; reflexivity);
      destruct (module_position module) as [mpos | ];
      try discriminate Hm; injection Hm as <-; reflexivity.
  - intros url p Hu Hne Hp. unfold ModuleItems.download_page. rewrite Hu.
    destruct url as [ | c u]; [now elim Hne | ]. rewrite Hp.
    destruct (module_name module) as [name | ];
      try (injection Hm as <-; reflexivity);
      destruct (module_position module) as [mpos | ];
      try discriminate Hm; injection Hm as <-; reflexivity.
  - intros Hn. rewrite Hn in *. injection Hm as <-. split; reflexivity.
Qed.

End World.

(** *** The walker on the small course *)

Open Scope string_scope.

Example sample_run_returns : snd sample_run = Ok [sample_file; sample_bare_page].
Proof. reflexivity. Qed.

Example sample_run_log :
  fst sample_run
  = [Mkdir "downloads";
     PrintProcessingModule 0 "Unknown Module";
     PrintProcessing "notes" "File" 1;
     CallDownloadFile sample_file;
     PrintFileInfo "application/pdf" "notes.pdf";
     PrintErrorDownloadingFile "notes" (AttributeError "name");
     PrintProcessing "untitled" "Page" 0;
     CallDownloadPage sample_bare_page;
     PrintNoPageUrl "untitled"].
Proof. reflexivity. Qed.

Lemma C7_only_downloadable_types_witness : downloadable_type sample_bare_page.
Proof.
  apply (proj1 (C7_only_downloadable_types sample_get_file sample_get_page
                  sample_file_download sample_write_text sample_mkdir
                  sample_modules sample_sortable sample_suffix sample_join
                  "downloads" sample_bare_page)
               [sample_file; sample_bare_page]).
  - reflexivity.
  - simpl. auto.
Defined.

Lemma C10_only_published_witness : item_published sample_file = Some true.
Proof.
  apply (proj1 (C10_only_published sample_get_file sample_get_page
                  sample_file_download sample_write_text sample_mkdir
                  sample_modules sample_sortable sample_suffix sample_join
                  "downloads" sample_file)
               [sample_file; sample_bare_page]).
  - reflexivity.
  - simpl. auto.
Defined.

Lemma getattr_sites_use_defaults_witness :
  snd sample_run = Ok [sample_file; sample_bare_page]
  /\ In (PrintProcessingModule 0 "Unknown Module") (fst sample_run)
  /\ In (PrintProcessing "untitled" "Page" 0) (fst sample_run)
  /\ to_download sample_empty_item = false.
Proof.
  destruct (getattr_sites_use_defaults sample_get_file sample_get_page
              sample_file_download sample_write_text sample_mkdir
              sample_modules sample_sortable sample_suffix sample_join)
    as [_ [_ H]].
  assert (Hanswered : Forall answered [sample_module]).
  { repeat constructor. exists (listed sample_module). reflexivity. }
  destruct (H "downloads" [sample_module] eq_refl eq_refl Hanswered)
    as [Hret Hlog].
  destruct (Hlog sample_module) as [Hm Hitems]; [simpl; auto | ].
  split; [exact Hret | ]. split; [exact Hm | ]. split.
  - apply (Hitems sample_bare_page); [simpl; auto 10 | reflexivity].
  - apply (Hitems sample_empty_item); [simpl; auto 10 | simpl; auto].
Defined.

Lemma C8_absent_module_attribute_loses_download_witness :
  download_file sample_get_file sample_file_download sample_sortable
    sample_suffix sample_join sample_file sample_module "downloads" 0 1
  = ([PrintFileInfo "application/pdf" "notes.pdf";
      PrintErrorDownloadingFile "notes" (AttributeError "name")], Ok tt).
Proof.
  apply (proj1 (C8_absent_module_attribute_loses_download sample_get_file
                  sample_get_page sample_file_download sample_write_text
                  sample_sortable sample_suffix sample_join sample_file
                  sample_module "downloads" 0%Z 1%Z "name" eq_refl)
               7%Z (FileObj 7 (Some "notes.pdf") (Some "application/pdf"))
               eq_refl ltac:(discriminate) eq_refl).
Defined.

Close Scope string_scope.

End ModuleItemsFacts.

(** ** The upload loop and the start-up checks *)

Module QuizCreatorFacts.
Import Py PyFacts PyStr Text2Qti QuizCreator QuizCreatorSpec.

Section World.

Variable response : Type.
Variable response_id : response -> option Z.
Variable response_title : response -> option str.
Variable read_file : string -> reply str.
Variable create_quiz :
  string -> string -> Z -> str -> str -> Q -> str -> reply response.
Variable _create_multiple_choice_question :
  string -> string -> Z -> Z -> question -> nat -> reply response.
Variable _create_multiple_answer_question :
  string -> string -> Z -> Z -> question -> nat -> reply response.
Variable _create_true_false_question :
  string -> string -> Z -> Z -> question -> nat -> reply response.
Variable _create_essay_question :
  string -> string -> Z -> Z -> question -> nat -> reply response.
Variable getenv : string -> option string.
Variable int_of_string : string -> option Z.
Variable path_exists : string -> bool.

Local Abbreviation create_question_from_parsed :=
  (create_question_from_parsed response _create_multiple_choice_question
     _create_multiple_answer_question _create_true_false_question
     _create_essay_question).
Local Abbreviation add_questions :=
  (add_questions response _create_multiple_choice_question
     _create_multiple_answer_question _create_true_false_question
     _create_essay_question).
Local Abbreviation create_quiz_from_text2qti_file :=
  (create_quiz_from_text2qti_file response response_id read_file create_quiz
     _create_multiple_choice_question _create_multiple_answer_question
     _create_true_false_question _create_essay_question).
Local Abbreviation main :=
  (main response response_id response_title read_file create_quiz
     _create_multiple_choice_question _create_multiple_answer_question
     _create_true_false_question _create_essay_question getenv int_of_string
     path_exists).

Variables canvas_url api_token : string.
Variables course_id assignment_id : Z.

Local Abbreviation outcome :=
  (outcome response _create_multiple_choice_question
     _create_multiple_answer_question _create_true_false_question
     _create_essay_question canvas_url api_token course_id assignment_id).
Local Abbreviation created_from :=
  (created_from response _create_multiple_choice_question
     _create_multiple_answer_question _create_true_false_question
     _create_essay_question canvas_url api_token course_id assignment_id).
Local Abbreviation succeeds :=
  (succeeds response _create_multiple_choice_question
     _create_multiple_answer_question _create_true_false_question
     _create_essay_question canvas_url api_token course_id assignment_id).
Local Abbreviation count_created :=
  (count_created response _create_multiple_choice_question
     _create_multiple_answer_question _create_true_false_question
     _create_essay_question canvas_url api_token course_id assignment_id).

Lemma created_from_length i qs :
  length (created_from i qs) = count_created i qs.
Proof.
  revert i. induction qs as [ | q qs IH]; intros i; simpl; [reflexivity | ].
  unfold succeeds. destruct (outcome i q); simpl; now rewrite IH.
Qed.

Lemma outcome_not_out_of_fuel i q : outcome i q <> OutOfFuel.
Proof.
  unfold outcome, QuizCreator.create_question_from_parsed.
  destruct (q_type q); rewrite ?io_bind_snd; cbn [emit call snd];
    match goal with
    | |- context [match ?r with Answer _ => _ | Failure _ => _ end] =>
        destruct r
    end; discriminate.
Qed.

Lemma add_questions_cons q qs i created :
  add_questions canvas_url api_token course_id assignment_id (q :: qs) i created
  = (created' <~
       try_except
         (question <~ create_question_from_parsed canvas_url api_token
                        course_id assignment_id q i ;;
          emit (MsgQuestionCreated i (q_type q)) ;;;
          ret (created ++ [question]))
         (fun e => emit (MsgErrorCreatingQuestion i e) ;;; ret created) ;;
     add_questions canvas_url api_token course_id assignment_id qs (S i)
                   created').
Proof. reflexivity. Qed.

(** One turn of the loop: its result and what it prints last. *)
Lemma turn_result q i (created : list response) :
  let turn :=
    try_except
      (question <~ create_question_from_parsed canvas_url api_token
                     course_id assignment_id q i ;;
       emit (MsgQuestionCreated i (q_type q)) ;;;
       ret (created ++ [question]))
      (fun e => emit (MsgErrorCreatingQuestion i e) ;;; ret created) in
  match outcome i q with
  | Ok r => snd turn = Ok (created ++ [r])
            /\ In (MsgQuestionCreated i (q_type q)) (fst turn)
  | Raise e => snd turn = Ok created
               /\ In (MsgErrorCreatingQuestion i e) (fst turn)
  | OutOfFuel => False
  end.
Proof.
  intros turn. subst turn. pose proof (outcome_not_out_of_fuel i q) as Hne.
  rewrite try_except_snd, try_except_fst, io_bind_snd, io_bind_fst.
  unfold outcome in *.
  destruct (snd (create_question_from_parsed _ _ _ _ _ _)) as [r | e | ].
  - split; [reflexivity | ]. rewrite !in_app_iff. simpl. auto.
  - split; [reflexivity | ]. rewrite !in_app_iff. simpl. auto.
  - congruence.
Qed.

Lemma add_questions_result qs i created :
  snd (add_questions canvas_url api_token course_id assignment_id qs i created)
  = Ok (created ++ created_from i qs).
Proof.
  revert i created. induction qs as [ | q qs IH]; intros i created.
  - simpl. now rewrite app_nil_r.
  - rewrite add_questions_cons, io_bind_snd.
    pose proof (turn_result q i created) as Ht. cbv zeta in Ht.
    cbn [created_from].
    destruct (outcome i q) as [r | e | ]; [ | | destruct Ht];
      destruct Ht as [-> _]; rewrite IH; [ | reflexivity].
    now rewrite <- app_assoc.
Qed.

Lemma add_questions_prints qs i created k q :
  nth_error qs k = Some q ->
  match outcome (i + k) q with
  | Ok r =>
      In (MsgQuestionCreated (i + k) (q_type q))
         (fst (add_questions canvas_url api_token course_id assignment_id
                 qs i created))
  | Raise e =>
      In (MsgErrorCreatingQuestion (i + k) e)
         (fst (add_questions canvas_url api_token course_id assignment_id
                 qs i created))
  | OutOfFuel => False
  end.
Proof.
  revert i created k. induction qs as [ | q0 qs IH]; intros i created k Hk.
  - destruct k; discriminate.
  - rewrite add_questions_cons, io_bind_fst.
    pose proof (turn_result q0 i created) as Ht. cbv zeta in Ht.
    destruct k as [ | k]; simpl in Hk.
    + injection Hk as ->. rewrite Nat.add_0_r.
      destruct (outcome i q) as [r | e | ]; [ | | exact Ht];
        apply in_or_app; left; apply Ht.
    + specialize (IH (S i)). replace (i + S k) with (S i + k) by lia.
      assert (Hs : exists c, snd (try_except
         (question <~ create_question_from_parsed canvas_url api_token
                        course_id assignment_id q0 i ;;
          emit (MsgQuestionCreated i (q_type q0)) ;;;
          ret (created ++ [question]))
         (fun e => emit (MsgErrorCreatingQuestion i e) ;;; ret created)) = Ok c).
      { destruct (outcome i q0); [ | | destruct Ht]; destruct Ht as [-> _]; eauto. }
      destruct Hs as [c ->]. specialize (IH c k Hk).
      destruct (outcome (S i + k) q); auto; apply in_or_app; right; exact IH.
Qed.

Lemma created_from_In qs i k q r :
  nth_error qs k = Some q -> outcome (i + k) q = Ok r ->
  In r (created_from i qs).
Proof.
  revert i k. induction qs as [ | q0 qs IH]; intros i k Hk Hr.
  - destruct k; discriminate.
  - destruct k as [ | k]; simpl in Hk.
    + injection Hk as ->. rewrite Nat.add_0_r in Hr. simpl. rewrite Hr.
      now left.
    + replace (i + S k) with (S i + k) in Hr by lia.
      specialize (IH (S i) k Hk Hr). simpl.
      destruct (outcome i q0); auto. now right.
Qed.

(** C3: once the file is read and parsed and the quiz is created, the
    function returns normally whatever happens to the single questions.  A
    question whose creation raises has its error printed and the loop goes
    on; a question whose creation succeeds is in ['questions'], in order;
    ['total_questions'] counts the successes, not the parsed questions. *)
Theorem C3_question_failure_is_caught (file_path : string) (content : str)
  (quiz_data : quiz_data) (p : parser) (new_quiz : response) :
  read_file file_path = Answer content ->
  parse_content new_parser content = Ok (quiz_data, p) ->
  create_quiz canvas_url api_token course_id (title quiz_data)
    (description quiz_data) (sum_points (qd_questions quiz_data))
    (qd_multiple_attempts quiz_data) = Answer new_quiz ->
  response_id new_quiz = Some assignment_id ->
  let out := create_quiz_from_text2qti_file file_path course_id canvas_url
               api_token in
  let qs := qd_questions quiz_data in
  exists r,
    snd out = Ok r
    /\ quiz r = new_quiz
    /\ cr_questions r = created_from 1 qs
    /\ total_questions r = count_created 1 qs
    /\ total_questions r <= length qs
    /\ forall k q,
         nth_error qs k = Some q ->
         match outcome (S k) q with
         | Ok a => In a (cr_questions r)
                   /\ In (MsgQuestionCreated (S k) (q_type q)) (fst out)
         | Raise e => In (MsgErrorCreatingQuestion (S k) e) (fst out)
         | OutOfFuel => False
         end.
Proof.
  intros Hread Hparse Hquiz Hid out qs.
  exists (Creation new_quiz (created_from 1 qs) (length (created_from 1 qs))
            (sum_points qs)).
  assert (Hout : out
    = (MsgQuizCreated (title quiz_data) assignment_id
         :: fst (add_questions canvas_url api_token course_id assignment_id
                   qs 1 []),
       Ok (Creation new_quiz (created_from 1 qs)
             (length (created_from 1 qs)) (sum_points qs)))).
  { subst out. unfold QuizCreator.create_quiz_from_text2qti_file.
    pose proof (add_questions_result qs 1 []) as Hres. cbn [app] in Hres.
    rewrite Hread. unfold call at 1. cbn [io_bind]. rewrite Hparse.
    unfold lift. cbn [io_bind fst]. rewrite Hquiz. unfold call, get_id.
    cbn [io_bind]. rewrite Hid. unfold ret, emit. cbn [io_bind app].
    fold qs.
    destruct (add_questions canvas_url api_token course_id assignment_id qs 1 [])
      as [log res]. cbn [snd] in Hres. subst res.
    cbn [io_bind fst app]. now rewrite app_nil_r. }
  rewrite Hout. cbn [fst snd quiz cr_questions total_questions].
  repeat split.
  - apply created_from_length.
  - rewrite created_from_length. clear. generalize 1.
    induction qs as [ | q l IH]; intros i; simpl; [lia | ].
    specialize (IH (S i)). destruct (succeeds i q); lia.
  - intros k q Hk.
    pose proof (add_questions_prints qs 1 [] k q Hk) as Hp.
    change (1 + k) with (S k) in Hp.
    destruct (outcome (S k) q) as [a | e | ] eqn:Ho; [ | | exact Hp].
    + split; [ | now right].
      apply created_from_In with (k := k) (q := q); auto.
    + now right.
Qed.

(** C4 (as the code has it): when CANVAS_URL, CANVAS_API_TOKEN or
    CANVAS_COURSE_ID is missing or empty, [main] of the quiz script raises
    [ValueError] with the message that names the first such variable;
    nothing has been printed, and the exception is not caught in [main]. *)
Theorem C4_missing_variable_raises (filename : string) :
  (env_set getenv "CANVAS_URL" = false ->
   main filename
   = ([], Raise (ValueError "CANVAS_URL not found in environment variables. Please check your .env file.")))
  /\ (env_set getenv "CANVAS_URL" = true ->
      env_set getenv "CANVAS_API_TOKEN" = false ->
      main filename
      = ([], Raise (ValueError "CANVAS_API_TOKEN not found in environment variables. Please check your .env file.")))
  /\ (env_set getenv "CANVAS_URL" = true ->
      env_set getenv "CANVAS_API_TOKEN" = true ->
      env_set getenv "CANVAS_COURSE_ID" = false ->
      main filename
      = ([], Raise (ValueError "CANVAS_COURSE_ID not found in environment variables. Please check your .env file.")))
  /\ (env_set getenv "CANVAS_URL" = false
      \/ env_set getenv "CANVAS_API_TOKEN" = false
      \/ env_set getenv "CANVAS_COURSE_ID" = false ->
      exists msg, main filename = ([], Raise (ValueError msg))).
Proof.
  unfold QuizCreator.main. repeat split.
  - intros ->. reflexivity.
  - intros -> ->. reflexivity.
  - intros -> -> ->. reflexivity.
  - intros H.
    destruct (env_set getenv "CANVAS_URL"); cbn [negb];
      [ | eexists; reflexivity].
    destruct (env_set getenv "CANVAS_API_TOKEN"); cbn [negb];
      [ | eexists; reflexivity].
    destruct (env_set getenv "CANVAS_COURSE_ID"); cbn [negb];
      [ | eexists; reflexivity].
    destruct H as [H | [H | H]]; discriminate.
Qed.

End World.

(** *** The upload of the small quiz *)

Open Scope string_scope.

Example sample_quiz_types :
  map q_type (qd_questions sample_quiz_data)
  = [multiple_choice; essay; multiple_answer].
Proof. reflexivity. Qed.

Lemma C3_question_failure_is_caught_witness :
  exists r,
    snd sample_upload = Ok r
    /\ length (qd_questions sample_quiz_data) = 3
    /\ total_questions r = 2
    /\ cr_questions r = [(1%Z, lit "What is 2+3?"); (3%Z, lit "Which are prime?")]
    /\ In (MsgErrorCreatingQuestion 2 (Exn "HTTPError" "500 Server Error"))
          (fst sample_upload).
Proof.
  destruct (C3_question_failure_is_caught sample_response sample_id
              sample_read_file sample_create_quiz sample_accept sample_accept
              sample_accept sample_refuse "https://canvas.example.edu" "secret"
              12345%Z 42%Z "quiz.txt" sample_content sample_quiz_data
              sample_parser (42%Z, title sample_quiz_data)
              eq_refl eq_refl eq_refl eq_refl)
    as [r [Hok [_ [Hqs [Htotal [_ Hall]]]]]].
  exists r. split; [exact Hok | ]. split; [reflexivity | ].
  split; [rewrite Htotal; reflexivity | ].
  split; [rewrite Hqs; reflexivity | ].
  exact (Hall 1 (nth 1 (qd_questions sample_quiz_data) (new_question []))
              eq_refl).
Defined.

Lemma C4_counterexample :
  env_without_url "CANVAS_URL" = None
  /\ sample_main env_without_url
     = ([], Raise (ValueError "CANVAS_URL not found in environment variables. Please check your .env file."))
  /\ ~ (snd (sample_main env_without_url) = Ok tt
        /\ fst (sample_main env_without_url) <> []).
Proof.
  split; [reflexivity | ]. split; [reflexivity | ].
  intros [H _]. discriminate H.
Qed.

Lemma C4_missing_variable_raises_witness :
  sample_main env_without_course
  = ([], Raise (ValueError "CANVAS_COURSE_ID not found in environment variables. Please check your .env file.")).
Proof.
  apply (C4_missing_variable_raises sample_response sample_id sample_title
           sample_read_file sample_create_quiz sample_accept sample_accept
           sample_accept sample_refuse env_without_course sample_int
           sample_exists "quiz.txt"); reflexivity.
Defined.

Close Scope string_scope.

End QuizCreatorFacts.

(** ** Characters and [strip] *)

Module PyStrFacts.
Import PyStr Text2QtiSpec.

(** A fact about every character, checked on each of the 256. *)
Ltac each_char c :=
  destruct c as [[ | ] [ | ] [ | ] [ | ] [ | ] [ | ] [ | ] [ | ]];
  vm_compute; try reflexivity; try discriminate; auto.

Lemma space_not_dot (c : ascii) : is_space c = false -> not_newline c = true.
Proof. each_char c. Qed.

Lemma digit_not_space (c : ascii) : is_digit c = true -> is_space c = false.
Proof. each_char c. Qed.


Lemma lower_char_colon (c : ascii) : lower_char c = ":"%char -> c = ":"%char.
Proof. each_char c. Qed.

Lemma is_char_eq (x c : ascii) : is_char x c = true <-> c = x.
Proof. unfold is_char. apply Ascii.eqb_eq. Qed.

Lemma str_eqb_eq (a b : str) : str_eqb a b = true <-> a = b.
Proof.
  unfold str_eqb. destruct (list_eq_dec ascii_dec a b); split; auto; discriminate.
Qed.

Lemma str_eqb_refl (a : str) : str_eqb a a = true.
Proof. now apply str_eqb_eq. Qed.

(** [dropwhile] and [takewhile] cut a string in two. *)
Lemma take_drop (p : ascii -> bool) (s : str) :
  takewhile p s ++ dropwhile p s = s.
Proof.
  induction s as [ | c s IH]; simpl; [reflexivity | ].
  destruct (p c); simpl; [now rewrite IH | reflexivity].
Qed.

Lemma takewhile_all (p : ascii -> bool) (s : str) :
  forallb p (takewhile p s) = true.
Proof.
  induction s as [ | c s IH]; simpl; [reflexivity | ].
  destruct (p c) eqn:E; simpl; [now rewrite E | reflexivity].
Qed.

Lemma dropwhile_head (p : ascii -> bool) (s : str) (c : ascii) (t : str) :
  dropwhile p s = c :: t -> p c = false.
Proof.
  induction s as [ | d s IH]; simpl; [discriminate | ].
  destruct (p d) eqn:E; [exact IH | ]. intros H. injection H as -> _. exact E.
Qed.

Lemma dropwhile_app_all (p : ascii -> bool) (l r : str) :
  forallb p l = true -> dropwhile p (l ++ r) = dropwhile p r.
Proof.
  induction l as [ | c l IH]; simpl; [reflexivity | ].
  intros H. apply andb_true_iff in H as [-> H]. auto.
Qed.

Lemma dropwhile_stop (p : ascii -> bool) (c : ascii) (s : str) :
  p c = false -> dropwhile p (c :: s) = c :: s.
Proof. intros H. simpl. now rewrite H. Qed.

Lemma rstrip_prefix (s : str) : exists ws, s = rstrip s ++ ws.
Proof.
  unfold rstrip. exists (rev (takewhile is_space (rev s))).
  rewrite <- rev_app_distr, take_drop. now rewrite rev_involutive.
Qed.

Lemma rstrip_last (s : str) (c : ascii) (t : str) :
  rstrip s = t ++ [c] -> is_space c = false.
Proof.
  unfold rstrip. intros H. apply (f_equal (@rev ascii)) in H.
  rewrite rev_involutive, rev_app_distr in H. simpl in H.
  now apply dropwhile_head in H.
Qed.

Lemma strip_trimmed (s : str) : trimmed (strip s).
Proof.
  unfold strip. split.
  - intros c t H. destruct (rstrip_prefix (lstrip s)) as [ws Hws].
    rewrite H in Hws. simpl in Hws. unfold lstrip in Hws.
    now apply dropwhile_head in Hws.
  - intros c t H. now apply rstrip_last in H.
Qed.

(** White space around a trimmed text is what [strip] removes. *)
Lemma strip_core (lead core trail : str) :
  forallb is_space lead = true -> forallb is_space trail = true ->
  core <> [] -> trimmed core -> strip (lead ++ core ++ trail) = core.
Proof.
  intros Hl Ht Hne [Hfirst Hlast]. unfold strip, lstrip, rstrip.
  rewrite dropwhile_app_all by exact Hl.
  destruct core as [ | c core]; [congruence | ].
  simpl app at 1. rewrite dropwhile_stop by (eapply Hfirst; reflexivity).
  change (c :: core ++ trail) with ((c :: core) ++ trail).
  rewrite rev_app_distr, dropwhile_app_all.
  - destruct (rev (c :: core)) as [ | d r] eqn:E.
    + apply (f_equal (@rev ascii)) in E. rewrite rev_involutive in E.
      discriminate E.
    + rewrite dropwhile_stop; [now rewrite <- E, rev_involutive | ].
      apply (Hlast d (rev r)).
      apply (f_equal (@rev ascii)) in E. rewrite rev_involutive in E.
      exact E.
  - rewrite forallb_forall in *. intros x Hx. apply Ht. now apply in_rev.
Qed.


End PyStrFacts.

(** ** The matcher *)

Module ReFacts.
Import PyStr Re Text2QtiSpec PyStrFacts.

Lemma re_match_cons (a : atom) (r : regex) (s : str) :
  re_match (a :: r) s
  = rep_match (cls a) (rep a)
      (fun taken rest => push (grp a) taken (re_match r rest)) 0 [] s.
Proof. reflexivity. Qed.

Section Repetition.

Variables (c : ascii -> bool) (q : quant).
Variable k : str -> str -> option (list str).

(** A repetition without an upper bound that takes all of [p], up to
    where the class ends, succeeds when what follows does. *)
Lemma rep_greedy (p rest : str) (n : nat) (acc : str) (r : list str) :
  (forall m, below m q = true) ->
  forallb c p = true ->
  match rest with [] => True | ch :: _ => c ch = false end ->
  lo q <= n + length p ->
  k (rev acc ++ p) rest = Some r ->
  rep_match c q k n acc (p ++ rest) = Some r.
Proof.
  intros Hb. revert n acc. induction p as [ | x p IH]; intros n acc Hp Hr Hlo Hk.
  - rewrite app_nil_r in Hk. simpl in Hlo. rewrite Nat.add_0_r in Hlo.
    apply Nat.leb_le in Hlo. destruct rest as [ | ch t]; simpl.
    + now rewrite Hlo.
    + now rewrite Hr, Hlo.
  - simpl in Hp. apply andb_true_iff in Hp as [Hx Hp].
    simpl. rewrite Hx, Hb. simpl.
    rewrite (IH (S n) (x :: acc)); auto.
    + simpl in Hlo. lia.
    + simpl. now rewrite <- app_assoc.
Qed.

(** A match of a repetition cuts the string after some characters of the
    class, at least as many as the repetition asks for. *)
Lemma rep_inv (s : str) (n : nat) (acc : str) (r : list str) :
  rep_match c q k n acc s = Some r ->
  exists p rest,
    s = p ++ rest /\ forallb c p = true /\ lo q <= n + length p
    /\ k (rev acc ++ p) rest = Some r.
Proof.
  revert n acc. induction s as [ | ch s IH]; intros n acc H; simpl in H.
  - destruct (lo q <=? n) eqn:E; [ | discriminate].
    exists [], []. simpl. rewrite app_nil_r. apply Nat.leb_le in E.
    repeat split; auto; lia.
  - assert (Hstop : (if lo q <=? n then k (rev acc) (ch :: s) else None) = Some r ->
                    exists p rest,
                      ch :: s = p ++ rest /\ forallb c p = true
                      /\ lo q <= n + length p
                      /\ k (rev acc ++ p) rest = Some r).
    { intros Hs. destruct (lo q <=? n) eqn:E; [ | discriminate].
      exists [], (ch :: s). simpl. rewrite app_nil_r. apply Nat.leb_le in E.
      repeat split; auto; lia. }
    destruct (c ch && below n q) eqn:Ec; [ | auto].
    destruct (rep_match c q k (S n) (ch :: acc) s) as [r' | ] eqn:Er; [ | auto].
    injection H as ->. apply IH in Er as (p & rest & -> & Hp & Hlo & Hk).
    apply andb_true_iff in Ec as [Hc _].
    exists (ch :: p), rest. simpl. rewrite Hc, Hp. simpl in Hk.
    rewrite <- app_assoc in Hk. simpl in Hk. repeat split; auto; lia.
Qed.

End Repetition.

Lemma below_plus (m : nat) : below m Plus = true.
Proof. reflexivity. Qed.

Lemma below_at_least (n m : nat) : below m (AtLeast n) = true.
Proof. reflexivity. Qed.

(** The four kinds of item, one step of [re_match] each. *)
Lemma re_once (c : ascii -> bool) (g : bool) (r : regex) (ch : ascii) (s : str) :
  re_match (Atom c Once g :: r) (ch :: s)
  = if c ch then push g [ch] (re_match r s) else None.
Proof.
  rewrite re_match_cons. simpl. destruct (c ch); simpl; [ | reflexivity].
  destruct s as [ | d s]; simpl; rewrite ?andb_false_r;
    destruct (re_match r _); reflexivity.
Qed.

Lemma re_once_nil (c : ascii -> bool) (g : bool) (r : regex) :
  re_match (Atom c Once g :: r) [] = None.
Proof. reflexivity. Qed.

Lemma re_opt_skip (c : ascii -> bool) (g : bool) (r : regex) (ch : ascii) (s : str) :
  c ch = false ->
  re_match (Atom c Opt g :: r) (ch :: s) = push g [] (re_match r (ch :: s)).
Proof. intros H. rewrite re_match_cons. simpl. now rewrite H. Qed.


Lemma re_plus (c : ascii -> bool) (g : bool) (r : regex) (p rest : str)
  (gs : list str) :
  p <> [] -> forallb c p = true ->
  match rest with [] => True | ch :: _ => c ch = false end ->
  re_match r rest = Some gs ->
  re_match (Atom c Plus g :: r) (p ++ rest) = Some (if g then p :: gs else gs).
Proof.
  intros Hne Hp Hrest Hr. rewrite re_match_cons.
  apply rep_greedy; auto.
  - destruct p; [congruence | simpl; lia].
  - simpl. now rewrite Hr.
Qed.

Lemma re_at_least (c : ascii -> bool) (n : nat) (g : bool) (r : regex)
  (p rest : str) (gs : list str) :
  n <= length p -> forallb c p = true ->
  match rest with [] => True | ch :: _ => c ch = false end ->
  re_match r rest = Some gs ->
  re_match (Atom c (AtLeast n) g :: r) (p ++ rest)
  = Some (if g then p :: gs else gs).
Proof.
  intros Hn Hp Hrest Hr. rewrite re_match_cons.
  apply rep_greedy; auto. simpl. now rewrite Hr.
Qed.

Lemma re_inv (a : atom) (r : regex) (s : str) (m : list str) :
  re_match (a :: r) s = Some m ->
  exists p rest gs,
    s = p ++ rest /\ forallb (cls a) p = true /\ lo (rep a) <= length p
    /\ re_match r rest = Some gs.
Proof.
  rewrite re_match_cons. intros H.
  apply rep_inv in H as (p & rest & -> & Hp & Hlo & Hk).
  simpl in Hk. destruct (re_match r rest) as [gs | ] eqn:E; [ | discriminate].
  exists p, rest, gs. auto.
Qed.

End ReFacts.

(** ** The parser *)

Module Text2QtiFacts.
Import Py PyStr Re Text2Qti Text2QtiSpec PyStrFacts ReFacts.

(** *** The shapes of the marker lines *)

Lemma az_not_space (c : ascii) : is_az c = true -> is_space c = false.
Proof. each_char c. Qed.

Lemma trimmed_cons (c : ascii) (pre text : str) :
  is_space c = false -> text <> [] -> trimmed text ->
  trimmed (c :: pre ++ text).
Proof.
  intros Hc Hne [_ Hlast]. split.
  - intros d t H. injection H as <- _. exact Hc.
  - intros d t H. destruct (exists_last Hne) as (t' & y & ->).
    change (c :: pre ++ t' ++ [y]) with ((c :: pre) ++ t' ++ [y]) in H.
    rewrite app_assoc in H. apply app_inj_tail in H as [_ <-].
    eapply Hlast. reflexivity.
Qed.

Lemma plain_text_head (t : str) :
  plain_text t -> match t with [] => True | ch :: _ => is_space ch = false end.
Proof.
  intros (_ & [Hfirst _] & _). destruct t; [exact I | ].
  eapply Hfirst. reflexivity.
Qed.

Lemma dot_plus_all (t : str) :
  plain_text t -> re_match [Atom not_newline Plus true] t = Some [t].
Proof.
  intros (Hne & _ & Hdots). rewrite <- (app_nil_r t) at 1.
  now apply (re_plus not_newline true [] t [] []).
Qed.

Lemma gap_then_text (ws t : str) :
  gap ws -> plain_text t ->
  re_match [Atom is_space Plus false; Atom not_newline Plus true] (ws ++ t)
  = Some [t].
Proof.
  intros [Hne Hws] Ht.
  apply (re_plus is_space false [Atom not_newline Plus true] ws t [t]); auto.
  - now apply plain_text_head.
  - now apply dot_plus_all.
Qed.







Lemma header_needs_digit (ch : ascii) (s : str) :
  is_digit ch = false -> is_match header_re (ch :: s) = false.
Proof.
  intros H. unfold is_match, header_re. rewrite re_match_cons. simpl.
  now rewrite H.
Qed.



Lemma nth_error_nth_default (lines : list str) (i : nat) (l : str) :
  nth_error lines i = Some l -> nth i lines [] = l /\ i < length lines.
Proof.
  intros H. split; [now apply nth_error_nth | ].
  apply nth_error_Some. congruence.
Qed.

(** One turn of the loop of [_parse_question] on a line that is no header. *)
Lemma scan_body_step (fuel : nat) (lines : list str) (i : nat) (l : str)
  (q : question) :
  nth_error lines i = Some l -> is_match header_re (strip l) = false ->
  scan_body (S fuel) lines i q
  = scan_body fuel lines (i + 1) (scan_line (strip l) q).
Proof.
  intros Hl Hh. apply nth_error_nth_default in Hl as [Hn Hlt].
  cbn [scan_body]. apply Nat.ltb_lt in Hlt. rewrite Hlt, Hn, Hh. reflexivity.
Qed.



(** *** The true/false detection *)

Lemma qtype_eqb_eq (a b : qtype) : qtype_eqb a b = true <-> a = b.
Proof. destruct a, b; simpl; split; intros H; try reflexivity; discriminate. Qed.

Lemma mem_str_two (s a b : str) :
  mem_str s [a; b] = true <-> s = a \/ s = b.
Proof.
  unfold mem_str. simpl. rewrite orb_false_r, orb_true_iff, !str_eqb_eq.
  tauto.
Qed.

Lemma auto_detect_yes (q : question) :
  looks_true_false q -> auto_detect q = set_type true_false q.
Proof.
  intros (Ht & c1 & c2 & Hc & Hp). unfold auto_detect.
  rewrite Ht, Hc. simpl.
  destruct Hp as [[-> ->] | [[-> ->] | [[-> ->] | [-> ->]]]]; reflexivity.
Qed.

Lemma auto_detect_no (q : question) :
  ~ looks_true_false q -> auto_detect q = q.
Proof.
  intros Hno. unfold auto_detect.
  destruct (qtype_eqb (q_type q) multiple_choice) eqn:Et; [ | reflexivity].
  destruct (length (q_choices q) =? 2) eqn:El; [ | reflexivity].
  cbn [andb].
  match goal with |- (if ?b then _ else _) = _ => destruct b eqn:Eb end;
    [ | reflexivity].
  exfalso. apply Hno. apply qtype_eqb_eq in Et. apply Nat.eqb_eq in El.
  split; [exact Et | ].
  destruct (q_choices q) as [ | c1 [ | c2 [ | c3 cs]]]; try discriminate El.
  exists c1, c2. split; [reflexivity | ].
  cbn [map] in Eb.
  rewrite orb_true_iff, !andb_true_iff, !mem_str_two in Eb.
  unfold true_false_pair.
  destruct Eb as [[[H1 | H1] [H2 | H2]] | [[H1 | H1] [H2 | H2]]];
    rewrite <- ?H1, <- ?H2; auto 6;
    rewrite <- H1 in H2; discriminate H2.
Qed.

(** C9: the question [_parse_question] returns is the scanned question,
    with its type changed to true_false exactly when the scan left type
    multiple_choice and two choices whose lower-cased texts are 'true' and
    'false', or 'yes' and 'no', in either order. *)
Theorem C9_true_false_detection (lines : list str) (start : nat)
  (q : question) (next : nat) :
  _parse_question lines start = Ok (Some q, next) ->
  exists text scanned,
    scan_body (length lines) lines (start + 1) (new_question text)
    = Ok (scanned, next)
    /\ (looks_true_false scanned -> q = set_type true_false scanned)
    /\ (~ looks_true_false scanned -> q = scanned).
Proof.
  unfold _parse_question, parse_question_fuel.
  destruct (nth_error lines start) as [l | ]; [ | discriminate].
  destruct (re_match header_text_re (strip l)) as [m | ]; [ | discriminate].
  destruct (scan_body _ _ _ _) as [[scanned i] | e | ] eqn:Es;
    simpl; try discriminate.
  intros H. injection H as <- <-.
  exists (group m 1), scanned. split; [exact Es | ]. split.
  - intros Hy. now apply auto_detect_yes.
  - intros Hn. now apply auto_detect_no.
Qed.

Lemma C9_true_false_detection_witness :
  exists text scanned,
    scan_body 3 [lit "1. Sky is blue"; lit "*a) True"; lit "b) False"] 1
              (new_question text)
    = Ok (scanned, 3)
    /\ (looks_true_false scanned ->
        Question (lit "Sky is blue") true_false
                 [Choice (lit "True") true; Choice (lit "False") false]
                 1 None None
        = set_type true_false scanned)
    /\ (~ looks_true_false scanned ->
        Question (lit "Sky is blue") true_false
                 [Choice (lit "True") true; Choice (lit "False") false]
                 1 None None
        = scanned).
Proof.
  apply (C9_true_false_detection
           [lit "1. Sky is blue"; lit "*a) True"; lit "b) False"] 0).
  reflexivity.
Defined.

(** *** The two loops *)

Lemma skipn_nth (lines : list str) (i : nat) :
  i < length lines -> skipn i lines = nth i lines [] :: skipn (S i) lines.
Proof.
  revert i. induction lines as [ | l lines IH]; intros i H; simpl in H.
  - lia.
  - destruct i as [ | i]; [reflexivity | ]. simpl. apply IH. lia.
Qed.

(** The loop of [_parse_question] applies the body lines of the block and
    stops at the next header or at the end; as many turns as there are
    lines left always suffice. *)
Lemma scan_body_spec (fuel : nat) (lines : list str) (i : nat) (q : question) :
  length lines - i <= fuel ->
  scan_body fuel lines i q
  = Ok (scan_lines (body_of (skipn i lines)) q,
        i + length (body_of (skipn i lines))).
Proof.
  revert i q. induction fuel as [ | fuel IH]; intros i q Hf.
  - assert (Hi : length lines <= i) by lia.
    simpl. apply Nat.ltb_ge in Hi as Hlt. rewrite Hlt.
    rewrite skipn_all2 by exact Hi. simpl. now rewrite Nat.add_0_r.
  - cbn [scan_body]. destruct (i <? length lines) eqn:Hlt.
    + apply Nat.ltb_lt in Hlt. rewrite (skipn_nth lines i Hlt).
      cbn [body_of]. unfold is_header at 1 2.
      destruct (is_match header_re (strip (nth i lines []))).
      * simpl. now rewrite Nat.add_0_r.
      * rewrite IH by lia. rewrite Nat.add_1_r. simpl. f_equal. f_equal. lia.
    + apply Nat.ltb_ge in Hlt. rewrite skipn_all2 by exact Hlt.
      simpl. now rewrite Nat.add_0_r.
Qed.

(** One turn for each body line and one for the header that ends the
    block are enough. *)
Lemma scan_body_turns (fuel : nat) (lines : list str) (i : nat) (q : question) :
  length (body_of (skipn i lines)) < fuel ->
  scan_body fuel lines i q
  = Ok (scan_lines (body_of (skipn i lines)) q,
        i + length (body_of (skipn i lines))).
Proof.
  revert i q. induction fuel as [ | fuel IH]; intros i q Hf; [lia | ].
  cbn [scan_body]. destruct (i <? length lines) eqn:Hlt.
  - apply Nat.ltb_lt in Hlt. rewrite (skipn_nth lines i Hlt) in *.
    cbn [body_of] in *. unfold is_header at 1 2. unfold is_header in Hf at 1.
    destruct (is_match header_re (strip (nth i lines []))).
    + simpl. now rewrite Nat.add_0_r.
    + cbn [List.length] in Hf. rewrite Nat.add_1_r, IH by lia.
      cbn [List.length scan_lines fold_left]. f_equal. f_equal. lia.
  - apply Nat.ltb_ge in Hlt. rewrite skipn_all2 by exact Hlt.
    simpl. now rewrite Nat.add_0_r.
Qed.

Lemma body_of_length (ls : list str) : length (body_of ls) <= length ls.
Proof.
  induction ls as [ | l ls IH]; simpl; [lia | ].
  destruct (is_header l); simpl; lia.
Qed.

Lemma block_questions_skip_body (ls : list str) :
  block_questions (skipn (length (body_of ls)) ls) = block_questions ls.
Proof.
  induction ls as [ | l ls IH]; simpl; [reflexivity | ].
  destruct (is_header l) eqn:E; simpl; [now rewrite E | exact IH].
Qed.

(** A header line without white space at its ends has a text. *)
Lemma header_has_text (s : str) :
  trimmed s -> is_match header_re s = true ->
  exists t, re_match header_text_re s = Some [t].
Proof.
  intros [_ Hlast] H. unfold is_match in H.
  destruct (re_match header_re s) as [m | ] eqn:E; [clear H | discriminate].
  unfold header_re in E.
  apply re_inv in E as (ds & rest1 & gs1 & -> & Hds & Hlen & E). simpl in Hds, Hlen.
  destruct rest1 as [ | ch rest2]; [discriminate E | ].
  rewrite re_once in E. destruct (is_char "." ch) eqn:Hdot; [ | discriminate E].
  apply is_char_eq in Hdot. subst ch.
  destruct (re_match [Atom is_space Plus false] rest2) as [gs2 | ] eqn:E2;
    [clear E | discriminate E].
  apply re_inv in E2 as (ws & rest3 & gs3 & -> & Hws & Hwlen & _).
  simpl in Hws, Hwlen.
  destruct ws as [ | w ws]; [simpl in Hwlen; lia | ].
  simpl in Hws. apply andb_true_iff in Hws as [Hw Hws].
  set (tail := (w :: ws) ++ rest3) in *.
  assert (Htake : takewhile is_space tail <> []).
  { subst tail. simpl. rewrite Hw. discriminate. }
  pose proof (take_drop is_space tail) as Hcut.
  destruct (dropwhile is_space tail) as [ | r0 R] eqn:Hdrop.
  - exfalso. rewrite app_nil_r in Hcut.
    destruct (exists_last Htake) as (t' & y & Hy).
    assert (Hsp : is_space y = true).
    { pose proof (takewhile_all is_space tail) as Hall. rewrite Hy in Hall.
      rewrite forallb_app in Hall. apply andb_true_iff in Hall as [_ Hall].
      simpl in Hall. now rewrite andb_true_r in Hall. }
    rewrite (Hlast y (ds ++ "."%char :: t')) in Hsp; [discriminate | ].
    rewrite <- Hcut, Hy, <- app_assoc. reflexivity.
  - pose proof (dropwhile_head _ _ _ _ Hdrop) as Hr0.
    apply space_not_dot in Hr0.
    exists (takewhile not_newline (r0 :: R)).
    unfold header_text_re. rewrite <- Hcut.
    rewrite (re_plus is_digit false _ ds _
               [takewhile not_newline (r0 :: R)]); auto.
    + destruct ds; [simpl in Hlen; lia | discriminate].
    + rewrite re_once. change (is_char "." ".") with true. cbv iota.
      rewrite (re_plus is_space false _ (takewhile is_space tail) (r0 :: R)
                 [takewhile not_newline (r0 :: R)]); auto.
      * apply takewhile_all.
      * eapply dropwhile_head. exact Hdrop.
      * rewrite <- (take_drop not_newline (r0 :: R)) at 1.
        apply (re_plus not_newline true [] _ _ []); auto.
        -- simpl. rewrite Hr0. discriminate.
        -- apply takewhile_all.
        -- destruct (dropwhile not_newline (r0 :: R)) eqn:Hd; [exact I | ].
           eapply dropwhile_head. exact Hd.
Qed.

(** [_parse_question] on a header line: the question of the block and the
    index of the line after the block. *)
Lemma parse_question_header (fuel : nat) (lines : list str) (i : nat) (l : str) :
  nth_error lines i = Some l -> is_header l = true ->
  length lines - S i <= fuel ->
  parse_question_fuel fuel lines i
  = Ok (Some (auto_detect (scan_lines (body_of (skipn (S i) lines))
                             (new_question (header_text l)))),
        S i + length (body_of (skipn (S i) lines))).
Proof.
  intros Hl Hh Hf. unfold parse_question_fuel. rewrite Hl. cbv zeta.
  destruct (header_has_text (strip l) (strip_trimmed l) Hh) as [t Ht].
  unfold header_text. rewrite Ht.
  rewrite Nat.add_1_r, scan_body_spec by exact Hf. reflexivity.
Qed.

(** *** The settings lines never raise *)

Lemma startswith_In (p s : str) (c : ascii) :
  startswith p s = true -> In c p -> In c s.
Proof.
  revert s. induction p as [ | a p IH]; intros s H Hin; [destruct Hin | ].
  destruct s as [ | b s]; [discriminate | ]. simpl in H.
  apply andb_true_iff in H as [Hab H]. apply Ascii.eqb_eq in Hab. subst b.
  destruct Hin as [-> | Hin]; [now left | right; now apply IH].
Qed.

Lemma lower_colon (s : str) : In ":"%char (lower s) -> In ":"%char s.
Proof.
  unfold lower. intros H. apply in_map_iff in H as (c & Hc & Hin).
  apply lower_char_colon in Hc. now subst.
Qed.

Lemma split1_colon (s : str) :
  In ":"%char s -> exists a b, split1 ":" s = [a; b].
Proof.
  induction s as [ | c s IH]; intros H; [destruct H | ]. simpl.
  destruct (Ascii.eqb_spec c ":") as [-> | Hne]; [eauto | ].
  destruct H as [H | H]; [congruence | ].
  destruct (IH H) as (a & b & ->). eauto.
Qed.

Lemma setting_value_ok (prefix line : str) :
  In ":"%char prefix -> startswith prefix (lower line) = true ->
  exists v, setting_value line = Ok v.
Proof.
  intros Hp Hs. unfold setting_value.
  destruct (split1_colon line) as (a & b & ->); [ | simpl; eauto].
  apply lower_colon. now apply startswith_In with (p := prefix).
Qed.

Ltac has_colon := vm_compute; repeat (try (left; reflexivity); right).

Lemma parse_settings_ok (line : str) (self : parser) :
  exists self',
    parse_settings line self = Ok self' /\ questions self' = questions self.
Proof.
  unfold parse_settings.
  destruct (startswith (lit "quiz title:") (lower line)) eqn:E1.
  - destruct (setting_value_ok (lit "quiz title:") line ltac:(has_colon) E1) as [v Hv].
    rewrite Hv. cbn [bind].
    destruct (startswith (lit "quiz description:") (lower line)) eqn:E2;
      cbn [bind];
      destruct (startswith (lit "multiple attempts:") (lower line)) eqn:E3;
      cbn [bind]; eauto.
  - cbn [bind].
    destruct (startswith (lit "quiz description:") (lower line)) eqn:E2.
    + destruct (setting_value_ok (lit "quiz description:") line ltac:(has_colon) E2) as [v Hv].
      rewrite Hv. cbn [bind].
      destruct (startswith (lit "multiple attempts:") (lower line)) eqn:E3;
        cbn [bind]; eauto.
    + cbn [bind].
      destruct (startswith (lit "multiple attempts:") (lower line)) eqn:E3;
        [ | eauto].
      destruct (setting_value_ok (lit "multiple attempts:") line ltac:(has_colon) E3) as [v Hv].
      rewrite Hv. cbn [bind]. eauto.
Qed.

(** *** The loop of [parse_content] *)

Lemma skipped_line_is_no_header (l : str) :
  str_eqb (strip l) [] || startswith (lit "%") (strip l) = true ->
  is_header l = false.
Proof.
  unfold is_header. intros H. apply orb_true_iff in H as [H | H].
  - apply str_eqb_eq in H. now rewrite H.
  - destruct (strip l) as [ | c s]; [reflexivity | ].
    change (lit "%") with ["%"%char] in H. cbn [startswith] in H.
    rewrite andb_true_r in H. apply Ascii.eqb_eq in H. subst c.
    now apply header_needs_digit.
Qed.

(** The loop of [parse_content] appends the questions of the blocks it
    walks over; as many turns as there are lines left always suffice. *)
Lemma parse_loop_spec (fuel : nat) (lines : list str) (i : nat) (self : parser) :
  length lines - i <= fuel ->
  exists self',
    parse_loop fuel lines i self = Ok self'
    /\ questions self' = questions self ++ block_questions (skipn i lines).
Proof.
  revert i self. induction fuel as [ | fuel IH]; intros i self Hf.
  - assert (Hi : length lines <= i) by lia.
    simpl. apply Nat.ltb_ge in Hi as Hlt. rewrite Hlt.
    rewrite skipn_all2 by exact Hi. exists self. simpl. now rewrite app_nil_r.
  - cbn [parse_loop]. destruct (i <? length lines) eqn:Hlt.
    2:{ apply Nat.ltb_ge in Hlt. rewrite skipn_all2 by exact Hlt.
        exists self. simpl. now rewrite app_nil_r. }
    apply Nat.ltb_lt in Hlt. rewrite (skipn_nth lines i Hlt).
    set (l := nth i lines []). cbv zeta. cbn [block_questions].
    assert (Hnth : nth_error lines i = Some l)
      by (subst l; now apply nth_error_nth').
    destruct (str_eqb (strip l) [] || startswith (lit "%") (strip l)) eqn:Eskip.
    + rewrite (skipped_line_is_no_header l Eskip). rewrite Nat.add_1_r.
      apply IH. lia.
    + destruct (parse_settings_ok (strip l) self) as (self1 & -> & Hq).
      cbn [bind]. fold (is_header l). destruct (is_header l) eqn:Eh.
      * unfold _parse_question.
        rewrite (parse_question_header _ lines i l Hnth Eh) by lia.
        cbn [bind fst snd].
        set (body := body_of (skipn (S i) lines)).
        destruct (IH (S i + length body)
                     (append_question
                        (Some (auto_detect (scan_lines body
                                 (new_question (header_text l))))) self1))
          as (self' & -> & Hq').
        { pose proof (body_of_length (skipn (S i) lines)) as Hb.
          rewrite length_skipn in Hb. subst body. lia. }
        exists self'. split; [reflexivity | ].
        rewrite Hq'. cbn [append_question questions]. rewrite Hq.
        rewrite <- app_assoc. cbn [app]. f_equal. f_equal.
        rewrite <- (block_questions_skip_body (skipn (S i) lines)).
        fold body. now rewrite skipn_skipn, Nat.add_comm.
      * rewrite Nat.add_1_r.
        destruct (IH (S i) self1) as (self' & -> & Hq'); [lia | ].
        exists self'. split; [reflexivity | ]. now rewrite Hq', Hq.
Qed.

(** *** What every parsed question carries *)

Ltac scan_cases :=
  unfold scan_line;
  repeat match goal with
         | |- context [match re_match ?r ?s with _ => _ end] =>
             destruct (re_match r s)
         | |- context [if is_match ?r ?s then _ else _] =>
             destruct (is_match r s)
         end.

Lemma scan_line_text (s : str) (q : question) :
  q_text (scan_line s q) = q_text q.
Proof. scan_cases; reflexivity. Qed.

Lemma scan_line_well_formed (s : str) (q : question) :
  well_formed q -> well_formed (scan_line s q).
Proof.
  intros (Hp & Hs & Hn). scan_cases; unfold well_formed; simpl;
    repeat split; auto; try discriminate; eauto.
Qed.

Lemma scan_lines_text (body : list str) (q : question) :
  q_text (scan_lines body q) = q_text q.
Proof.
  revert q. induction body as [ | l body IH]; intros q; [reflexivity | ].
  simpl. fold (scan_lines body (scan_line (strip l) q)).
  now rewrite IH, scan_line_text.
Qed.

Lemma scan_lines_well_formed (body : list str) (q : question) :
  well_formed q -> well_formed (scan_lines body q).
Proof.
  revert q. induction body as [ | l body IH]; intros q H; [exact H | ].
  simpl. fold (scan_lines body (scan_line (strip l) q)).
  apply IH. now apply scan_line_well_formed.
Qed.

Lemma auto_detect_cases (q : question) :
  auto_detect q = q \/ auto_detect q = set_type true_false q.
Proof.
  unfold auto_detect.
  repeat match goal with
         | |- context [if ?b then _ else _] => destruct b
         end; auto.
Qed.

Lemma auto_detect_text (q : question) : q_text (auto_detect q) = q_text q.
Proof. destruct (auto_detect_cases q) as [-> | ->]; reflexivity. Qed.

Lemma auto_detect_well_formed (q : question) :
  well_formed q -> well_formed (auto_detect q).
Proof.
  intros H. destruct (auto_detect_cases q) as [-> | ->]; [exact H | ].
  destruct H as (Hp & _ & _). unfold well_formed. simpl.
  repeat split; auto; discriminate.
Qed.

Lemma block_questions_text (ls : list str) :
  map q_text (block_questions ls) = map header_text (filter is_header ls).
Proof.
  induction ls as [ | l ls IH]; simpl; [reflexivity | ].
  destruct (is_header l); simpl; [ | exact IH].
  now rewrite IH, auto_detect_text, scan_lines_text.
Qed.

Lemma block_questions_well_formed (ls : list str) :
  Forall well_formed (block_questions ls).
Proof.
  induction ls as [ | l ls IH]; simpl; [constructor | ].
  destruct (is_header l); [ | exact IH]. constructor; [ | exact IH].
  apply auto_detect_well_formed, scan_lines_well_formed.
  unfold well_formed. simpl. repeat split; discriminate.
Qed.

Lemma parse_content_spec (self : parser) (content : str) :
  exists p,
    parse_content self content
    = Ok (QuizData (quiz_title p) (quiz_description p) (multiple_attempts p)
                   (questions p), p)
    /\ questions p = block_questions (split newline content).
Proof.
  unfold parse_content. cbv zeta.
  destruct (parse_loop_spec (length (split newline content))
              (split newline content) 0
              (Parser (quiz_title self) (quiz_description self)
                      (multiple_attempts self) []))
    as (p & -> & Hq); [lia | ].
  exists p. split; [reflexivity | exact Hq].
Qed.

(** C5: on every text, [parse_content] returns the dict with the title,
    the description, multiple_attempts and the questions of the parser; the
    questions are those of the header lines of the text, in the order of
    these lines, each with the text of its header line; every question has
    its points, a short-answer question has answers and a numerical one an
    answer. *)
Theorem C5_parse_content_record (self : parser) (content : str) :
  exists d p,
    parse_content self content = Ok (d, p)
    /\ title d = quiz_title p
    /\ description d = quiz_description p
    /\ qd_multiple_attempts d = multiple_attempts p
    /\ qd_questions d = questions p
    /\ map q_text (qd_questions d)
       = map header_text (filter is_header (split newline content))
    /\ Forall well_formed (qd_questions d).
Proof.
  destruct (parse_content_spec self content) as (p & Hp & Hq).
  eexists. exists p. split; [exact Hp | ]. cbn [title description
    qd_multiple_attempts qd_questions]. repeat split.
  - rewrite Hq. apply block_questions_text.
  - rewrite Hq. apply block_questions_well_formed.
Qed.

(** C6: [parse_content] returns on every text.  Neither loop needs more
    turns than there are lines from its start index on, and
    [_parse_question] hands back an index beyond the header line it was
    given and not beyond the end, so the scan only moves forward.  The loop
    of [_parse_question] takes one turn for each body line of its block and
    one for the header that ends it, and hands back the index after the
    last body line: a line is looked at by the outer loop at most once and
    by the inner loop at most once. *)
Theorem C6_single_forward_pass :
  (forall self content, exists r, parse_content self content = Ok r)
  /\ (forall lines start,
        start < length lines ->
        exists q next,
          _parse_question lines start = Ok (q, next)
          /\ start < next <= length lines)
  /\ (forall fuel lines i self,
        length lines - i <= fuel ->
        exists self', parse_loop fuel lines i self = Ok self')
  /\ (forall fuel lines i q,
        length lines - i <= fuel ->
        exists q' next,
          scan_body fuel lines i q = Ok (q', next)
          /\ i <= next /\ (i <= length lines -> next <= length lines))
  /\ (forall fuel lines i q,
        length (body_of (skipn i lines)) < fuel ->
        exists q',
          scan_body fuel lines i q
          = Ok (q', i + length (body_of (skipn i lines)))).
Proof.
  split; [ | split; [ | split; [ | split]]].
  - intros self content.
    destruct (parse_content_spec self content) as (p & -> & _). eauto.
  - intros lines start Hlt. unfold _parse_question, parse_question_fuel.
    destruct (nth_error lines start) as [l | ] eqn:Hl.
    2:{ apply nth_error_None in Hl. lia. }
    cbv zeta. destruct (re_match header_text_re (strip l)) as [m | ].
    + rewrite scan_body_spec by lia. cbn [bind fst snd].
      eexists. eexists. split; [reflexivity | ].
      pose proof (body_of_length (skipn (start + 1) lines)) as Hb.
      rewrite length_skipn in Hb. lia.
    + eexists. eexists. split; [reflexivity | lia].
  - intros fuel lines i self Hf.
    destruct (parse_loop_spec fuel lines i self Hf) as (self' & -> & _). eauto.
  - intros fuel lines i q Hf. rewrite scan_body_spec by exact Hf.
    eexists. eexists. split; [reflexivity | ].
    pose proof (body_of_length (skipn i lines)) as Hb.
    rewrite length_skipn in Hb. lia.
  - intros fuel lines i q Hf. rewrite scan_body_turns by exact Hf. eauto.
Qed.

Lemma C6_single_forward_pass_witness :
  exists q next,
    _parse_question [lit "1. What is 2+3?"; lit "a) 6"; lit "*b) 5";
                     lit ""; lit "2. Explain."; lit "___"] 0
    = Ok (q, next)
    /\ 0 < next <= 6.
Proof.
  apply (proj1 (proj2 C6_single_forward_pass)). simpl. lia.
Defined.

(** *** The order of the body lines *)

Lemma scan_line_type (s : str) (q : question) :
  q_type (scan_line s q)
  = match kind_of s with Some k => k | None => q_type q end.
Proof.
  unfold scan_line, kind_of, is_match.
  repeat match goal with
         | |- context [match re_match ?r ?s with _ => _ end] =>
             destruct (re_match r s)
         end; reflexivity.
Qed.

Lemma scan_line_choices (s : str) (q : question) :
  q_choices (scan_line s q) = q_choices q ++ line_choices s.
Proof.
  unfold scan_line, line_choices, is_match.
  repeat match goal with
         | |- context [match re_match ?r ?s with _ => _ end] =>
             destruct (re_match r s)
         end; simpl; now rewrite ?app_nil_r.
Qed.

Lemma scan_lines_type (body : list str) (q : question) :
  q_type (scan_lines body q)
  = match last_kind body with Some k => k | None => q_type q end.
Proof.
  revert q. induction body as [ | l body IH]; intros q; [reflexivity | ].
  simpl. fold (scan_lines body (scan_line (strip l) q)).
  rewrite IH, scan_line_type. now destruct (last_kind body).
Qed.

Lemma scan_lines_choices (body : list str) (q : question) :
  q_choices (scan_lines body q)
  = q_choices q ++ flat_map (fun l => line_choices (strip l)) body.
Proof.
  revert q. induction body as [ | l body IH]; intros q.
  - simpl. now rewrite app_nil_r.
  - simpl. fold (scan_lines body (scan_line (strip l) q)).
    now rewrite IH, scan_line_choices, <- app_assoc.
Qed.

Lemma existsb_Permutation {A : Type} (f : A -> bool) (l l' : list A) :
  Permutation l l' -> existsb f l = existsb f l'.
Proof.
  induction 1 as [ | x l l' _ IH | x y l | l l' l'' _ IH1 _ IH2]; simpl.
  - reflexivity.
  - now rewrite IH.
  - now rewrite !orb_assoc, (orb_comm (f y)).
  - now rewrite IH1.
Qed.

(** The detection looks at the type, the number of choices and the set of
    their texts only. *)
Lemma auto_detect_type_perm (q q' : question) :
  q_type q = q_type q' -> Permutation (q_choices q) (q_choices q') ->
  q_type (auto_detect q) = q_type (auto_detect q').
Proof.
  intros Ht Hp. unfold auto_detect, mem_str.
  rewrite <- Ht, <- (Permutation_length Hp).
  assert (Hm : forall s,
             existsb (str_eqb s) (map (fun c => lower (c_text c)) (q_choices q))
             = existsb (str_eqb s) (map (fun c => lower (c_text c)) (q_choices q'))).
  { intros s. apply existsb_Permutation. now apply Permutation_map. }
  rewrite <- !Hm.
  repeat match goal with
         | |- context [if ?b then _ else _] => destruct b
         end; simpl; auto.
Qed.

Lemma body_of_block (body rest : list str) :
  Forall (fun l => is_header l = false) body ->
  match rest with [] => True | l :: _ => is_header l = true end ->
  body_of (body ++ rest) = body.
Proof.
  intros Hb Hr. induction Hb as [ | l body Hl _ IH]; simpl.
  - destruct rest as [ | l rest]; [reflexivity | ]. simpl. now rewrite Hr.
  - now rewrite Hl, IH.
Qed.

Lemma block_type_spec (header : str) (body rest : list str) :
  Forall (fun l => is_header l = false) body ->
  match rest with [] => True | l :: _ => is_header l = true end ->
  block_type (header :: body ++ rest)
  = match re_match header_text_re (strip header) with
    | Some m =>
        Some (q_type (auto_detect (scan_lines body (new_question (group m 1)))))
    | None => None
    end.
Proof.
  intros Hb Hr. unfold block_type, _parse_question, parse_question_fuel.
  cbn [nth_error]. cbv zeta.
  destruct (re_match header_text_re (strip header)) as [m | ]; [ | reflexivity].
  rewrite scan_body_spec by (simpl; lia). cbn [bind fst snd Nat.add skipn].
  now rewrite body_of_block.
Qed.

(** *** The checks on one line exclude each other *)

Lemma once_head (c : ascii -> bool) (g : bool) (r : regex) (s : str) :
  is_match (Atom c Once g :: r) s = true ->
  exists ch t, s = ch :: t /\ c ch = true /\ is_match r t = true.
Proof.
  unfold is_match. destruct s as [ | ch t]; [discriminate | ].
  rewrite re_once. destruct (c ch) eqn:Hc; [ | discriminate].
  intros H. exists ch, t. split; [reflexivity | ]. split; [exact Hc | ].
  destruct (re_match r t); [reflexivity | discriminate H].
Qed.

Lemma repeated_head (c : ascii -> bool) (q : quant) (g : bool) (r : regex)
  (s : str) :
  1 <= lo q -> is_match (Atom c q g :: r) s = true ->
  exists ch t, s = ch :: t /\ c ch = true.
Proof.
  unfold is_match. intros Hq H.
  destruct (re_match (Atom c q g :: r) s) as [m | ] eqn:E; [ | discriminate].
  apply re_inv in E as (p0 & rest & gs & -> & Hp & Hlo & _). simpl in Hp, Hlo.
  destruct p0 as [ | ch p0]; [simpl in Hlo; lia | ].
  simpl in Hp. apply andb_true_iff in Hp as [Hc _]. simpl. eauto.
Qed.

Lemma star_not_space (c : ascii) : is_char "*" c = true -> is_space c = false.
Proof. each_char c. Qed.

Lemma choice_tag (s : str) :
  is_match choice_re s = true -> marker_tag s = Some 0.
Proof.
  unfold is_match, choice_re. intros H.
  destruct (re_match _ s) as [m | ] eqn:E; [clear H | discriminate].
  apply re_inv in E as (p0 & rest & gs & -> & Hp & _ & E). simpl in Hp.
  assert (Hrest : exists ch t, rest = ch :: t /\ is_az ch = true).
  { assert (Hm : is_match [Atom is_az Once true; Atom (is_char ")") Once false;
                           Atom is_space Plus false; Atom not_newline Plus true]
                   rest = true)
      by (unfold is_match; now rewrite E).
    apply once_head in Hm as (ch & t & -> & Hch & _). eauto. }
  destruct Hrest as (ch & t & -> & Hch).
  destruct p0 as [ | x p0]; simpl.
  - now rewrite Hch.
  - apply andb_true_iff in Hp as [Hx Hp]. apply is_char_eq in Hx. subst x.
    simpl. destruct p0 as [ | y p0]; simpl.
    + now rewrite (az_not_space ch Hch).
    + simpl in Hp. apply andb_true_iff in Hp as [Hy _].
      now rewrite (star_not_space y Hy).
Qed.

Lemma literal_tag (x : ascii) (q : quant) (r : regex) (s : str) (n : nat) :
  1 <= lo q -> marker_tag (x :: []) = Some n ->
  (forall t, marker_tag (x :: t) = marker_tag (x :: [])) ->
  is_match (Atom (is_char x) q false :: r) s = true -> marker_tag s = Some n.
Proof.
  intros Hq Hn Ht H.
  destruct (repeated_head _ q false r s Hq H) as (ch & t & -> & Hch).
  apply is_char_eq in Hch. subst ch. now rewrite Ht.
Qed.

Lemma short_tag (s : str) :
  is_match short_re s = true -> marker_tag s = Some 3.
Proof.
  unfold short_re. intros H.
  destruct (once_head _ _ _ _ H) as (ch & t & -> & Hch & Ht).
  apply is_char_eq in Hch. subst ch.
  apply repeated_head in Ht as (c2 & t' & -> & Hc2); [ | simpl; lia].
  simpl. now rewrite Hc2.
Qed.

(** A pattern that matches is the one the first characters point at. *)
Lemma marker_tag_of_match (s : str) (i : nat) (r : regex) :
  nth_error marker_patterns i = Some r -> is_match r s = true ->
  marker_tag s = Some i.
Proof.
  intros Hi H.
  destruct i as [ | [ | [ | [ | [ | [ | i]]]]]]; simpl in Hi;
    try (injection Hi as <-).
  - now apply choice_tag.
  - apply (literal_tag "[" Once _ s 1) in H; auto; simpl; lia.
  - apply (literal_tag "=" Once _ s 2) in H; auto; simpl; lia.
  - now apply short_tag.
  - apply (literal_tag "_" (AtLeast 3) _ s 4) in H; auto; simpl; lia.
  - apply (literal_tag "^" (AtLeast 3) _ s 5) in H; auto; simpl; lia.
  - destruct i; discriminate Hi.
Qed.

(** The last marker line of a body: [last_kind] is the kind of the line
    after which no line of the body is a marker line. *)
Lemma last_kind_spec (body : list str) (k : qtype) :
  last_kind body = Some k <->
  exists before l after,
    body = before ++ l :: after
    /\ kind_of (strip l) = Some k
    /\ Forall (fun l' => kind_of (strip l') = None) after.
Proof.
  revert k. induction body as [ | l body IH]; intros k; simpl.
  - split; [discriminate | ]. intros (before & l & after & H & _).
    destruct before; discriminate H.
  - destruct (last_kind body) as [k' | ] eqn:E.
    + split.
      * intros H. injection H as <-.
        destruct (proj1 (IH k') eq_refl) as (before & l' & after & -> & Hk & Ha).
        exists (l :: before), l', after. auto.
      * intros (before & l' & after & H & Hk & Ha).
        destruct before as [ | b before]; simpl in H; injection H as <- ->.
        -- exfalso. clear IH Hk.
           induction Ha as [ | a after Hka _ IHa]; simpl in E; [discriminate | ].
           destruct (last_kind after); [now apply IHa | congruence].
        -- apply IH. exists before, l', after. auto.
    + split.
      * intros H. exists [], l, body. repeat split; auto.
        clear IH H. induction body as [ | a body IHb]; constructor.
        -- simpl in E. destruct (last_kind body); [discriminate | exact E].
        -- apply IHb. simpl in E. now destruct (last_kind body).
      * intros (before & l' & after & H & Hk & Ha).
        destruct before as [ | b before]; simpl in H; injection H as <- ->;
          [exact Hk | ].
        exfalso. assert (Hs : last_kind (before ++ l' :: after) = Some k).
        { clear E IH. induction before as [ | c before IHc]; simpl.
          - assert (Hn : last_kind after = None).
            { clear Hk. induction Ha as [ | a after Hka _ IHa]; simpl;
                [reflexivity | ]. now rewrite IHa. }
            now rewrite Hn.
          - now rewrite IHc. }
        congruence.
Qed.

(** C1 (as the code has it): on one line the six marker checks exclude
    each other, so the order they are tried in does not matter.  Across
    the lines of a block the type of the returned question is the one its
    last marker line sets, multiple_choice when no line is a marker line,
    followed by the true/false detection; reordering the body lines keeps
    the type of the returned question when the last marker line is of the
    same kind before and after. *)
Theorem C1_type_follows_last_marker :
  (forall s i j r1 r2,
     nth_error marker_patterns i = Some r1 ->
     nth_error marker_patterns j = Some r2 ->
     is_match r1 s = true -> is_match r2 s = true -> i = j)
  /\ (forall header body rest q next,
        Forall (fun l => is_header l = false) body ->
        match rest with [] => True | l :: _ => is_header l = true end ->
        _parse_question (header :: body ++ rest) 0 = Ok (Some q, next) ->
        let scanned := scan_lines body (new_question (header_text header)) in
        q_type scanned
        = match last_kind body with Some k => k | None => multiple_choice end
        /\ (looks_true_false scanned -> q_type q = true_false)
        /\ (~ looks_true_false scanned -> q_type q = q_type scanned))
  /\ (forall body k,
        last_kind body = Some k <->
        exists before l after,
          body = before ++ l :: after
          /\ kind_of (strip l) = Some k
          /\ Forall (fun l' => kind_of (strip l') = None) after)
  /\ (forall header body body' rest,
        Forall (fun l => is_header l = false) body ->
        match rest with [] => True | l :: _ => is_header l = true end ->
        Permutation body body' ->
        last_kind body = last_kind body' ->
        block_type (header :: body ++ rest)
        = block_type (header :: body' ++ rest)).
Proof.
  split; [ | split; [ | split]].
  - intros s i j r1 r2 Hi Hj H1 H2.
    pose proof (marker_tag_of_match s i r1 Hi H1) as Ti.
    pose proof (marker_tag_of_match s j r2 Hj H2) as Tj.
    congruence.
  - intros header body rest q next Hb Hr Hp. cbv zeta.
    unfold _parse_question, parse_question_fuel in Hp.
    cbn [nth_error] in Hp. cbv zeta in Hp. unfold header_text.
    destruct (re_match header_text_re (strip header)) as [m | ];
      [ | discriminate].
    rewrite scan_body_spec in Hp by (simpl; lia).
    cbn [bind fst snd Nat.add skipn] in Hp.
    rewrite body_of_block in Hp by assumption.
    injection Hp as <- _. split; [ | split].
    + now rewrite scan_lines_type.
    + intros Hy. now rewrite auto_detect_yes.
    + intros Hn. now rewrite auto_detect_no.
  - apply last_kind_spec.
  - intros header body body' rest Hb Hr Hp Hk.
    assert (Hb' : Forall (fun l => is_header l = false) body')
      by (eapply Permutation_Forall; eauto).
    rewrite !block_type_spec by assumption.
    destruct (re_match header_text_re (strip header)) as [m | ]; [ | reflexivity].
    f_equal. apply auto_detect_type_perm.
    + rewrite !scan_lines_type. now rewrite Hk.
    + rewrite !scan_lines_choices. apply Permutation_app_head.
      now apply Permutation_flat_map.
Qed.

Lemma C1_type_follows_last_marker_witness :
  (let scanned :=
     scan_lines [lit "a) 4"; lit "___"]
                (new_question (header_text (lit "1. What is 2+2?"))) in
   q_type scanned = essay
   /\ (looks_true_false scanned ->
       q_type (Question (lit "What is 2+2?") essay [Choice (lit "4") false]
                        1 None None) = true_false)
   /\ (~ looks_true_false scanned ->
       q_type (Question (lit "What is 2+2?") essay [Choice (lit "4") false]
                        1 None None) = q_type scanned))
  /\ block_type (lit "1. The sky is blue." ::
                 [lit "*a) True"; lit "(pick one)"; lit "b) False"]
                 ++ [lit "2. Next question"])
     = block_type (lit "1. The sky is blue." ::
                   [lit "(pick one)"; lit "*a) True"; lit "b) False"]
                   ++ [lit "2. Next question"]).
Proof.
  split.
  - apply (proj1 (proj2 C1_type_follows_last_marker) (lit "1. What is 2+2?")
             [lit "a) 4"; lit "___"] []
             (Question (lit "What is 2+2?") essay [Choice (lit "4") false]
                       1 None None) 3).
    + repeat constructor.
    + exact I.
    + reflexivity.
  - apply (proj2 (proj2 (proj2 C1_type_follows_last_marker))).
    + repeat constructor.
    + reflexivity.
    + apply perm_swap.
    + reflexivity.
Defined.

Lemma C1_counterexample :
  Permutation [lit "a) 4"; lit "___"] [lit "___"; lit "a) 4"]
  /\ block_type (lit "1. What is 2+2?" :: [lit "a) 4"; lit "___"])
     = Some essay
  /\ block_type (lit "1. What is 2+2?" :: [lit "___"; lit "a) 4"])
     = Some multiple_choice
  /\ block_type (lit "1. What is 2+2?" :: [lit "a) 4"; lit "___"])
     <> block_type (lit "1. What is 2+2?" :: [lit "___"; lit "a) 4"]).
Proof.
  split; [apply perm_swap | ]. split; [reflexivity | ].
  split; [reflexivity | ]. intros H. vm_compute in H. discriminate H.
Qed.

End Text2QtiFacts.

(** ** More of the parser *)

Module ParserFacts.
Import Py PyStr Re Text2Qti Text2QtiSpec ParserSpec PyStrFacts ReFacts Text2QtiFacts.

(** *** The remaining marker lines *)

(** An optional item that is tried with and without its character. *)
Lemma re_opt (c : ascii -> bool) (g : bool) (r : regex) (ch : ascii) (s : str) :
  re_match (Atom c Opt g :: r) (ch :: s)
  = if c ch
    then match push g [ch] (re_match r s) with
         | Some m => Some m
         | None => push g [] (re_match r (ch :: s))
         end
    else push g [] (re_match r (ch :: s)).
Proof.
  rewrite re_match_cons. simpl. destruct (c ch); simpl; [ | reflexivity].
  destruct s as [ | d s]; simpl; rewrite ?andb_false_r; reflexivity.
Qed.

Lemma space_not_az (c : ascii) : is_space c = true -> is_az c = false.
Proof. each_char c. Qed.

Lemma no_choice_after_star (ws t : str) :
  gap ws -> re_match choice_re ("*"%char :: ws ++ t) = None.
Proof.
  intros [Hne Hws]. destruct ws as [ | w ws]; [congruence | ].
  simpl in Hws. apply andb_true_iff in Hws as [Hw _].
  unfold choice_re. rewrite re_opt. change (is_char "*" "*") with true.
  cbv iota. simpl app. rewrite !re_once, (space_not_az w Hw). reflexivity.
Qed.

Lemma scan_short_line (ws t : str) (q : question) :
  gap ws -> plain_text t ->
  scan_line ("*"%char :: ws ++ t) q
  = set_type short_answer (append_answer t q).
Proof.
  intros Hws Ht. unfold scan_line.
  rewrite no_choice_after_star by exact Hws.
  assert (Hm : re_match multi_re ("*"%char :: ws ++ t) = None).
  { unfold multi_re. rewrite re_once. reflexivity. }
  assert (Hn : re_match numerical_re ("*"%char :: ws ++ t) = None).
  { unfold numerical_re. rewrite re_once. reflexivity. }
  rewrite Hm, Hn. unfold short_re. rewrite re_once.
  change (is_char "*" "*") with true. cbv iota.
  rewrite gap_then_text by assumption. reflexivity.
Qed.

Lemma scan_upload_line (n : nat) (q : question) :
  3 <= n -> scan_line (repeat "^"%char n) q = set_type file_upload q.
Proof.
  intros Hn. unfold scan_line.
  destruct n as [ | n]; [lia | ].
  assert (Hc : re_match choice_re (repeat "^"%char (S n)) = None).
  { unfold choice_re. simpl repeat. rewrite re_opt_skip by reflexivity.
    rewrite re_once. reflexivity. }
  assert (Hm : re_match multi_re (repeat "^"%char (S n)) = None).
  { unfold multi_re. simpl repeat. rewrite re_once. reflexivity. }
  assert (Hnu : re_match numerical_re (repeat "^"%char (S n)) = None).
  { unfold numerical_re. simpl repeat. rewrite re_once. reflexivity. }
  assert (Hs : re_match short_re (repeat "^"%char (S n)) = None).
  { unfold short_re. simpl repeat. rewrite re_once. reflexivity. }
  assert (He : is_match essay_re (repeat "^"%char (S n)) = false).
  { unfold is_match, essay_re. rewrite re_match_cons. reflexivity. }
  rewrite Hc, Hm, Hnu, Hs, He. unfold is_match, upload_re.
  rewrite <- (app_nil_r (repeat "^"%char (S n))).
  rewrite (re_at_least (is_char "^") 3 false [] (repeat "^"%char (S n)) [] []);
    auto.
  - now rewrite repeat_length.
  - apply forallb_forall. intros x Hx. apply repeat_spec in Hx. now subst.
Qed.

Lemma trimmed_repeat (c : ascii) (n : nat) :
  is_space c = false -> trimmed (repeat c n).
Proof.
  intros Hc. split; intros d t H.
  - assert (Hin : In d (repeat c n)) by (rewrite H; now left).
    apply repeat_spec in Hin. now subst.
  - assert (Hin : In d (repeat c n))
      by (rewrite H; apply in_or_app; right; now left).
    apply repeat_spec in Hin. now subst.
Qed.

Lemma answer_line_trimmed (core : str) (effect : question -> question) :
  answer_line core effect ->
  core <> [] /\ trimmed core /\ is_match header_re core = false.
Proof.
  intros [ws t Hws Ht | n Hn].
  - destruct Ht as (Hne & Htr & _). split; [discriminate | ].
    split; [ | now apply header_needs_digit].
    now apply trimmed_cons.
  - split; [destruct n; [lia | discriminate] | ].
    split; [now apply trimmed_repeat | ].
    destruct n; [lia | ]. now apply header_needs_digit.
Qed.

(** In the loop of [_parse_question], a line [* answer] sets the type to
    short_answer and appends the answer to ['answers'], which it creates
    when the key is not there yet; a line of three or more circumflexes
    sets the type to file_upload. *)
Theorem answer_lines_step (core : str) (effect : question -> question)
  (lead trail : str) (fuel : nat) (lines : list str) (i : nat) (q : question) :
  answer_line core effect -> blank lead -> blank trail ->
  nth_error lines i = Some (lead ++ core ++ trail) ->
  scan_body (S fuel) lines i q = scan_body fuel lines (i + 1) (effect q).
Proof.
  intros Hm Hlead Htrail Hi.
  destruct (answer_line_trimmed core effect Hm) as (Hne & Htr & Hh).
  assert (Hs : strip (lead ++ core ++ trail) = core) by now apply strip_core.
  rewrite (scan_body_step fuel lines i _ q Hi) by now rewrite Hs.
  rewrite Hs. f_equal.
  destruct Hm as [ws t Hws Ht | n Hn].
  - now apply scan_short_line.
  - now apply scan_upload_line.
Qed.

Lemma answer_lines_step_witness :
  scan_body 3 [lit "1. Capital of France?"; lit "* Paris"; lit "*  paris "] 1
            (new_question (lit "Capital of France?"))
  = Ok (Question (lit "Capital of France?") short_answer [] 1 None
          (Some [lit "Paris"; lit "paris"]), 3).
Proof.
  rewrite (answer_lines_step (lit "* Paris") _ [] [] 2
             [lit "1. Capital of France?"; lit "* Paris"; lit "*  paris "] 1
             (new_question (lit "Capital of France?"))
             (short_line (lit " ") (lit "Paris")
                (conj (fun H => nil_cons (eq_sym H)) eq_refl)
                (conj (fun H => nil_cons (eq_sym H))
                   (conj (strip_trimmed (lit "Paris")) eq_refl)))
             eq_refl eq_refl eq_refl).
  reflexivity.
Defined.

(** *** Lines that are no marker lines *)

Lemma no_marker_start_tag (s : str) :
  no_marker_start s -> marker_tag s = None.
Proof.
  destruct s as [ | c t]; [reflexivity | ].
  intros (Haz & H1 & H2 & H3 & H4 & H5). unfold marker_tag. rewrite Haz.
  repeat match goal with
         | |- context [is_char ?x c] =>
             let E := fresh in
             destruct (is_char x c) eqn:E;
             [apply is_char_eq in E; congruence | ]
         end.
  reflexivity.
Qed.

Lemma untagged_no_match (s : str) (i : nat) (r : regex) :
  marker_tag s = None -> nth_error marker_patterns i = Some r ->
  is_match r s = false.
Proof.
  intros Ht Hi. destruct (is_match r s) eqn:E; [ | reflexivity].
  rewrite (marker_tag_of_match s i r Hi E) in Ht. discriminate.
Qed.

Lemma is_match_false (r : regex) (s : str) :
  is_match r s = false -> re_match r s = None.
Proof. unfold is_match. destruct (re_match r s); [discriminate | reflexivity]. Qed.

Lemma scan_line_untagged (s : str) (q : question) :
  marker_tag s = None -> scan_line s q = q.
Proof.
  intros Ht. unfold scan_line.
  rewrite (is_match_false _ _ (untagged_no_match s 0 _ Ht eq_refl)).
  rewrite (is_match_false _ _ (untagged_no_match s 1 _ Ht eq_refl)).
  rewrite (is_match_false _ _ (untagged_no_match s 2 _ Ht eq_refl)).
  rewrite (is_match_false _ _ (untagged_no_match s 3 _ Ht eq_refl)).
  rewrite (untagged_no_match s 4 _ Ht eq_refl).
  rewrite (untagged_no_match s 5 _ Ht eq_refl). reflexivity.
Qed.

(** A body line that is no header and whose stripped text does not start
    with a lower-case letter or one of [[ = _ ^ *] leaves the question as
    it is: a blank line, a remark, and also a choice written with an
    upper-case letter, as in [A) 4]. *)
Theorem other_lines_are_ignored (fuel : nat) (lines : list str) (i : nat)
  (l : str) (q : question) :
  nth_error lines i = Some l -> is_header l = false ->
  no_marker_start (strip l) ->
  scan_body (S fuel) lines i q = scan_body fuel lines (i + 1) q.
Proof.
  intros Hl Hh Hn. rewrite (scan_body_step fuel lines i l q Hl Hh).
  now rewrite scan_line_untagged by now apply no_marker_start_tag.
Qed.

Lemma other_lines_are_ignored_witness :
  scan_body 2 [lit "1. What is 2+2?"; lit "A) 4"] 1 (new_question (lit "What is 2+2?"))
  = Ok (new_question (lit "What is 2+2?"), 2).
Proof.
  rewrite (other_lines_are_ignored 1 [lit "1. What is 2+2?"; lit "A) 4"] 1
             (lit "A) 4") (new_question (lit "What is 2+2?")) eq_refl eq_refl).
  - reflexivity.
  - vm_compute. repeat split; discriminate.
Defined.

End ParserFacts.

(** ** The quiz settings *)

Module SettingsFacts.
Import Py PyStr Re Text2Qti Text2QtiSpec SettingsSpec PyStrFacts ReFacts Text2QtiFacts.

(** *** One settings line *)

Lemma startswith_app (p s : str) : startswith p (p ++ s) = true.
Proof.
  induction p as [ | a p IH]; [reflexivity | ].
  simpl. rewrite IH. now rewrite Ascii.eqb_refl.
Qed.

Lemma lower_app (a b : str) : lower (a ++ b) = lower a ++ lower b.
Proof. apply map_app. Qed.

Lemma split1_at_first (sep : ascii) (before v : str) :
  ~ In sep before -> split1 sep (before ++ sep :: v) = [before; v].
Proof.
  induction before as [ | c before IH]; intros Hn; simpl.
  - now rewrite Ascii.eqb_refl.
  - destruct (Ascii.eqb_spec c sep) as [-> | Hne].
    + elim Hn. now left.
    + rewrite IH; [reflexivity | ]. intros H. apply Hn. now right.
Qed.

(** A key written in any case and followed by a colon. *)
Lemma key_prefix (key pre : str) :
  ~ In ":"%char key -> lower pre = key ++ [":"%char] ->
  exists before, pre = before ++ [":"%char] /\ ~ In ":"%char before.
Proof.
  intros Hk H. unfold lower in H. apply map_eq_app in H as (before & c & -> & Hb & Hc).
  destruct c as [ | c [ | ? ?]]; try discriminate.
  injection Hc as Hc. apply lower_char_colon in Hc. subst c.
  exists before. split; [reflexivity | ].
  intros Hin. apply Hk. rewrite <- Hb. apply in_map_iff.
  exists ":"%char. split; [reflexivity | exact Hin].
Qed.

Lemma setting_value_of (key pre v : str) :
  ~ In ":"%char key -> lower pre = key ++ [":"%char] ->
  setting_value (pre ++ v) = Ok (strip v).
Proof.
  intros Hk H. destruct (key_prefix key pre Hk H) as (before & -> & Hn).
  unfold setting_value. rewrite <- app_assoc. simpl app.
  now rewrite split1_at_first.
Qed.

Ltac no_colon := vm_compute; intuition discriminate.

(** A line that starts with [Quiz title:], [Quiz description:] or
    [Multiple attempts:], in any mix of upper and lower case, sets that one
    setting to the rest of the line after the first colon, stripped; the
    other two settings and the questions stay as they are. *)
Theorem settings_line (pre v : str) (self : parser) :
  (lower pre = lit "quiz title:" ->
   parse_settings (pre ++ v) self
   = Ok (Parser (strip v) (quiz_description self) (multiple_attempts self)
                (questions self)))
  /\ (lower pre = lit "quiz description:" ->
      parse_settings (pre ++ v) self
      = Ok (Parser (quiz_title self) (strip v) (multiple_attempts self)
                   (questions self)))
  /\ (lower pre = lit "multiple attempts:" ->
      parse_settings (pre ++ v) self
      = Ok (Parser (quiz_title self) (quiz_description self) (strip v)
                   (questions self))).
Proof.
  split; [ | split]; intros H; unfold parse_settings; rewrite lower_app, H.
  - rewrite startswith_app.
    rewrite (setting_value_of (lit "quiz title") pre v ltac:(no_colon) H).
    reflexivity.
  - rewrite startswith_app.
    rewrite (setting_value_of (lit "quiz description") pre v ltac:(no_colon) H).
    reflexivity.
  - rewrite startswith_app.
    rewrite (setting_value_of (lit "multiple attempts") pre v ltac:(no_colon) H).
    reflexivity.
Qed.

Lemma settings_line_witness :
  parse_settings (lit "QUIZ Title: Week 3: review") new_parser
  = Ok (Parser (lit "Week 3: review") [] [] []).
Proof.
  apply (proj1 (settings_line (lit "QUIZ Title:") (lit " Week 3: review") new_parser)).
  reflexivity.
Defined.

(** *** Where the settings are read *)

Lemma header_sets_nothing (l : str) (self : parser) :
  is_header l = true -> parse_settings (strip l) self = Ok self.
Proof.
  unfold is_header. intros H.
  destruct (strip l) as [ | c s] eqn:E; [discriminate H | ].
  assert (Hd : is_digit c = true).
  { destruct (is_digit c) eqn:Hd; [reflexivity | ].
    now rewrite (header_needs_digit c s Hd) in H. }
  assert (Hq : Ascii.eqb "q" (lower_char c) = false) by (revert Hd; each_char c).
  assert (Hm : Ascii.eqb "m" (lower_char c) = false) by (revert Hd; each_char c).
  unfold parse_settings, lower.
  change (lit "quiz title:") with ("q"%char :: lit "uiz title:").
  change (lit "quiz description:") with ("q"%char :: lit "uiz description:").
  change (lit "multiple attempts:") with ("m"%char :: lit "ultiple attempts:").
  cbn [map startswith]. rewrite Hq, Hm. reflexivity.
Qed.

Lemma body_of_after_body (ls : list str) :
  body_of (skipn (length (body_of ls)) ls) = [].
Proof.
  induction ls as [ | l ls IH]; simpl; [reflexivity | ].
  destruct (is_header l) eqn:E; simpl; [now rewrite E | exact IH].
Qed.

Lemma same_settings_refl (a : parser) : same_settings a a.
Proof. repeat split. Qed.

Lemma same_settings_trans (a b c : parser) :
  same_settings a b -> same_settings b c -> same_settings a c.
Proof. intros (H1 & H2 & H3) (H4 & H5 & H6). repeat split; congruence. Qed.

Lemma append_question_settings (q : option question) (self : parser) :
  same_settings (append_question q self) self.
Proof. destruct q; repeat split. Qed.

(** From any index on, the loop of [parse_content] reads settings from the
    lines up to the next header and from no line after it. *)
Lemma parse_loop_settings (fuel : nat) (lines : list str) (i : nat) (self : parser) :
  length lines - i <= fuel ->
  exists self' s,
    parse_loop fuel lines i self = Ok self'
    /\ read_settings (body_of (skipn i lines)) self = Ok s
    /\ same_settings self' s.
Proof.
  revert i self. induction fuel as [ | fuel IH]; intros i self Hf.
  - assert (Hi : length lines <= i) by lia.
    simpl. apply Nat.ltb_ge in Hi as Hlt. rewrite Hlt.
    rewrite skipn_all2 by exact Hi. exists self, self. simpl.
    auto using same_settings_refl.
  - cbn [parse_loop]. destruct (i <? length lines) eqn:Hlt.
    2:{ apply Nat.ltb_ge in Hlt. rewrite skipn_all2 by exact Hlt.
        exists self, self. simpl. auto using same_settings_refl. }
    apply Nat.ltb_lt in Hlt. rewrite (skipn_nth lines i Hlt).
    set (l := nth i lines []). cbv zeta. cbn [body_of].
    assert (Hnth : nth_error lines i = Some l)
      by (subst l; now apply nth_error_nth').
    destruct (str_eqb (strip l) [] || startswith (lit "%") (strip l)) eqn:Eskip.
    + rewrite (skipped_line_is_no_header l Eskip). cbn [read_settings].
      unfold skipped. rewrite Eskip, Nat.add_1_r. apply IH. lia.
    + fold (is_header l). destruct (is_header l) eqn:Eh.
      * rewrite (header_sets_nothing l self Eh). cbn [bind read_settings].
        unfold _parse_question.
        rewrite (parse_question_header _ lines i l Hnth Eh) by lia.
        cbn [bind fst snd].
        set (body := body_of (skipn (S i) lines)).
        set (q := auto_detect (scan_lines body (new_question (header_text l)))).
        destruct (IH (S i + length body) (append_question (Some q) self))
          as (self' & s & Hloop & Hread & Hsame).
        { pose proof (body_of_length (skipn (S i) lines)) as Hb.
          rewrite length_skipn in Hb. subst body. lia. }
        exists self', self. split; [exact Hloop | ]. split; [reflexivity | ].
        replace (skipn (S i + length body) lines)
          with (skipn (length body) (skipn (S i) lines)) in Hread
          by (rewrite skipn_skipn; f_equal; lia).
        subst body. rewrite body_of_after_body in Hread.
        cbn [read_settings] in Hread. injection Hread as <-.
        eapply same_settings_trans; [exact Hsame | ].
        apply (append_question_settings (Some q)).
      * cbn [read_settings]. unfold skipped. rewrite Eskip.
        destruct (parse_settings_ok (strip l) self) as (self1 & -> & _).
        cbn [bind]. rewrite Nat.add_1_r. apply IH. lia.
Qed.

Lemma parse_lines_settings (self : parser) (lines : list str) :
  exists self' s,
    parse_lines self lines = Ok self'
    /\ read_settings (preamble lines)
         (Parser (quiz_title self) (quiz_description self)
                 (multiple_attempts self) []) = Ok s
    /\ same_settings self' s.
Proof.
  unfold parse_lines, preamble.
  destruct (parse_loop_settings (length lines) lines 0
              (Parser (quiz_title self) (quiz_description self)
                      (multiple_attempts self) []))
    as (self' & s & H1 & H2 & H3); [lia | ].
  exists self', s. auto.
Qed.

Lemma parse_content_lines (self : parser) (content : str) :
  parse_content self content
  = (self' <- parse_lines self (split newline content) ;;
     Ok (QuizData (quiz_title self') (quiz_description self')
                  (multiple_attempts self') (questions self'), self')).
Proof. reflexivity. Qed.

(** [parse_content] returns on every text, and the title, the description
    and multiple_attempts it returns are read from the lines before the
    first question header and from no other line: a line [Quiz title: ...]
    after the first header changes nothing. *)
Theorem settings_come_from_preamble (self : parser) (content : str) :
  exists d p s,
    parse_content self content = Ok (d, p)
    /\ read_settings (preamble (split newline content))
         (Parser (quiz_title self) (quiz_description self)
                 (multiple_attempts self) []) = Ok s
    /\ title d = quiz_title s
    /\ description d = quiz_description s
    /\ qd_multiple_attempts d = multiple_attempts s.
Proof.
  rewrite parse_content_lines. unfold parse_lines, preamble.
  destruct (parse_loop_settings (length (split newline content))
              (split newline content) 0
              (Parser (quiz_title self) (quiz_description self)
                      (multiple_attempts self) []))
    as (self' & s & H1 & H2 & H3); [lia | ].
  rewrite H1. cbn [bind]. do 3 eexists.
  split; [reflexivity | ]. split; [exact H2 | ]. exact H3.
Qed.

(** A text whose first line is a question header leaves the title, the
    description and multiple_attempts as the parser object had them,
    whatever follows. *)
Theorem text_without_preamble (self : parser) (content header : str)
  (rest : list str) :
  split newline content = header :: rest ->
  is_header header = true ->
  exists d p,
    parse_content self content = Ok (d, p)
    /\ title d = quiz_title self
    /\ description d = quiz_description self
    /\ qd_multiple_attempts d = multiple_attempts self.
Proof.
  intros Hs Hh. rewrite parse_content_lines, Hs.
  destruct (parse_lines_settings self (header :: rest))
    as (self' & s & H1 & H2 & H3).
  unfold preamble in H2. cbn [body_of] in H2. rewrite Hh in H2.
  cbn [read_settings] in H2. injection H2 as <-.
  rewrite H1. cbn [bind]. do 2 eexists. split; [reflexivity | ]. exact H3.
Qed.

Lemma text_without_preamble_witness :
  exists d p,
    parse_content (Parser (lit "Week 1") (lit "old") [] [])
      (lit "1. What is 2+2?" ++ [newline] ++ lit "Quiz title: Week 2"
       ++ [newline] ++ lit "*a) 4")
    = Ok (d, p)
    /\ title d = lit "Week 1" /\ description d = lit "old"
    /\ qd_multiple_attempts d = [].
Proof.
  apply (text_without_preamble (Parser (lit "Week 1") (lit "old") [] [])
           (lit "1. What is 2+2?" ++ [newline] ++ lit "Quiz title: Week 2"
            ++ [newline] ++ lit "*a) 4")
           (lit "1. What is 2+2?")
           [lit "Quiz title: Week 2"; lit "*a) 4"]);
    reflexivity.
Defined.

(** A parser object can be used again: the questions [parse_content]
    returns are those of the text alone, whatever the object parsed
    before. *)
Theorem questions_do_not_depend_on_parser (self1 self2 : parser) (content : str) :
  exists d1 p1 d2 p2,
    parse_content self1 content = Ok (d1, p1)
    /\ parse_content self2 content = Ok (d2, p2)
    /\ qd_questions d1 = qd_questions d2
    /\ qd_questions d1 = block_questions (split newline content).
Proof.
  destruct (parse_content_spec self1 content) as (p1 & H1 & Q1).
  destruct (parse_content_spec self2 content) as (p2 & H2 & Q2).
  do 4 eexists. split; [exact H1 | ]. split; [exact H2 | ].
  cbn [qd_questions]. split; congruence.
Qed.

End SettingsFacts.

(** ** White space at the ends of a line *)

Module StripFacts.
Import Py PyStr Re Text2Qti Text2QtiSpec SettingsSpec PyStrFacts ReFacts Text2QtiFacts.

Section TwoTexts.

Variables lines lines' : list str.
Hypothesis same_stripped : map strip lines = map strip lines'.

Lemma same_length : length lines = length lines'.
Proof. rewrite <- (length_map strip lines), same_stripped. apply length_map. Qed.

Lemma same_nth (i : nat) : strip (nth i lines []) = strip (nth i lines' []).
Proof.
  change (strip (nth i lines [])) with (strip (nth i lines (@nil ascii))).
  rewrite <- (map_nth strip lines [] i), <- (map_nth strip lines' [] i).
  now rewrite same_stripped.
Qed.

Lemma same_nth_error (i : nat) :
  option_map strip (nth_error lines i) = option_map strip (nth_error lines' i).
Proof. rewrite <- !nth_error_map. now rewrite same_stripped. Qed.

Lemma scan_body_same (fuel i : nat) (q : question) :
  scan_body fuel lines i q = scan_body fuel lines' i q.
Proof.
  revert i q. induction fuel as [ | fuel IH]; intros i q;
    cbn [scan_body]; rewrite <- same_length; [reflexivity | ].
  destruct (i <? length lines); [ | reflexivity].
  rewrite <- (same_nth i). destruct (is_match _ _); [reflexivity | apply IH].
Qed.

Lemma parse_question_same (fuel i : nat) :
  parse_question_fuel fuel lines i = parse_question_fuel fuel lines' i.
Proof.
  unfold parse_question_fuel. pose proof (same_nth_error i) as H.
  destruct (nth_error lines i) as [l | ], (nth_error lines' i) as [l' | ];
    try discriminate H; [ | reflexivity].
  injection H as H. cbv zeta. rewrite <- H.
  destruct (re_match _ _); [ | reflexivity].
  now rewrite scan_body_same.
Qed.

Lemma parse_loop_same (fuel i : nat) (self : parser) :
  parse_loop fuel lines i self = parse_loop fuel lines' i self.
Proof.
  revert i self. induction fuel as [ | fuel IH]; intros i self;
    cbn [parse_loop]; rewrite <- same_length; [reflexivity | ].
  destruct (i <? length lines); [ | reflexivity].
  rewrite <- (same_nth i). cbv zeta.
  destruct (_ || _); [apply IH | ].
  destruct (parse_settings _ _) as [self1 | e | ]; cbn [bind]; try reflexivity.
  destruct (is_match _ _); [ | apply IH].
  unfold _parse_question. rewrite <- same_length, parse_question_same.
  destruct (parse_question_fuel _ _ _) as [r | e | ]; cbn [bind];
    try reflexivity.
  apply IH.
Qed.

End TwoTexts.

(** Only the stripped lines count: two texts whose lines are the same
    after [strip()], such as a text with LF and the same text with CRLF
    line ends, or with other indentation, give the same result. *)
Theorem only_stripped_lines_count (self : parser) (content content' : str) :
  map strip (split newline content) = map strip (split newline content') ->
  parse_content self content = parse_content self content'.
Proof.
  intros H. unfold parse_content. cbv zeta.
  rewrite (same_length _ _ H). now rewrite (parse_loop_same _ _ H).
Qed.

Lemma only_stripped_lines_count_witness :
  parse_content new_parser
    (lit "Quiz title: T" ++ [ascii_of_N 13; newline] ++ lit "1. Q?"
     ++ [ascii_of_N 13; newline] ++ lit "  *a) yes" ++ [ascii_of_N 13])
  = parse_content new_parser
      (lit "Quiz title: T" ++ [newline] ++ lit "1. Q?" ++ [newline]
       ++ lit "*a) yes").
Proof.
  apply only_stripped_lines_count. reflexivity.
Defined.

End StripFacts.

(** ** More of the upload *)

Module UploadFacts.
Import Py PyFacts PyStr Text2Qti Text2QtiSpec QuizCreator QuizCreatorSpec UploadSpec.
Import Text2QtiFacts QuizCreatorFacts.

Lemma sum_points_from (qs : list question) (z : Z) :
  Forall well_formed qs ->
  fold_left (fun acc q => Qplus acc (q_points q)) qs (inject_Z z)
  = inject_Z (z + Z.of_nat (length qs)).
Proof.
  intros H. revert z. induction H as [ | q qs (Hp & _) _ IH]; intros z.
  - simpl. now rewrite Z.add_0_r.
  - cbn [fold_left length]. rewrite Hp.
    replace (Qplus (inject_Z z) 1) with (inject_Z (z + 1)).
    + rewrite IH. f_equal. lia.
    + unfold Qplus, inject_Z. simpl. f_equal. lia.
Qed.

(** Every parsed question counts one point. *)
Lemma sum_points_count (qs : list question) :
  Forall well_formed qs -> sum_points qs = inject_Z (Z.of_nat (length qs)).
Proof. intros H. unfold sum_points. exact (sum_points_from qs 0 H). Qed.

Lemma block_questions_count (ls : list str) :
  length (block_questions ls) = length (filter is_header ls).
Proof.
  rewrite <- (length_map q_text), block_questions_text. apply length_map.
Qed.

Section World.

Variable response : Type.
Variable response_id : response -> option Z.
Variable response_title : response -> option str.
Variable read_file : string -> reply str.
Variable create_quiz :
  string -> string -> Z -> str -> str -> Q -> str -> reply response.
Variable _create_multiple_choice_question :
  string -> string -> Z -> Z -> question -> nat -> reply response.
Variable _create_multiple_answer_question :
  string -> string -> Z -> Z -> question -> nat -> reply response.
Variable _create_true_false_question :
  string -> string -> Z -> Z -> question -> nat -> reply response.
Variable _create_essay_question :
  string -> string -> Z -> Z -> question -> nat -> reply response.
Variable getenv : string -> option string.
Variable int_of_string : string -> option Z.
Variable path_exists : string -> bool.

Local Abbreviation add_questions :=
  (add_questions response _create_multiple_choice_question
     _create_multiple_answer_question _create_true_false_question
     _create_essay_question).
Local Abbreviation created_from :=
  (created_from response _create_multiple_choice_question
     _create_multiple_answer_question _create_true_false_question
     _create_essay_question).
Local Abbreviation create_quiz_from_text2qti_file :=
  (create_quiz_from_text2qti_file response response_id read_file create_quiz
     _create_multiple_choice_question _create_multiple_answer_question
     _create_true_false_question _create_essay_question).
Local Abbreviation main :=
  (main response response_id response_title read_file create_quiz
     _create_multiple_choice_question _create_multiple_answer_question
     _create_true_false_question _create_essay_question getenv int_of_string
     path_exists).

Lemma parsed_ok (content : str) :
  exists p,
    parse_content new_parser content = Ok (parsed content, p)
    /\ qd_questions (parsed content) = block_questions (split newline content).
Proof.
  destruct (parse_content_spec new_parser content) as (p & Hp & Hq).
  exists p. unfold parsed. rewrite Hp. split; [reflexivity | exact Hq].
Qed.

(** The whole of [create_quiz_from_text2qti_file], case by case. *)
Lemma upload_run (file_path : string) (course_id : Z) (canvas_url api_token : string) :
  create_quiz_from_text2qti_file file_path course_id canvas_url api_token
  = match read_file file_path with
    | Failure e => ([], Raise e)
    | Answer content =>
        let qd := parsed content in
        let qs := qd_questions qd in
        match create_quiz canvas_url api_token course_id (title qd)
                (description qd) (sum_points qs) (qd_multiple_attempts qd) with
        | Failure e => ([], Raise e)
        | Answer new_quiz =>
            match response_id new_quiz with
            | None => ([], Raise (KeyError "id"))
            | Some id =>
                (MsgQuizCreated (title qd) id
                   :: fst (add_questions canvas_url api_token course_id id qs 1 []),
                 Ok (Creation new_quiz
                       (created_from canvas_url api_token course_id id 1 qs)
                       (length (created_from canvas_url api_token course_id id 1 qs))
                       (sum_points qs)))
            end
        end
    end.
Proof.
  unfold QuizCreator.create_quiz_from_text2qti_file.
  destruct (read_file file_path) as [content | e]; [ | reflexivity].
  unfold call at 1. cbn [io_bind].
  destruct (parsed_ok content) as (p & Hp & _). rewrite Hp.
  unfold lift. cbn [io_bind fst]. cbv zeta.
  destruct (create_quiz _ _ _ _ _ _ _) as [new_quiz | e]; [ | reflexivity].
  unfold call, get_id. cbn [io_bind].
  destruct (response_id new_quiz) as [id | ]; [ | reflexivity].
  unfold ret, emit. cbn [io_bind app].
  pose proof (add_questions_result response _create_multiple_choice_question
                _create_multiple_answer_question _create_true_false_question
                _create_essay_question canvas_url api_token course_id id
                (qd_questions (parsed content)) 1 []) as Hres.
  cbn [app] in Hres.
  destruct (add_questions canvas_url api_token course_id id
              (qd_questions (parsed content)) 1 []) as [log res].
  cbn [snd] in Hres. subst res. cbn [io_bind fst app]. now rewrite app_nil_r.
Qed.

(** ['total_points'] is one point for each question header of the file,
    also for the questions whose creation failed, which ['questions'] and
    ['total_questions'] leave out. *)
Theorem total_points_counts_parsed (file_path : string) (course_id : Z)
  (canvas_url api_token : string) (content : str) (r : creation response) :
  read_file file_path = Answer content ->
  snd (create_quiz_from_text2qti_file file_path course_id canvas_url api_token)
  = Ok r ->
  total_points r
  = inject_Z (Z.of_nat (length (filter is_header (split newline content))))
  /\ total_questions r = length (cr_questions r)
  /\ total_questions r <= length (filter is_header (split newline content)).
Proof.
  intros Hread Hrun. rewrite upload_run, Hread in Hrun. cbv zeta in Hrun.
  destruct (parsed_ok content) as (p & _ & Hq).
  destruct (create_quiz _ _ _ _ _ _ _) as [new_quiz | e]; [ | discriminate].
  destruct (response_id new_quiz) as [id | ]; [ | discriminate].
  cbn [snd] in Hrun. injection Hrun as <-.
  cbn [total_points total_questions cr_questions].
  rewrite sum_points_count, Hq, block_questions_count.
  - split; [reflexivity | ]. split; [reflexivity | ].
    rewrite <- block_questions_count.
    rewrite (created_from_length response).
    generalize 1. generalize (block_questions (split newline content)).
    intros qs. induction qs as [ | q qs IH]; intros i; simpl; [lia | ].
    specialize (IH (S i)).
    destruct (QuizCreatorSpec.succeeds _ _ _ _ _ _ _ _ _ i q); lia.
  - rewrite Hq. apply block_questions_well_formed.
Qed.



Local Abbreviation print_summary :=
  (print_summary response response_id response_title).


(** With the three variables set and a course id that is a number, a file
    name that does not exist makes [main] print the two lines about the
    configuration and [No file provided.], and nothing is read or sent. *)
Theorem missing_file_is_reported (filename : string) (course_id : Z) :
  env_set getenv "CANVAS_URL" = true ->
  env_set getenv "CANVAS_API_TOKEN" = true ->
  env_set getenv "CANVAS_COURSE_ID" = true ->
  int_of_string (env_value getenv "CANVAS_COURSE_ID") = Some course_id ->
  path_exists filename = false ->
  main filename
  = ([MsgUsingCanvasUrl (env_value getenv "CANVAS_URL");
      MsgUsingCourseId course_id; MsgNoFileProvided], Ok tt).
Proof.
  intros H1 H2 H3 H4 H5. unfold QuizCreator.main.
  rewrite H1, H2, H3, H4, H5. cbn [negb]. now rewrite andb_false_r.
Qed.

End World.

Open Scope string_scope.

Lemma total_points_counts_parsed_witness :
  exists r,
    snd sample_upload = Ok r
    /\ total_points r = inject_Z 3
    /\ total_questions r = 2.
Proof.
  assert (H : exists r, snd sample_upload = Ok r /\ total_questions r = 2)
    by (eexists; split; reflexivity).
  destruct H as (r & Hr & Ht). exists r. split; [exact Hr | ].
  split; [ | exact Ht].
  apply (total_points_counts_parsed sample_response sample_id sample_read_file
           sample_create_quiz sample_accept sample_accept sample_accept
           sample_refuse "quiz.txt" 12345%Z "https://canvas.example.edu"
           "secret" sample_content r eq_refl Hr).
Defined.


Lemma missing_file_is_reported_witness :
  QuizCreator.main sample_response sample_id sample_title sample_read_file
    sample_create_quiz sample_accept sample_accept sample_accept sample_refuse
    env_complete sample_int no_such_file "quiz.txt"
  = ([MsgUsingCanvasUrl "https://canvas.example.edu"; MsgUsingCourseId 12345;
      MsgNoFileProvided], Ok tt).
Proof.
  apply (missing_file_is_reported sample_response sample_id sample_title
           sample_read_file sample_create_quiz sample_accept sample_accept
           sample_accept sample_refuse env_complete sample_int no_such_file
           "quiz.txt" 12345%Z); reflexivity.
Defined.

Close Scope string_scope.

End UploadFacts.

(** ** More of the module walker *)

Module WalkerFacts.
Import Py PyFacts ModuleItems ModuleItemsSpec WalkerSpec ModuleItemsFacts.

Lemma calls_app (l1 l2 : list event) : calls (l1 ++ l2) = calls l1 ++ calls l2.
Proof. apply flat_map_app. Qed.

Lemma calls_cons (e : event) (log : list event) :
  calls (e :: log)
  = match handed_over e with
    | Some item => item :: calls log
    | None => calls log
    end.
Proof. unfold calls. simpl. now destruct (handed_over e). Qed.

Lemma no_calls (log : list event) : Forall not_a_call log -> calls log = [].
Proof.
  induction 1 as [ | e log He _ IH]; [reflexivity | ].
  unfold calls in *. simpl. unfold not_a_call in He. now rewrite He, IH.
Qed.

Lemma writes_app (l1 l2 : list event) : writes (l1 ++ l2) = writes l1 + writes l2.
Proof. unfold writes. now rewrite filter_app, length_app. Qed.

Section World.

Variable get_file : Z -> reply file_obj.
Variable get_page : string -> reply page.
Variable file_download : file_obj -> string -> reply unit.
Variable write_text : string -> reply unit.
Variable mkdir : string -> reply unit.
Variable get_modules : reply (list canvas_module).
Variable make_sortable_filename :
  string -> string -> Z -> Z -> string -> reply string.
Variable path_suffix : string -> string.
Variable path_join : string -> string -> string.

Local Abbreviation download_file :=
  (download_file get_file file_download make_sortable_filename path_suffix path_join).
Local Abbreviation download_page :=
  (download_page get_page write_text make_sortable_filename path_join).
Local Abbreviation process_item :=
  (process_item get_file get_page file_download write_text
                make_sortable_filename path_suffix path_join).
Local Abbreviation process_modules :=
  (process_modules get_file get_page file_download write_text
                   make_sortable_filename path_suffix path_join).
Local Abbreviation download_course_modules :=
  (download_course_modules get_file get_page file_download write_text mkdir
                           get_modules make_sortable_filename path_suffix path_join).

Ltac run_io :=
  repeat progress (cbn [call emit ret raise attr snd fst app];
                   rewrite ?io_bind_snd, ?io_bind_fst, ?try_except_fst,
                           ?try_except_snd).

Ltac no_write := cbn; split; [lia | discriminate].

(** *** One download *)

(** [download_file] never lets an exception out and asks the disk for at
    most one file; it asks for one only if the item has a [content_id],
    the service knows the file and the module has a name and a position. *)
Theorem download_file_writes item module dir mid pos :
  let out := download_file item module dir mid pos in
  snd out = Ok tt
  /\ writes (fst out) <= 1
  /\ (writes (fst out) = 1 ->
      exists cid f name mpos,
        item_content_id item = Some cid /\ cid <> 0%Z
        /\ get_file cid = Answer f
        /\ module_name module = Some name
        /\ module_position module = Some mpos).
Proof.
  cbv zeta. split; [apply download_file_returns | ].
  unfold ModuleItems.download_file.
  destruct (item_content_id item) as [[ | p | p] | ] eqn:Ec.
  1, 4: cbn; split; [lia | discriminate].
  all: run_io; destruct (get_file _) as [f | e] eqn:Eg; run_io;
    [ | no_write ].
  all: destruct (module_name module) as [name | ]; run_io; [ | no_write ].
  all: destruct (module_position module) as [mpos | ]; run_io; [ | no_write ].
  all: destruct (make_sortable_filename _ _ _ _ _); run_io; [ | no_write ].
  all: destruct (file_download _ _) as [[] | e]; run_io; cbn;
    (split; [lia | ]); intros _;
    eexists; exists f, name, mpos; repeat split; try discriminate; exact Eg.
Qed.

(** [download_page] never lets an exception out and asks the disk for at
    most one file; it asks for one only if the item has a [page_url], the
    service knows the page and the module has a name and a position. *)
Theorem download_page_writes item module dir mid pos :
  let out := download_page item module dir mid pos in
  snd out = Ok tt
  /\ writes (fst out) <= 1
  /\ (writes (fst out) = 1 ->
      exists url p name mpos,
        item_page_url item = Some url /\ url <> ""%string
        /\ get_page url = Answer p
        /\ module_name module = Some name
        /\ module_position module = Some mpos).
Proof.
  cbv zeta. split; [apply download_page_returns | ].
  unfold ModuleItems.download_page.
  destruct (item_page_url item) as [[ | c u] | ] eqn:Ec.
  1, 3: cbn; split; [lia | discriminate].
  run_io; destruct (get_page _) as [p | e] eqn:Eg; run_io; [ | no_write ].
  destruct (module_name module) as [name | ]; run_io; [ | no_write ].
  destruct (module_position module) as [mpos | ]; run_io; [ | no_write ].
  destruct (make_sortable_filename _ _ _ _ _); run_io; [ | no_write ].
  destruct (write_text _) as [[] | e]; run_io; cbn;
    (split; [lia | ]); intros _;
    eexists; exists p, name, mpos; repeat split; try discriminate; exact Eg.
Qed.

(** *** The walk *)

Ltac log_walk :=
  repeat first
    [ apply io_bind_Forall; [ | intros ? ]
    | apply try_except_Forall; [ | intros ? ]
    | apply emit_Forall
    | apply call_Forall
    | apply ret_Forall
    | apply raise_Forall
    | apply attr_Forall ].

Lemma download_file_inner item module dir mid pos :
  Forall inner_event (fst (download_file item module dir mid pos)).
Proof.
  unfold ModuleItems.download_file.
  destruct (item_content_id item) as [[ | cid | cid] | ]; log_walk; exact I.
Qed.

Lemma download_page_inner item module dir mid pos :
  Forall inner_event (fst (download_page item module dir mid pos)).
Proof.
  unfold ModuleItems.download_page.
  destruct (item_page_url item) as [[ | c u] | ]; log_walk; exact I.
Qed.

Lemma inner_is_expected (log : list event) :
  Forall inner_event log -> Forall expected log /\ calls log = [].
Proof.
  induction 1 as [ | e log He _ [IH1 IH2]]; [split; [constructor | reflexivity] | ].
  split.
  - constructor; [ | exact IH1]. destruct e; try exact I; destruct He.
  - unfold calls in *. simpl. rewrite IH2.
    destruct e; try reflexivity; destruct He.
Qed.

(** An item to download is handed to the function for its type, once. *)
Lemma process_item_calls module dir mid item :
  to_download item = true ->
  calls (fst (process_item module dir mid item)) = [item]
  /\ Forall expected (fst (process_item module dir mid item)).
Proof.
  intros Hd. apply to_download_spec in Hd as [Ht _].
  unfold ModuleItems.process_item. cbv zeta.
  rewrite io_bind_fst. cbn [emit fst snd]. rewrite try_except_fst.
  pose proof (download_file_inner item module dir mid
                (getattr (item_position item) 0%Z)) as Hf.
  pose proof (download_page_inner item module dir mid
                (getattr (item_position item) 0%Z)) as Hp.
  apply inner_is_expected in Hf as [Hf1 Hf2].
  apply inner_is_expected in Hp as [Hp1 Hp2].
  destruct Ht as [Ht | [Ht | Ht]]; rewrite Ht; cbn [getattr];
    simpl (String.eqb _ _); cbv iota;
    rewrite io_bind_snd, io_bind_fst; cbn [emit fst snd];
    rewrite ?download_file_returns, ?download_page_returns;
    rewrite app_nil_r; cbn [app]; rewrite !calls_cons; cbn [handed_over];
    rewrite ?Hf2, ?Hp2; (split; [reflexivity | ]);
    (constructor; [exact I | ]); (constructor; [simpl; auto | assumption]).
Qed.

Lemma for_each_calls module dir mid (items : list module_item) :
  Forall (fun it => to_download it = true) items ->
  calls (fst (for_each (process_item module dir mid) items)) = items
  /\ Forall expected (fst (for_each (process_item module dir mid) items)).
Proof.
  induction 1 as [ | item items Hd _ [IH1 IH2]]; [split; [reflexivity | constructor] | ].
  cbn [for_each]. rewrite io_bind_fst, process_item_returns.
  destruct (process_item_calls module dir mid item Hd) as [H1 H2].
  rewrite calls_app, H1, IH1. split; [reflexivity | ].
  apply Forall_app. auto.
Qed.

Lemma process_modules_walk dir (modules : list canvas_module)
  (all_items : list module_item) :
  snd (process_modules dir modules all_items) = listing_result modules all_items
  /\ Forall expected (fst (process_modules dir modules all_items))
  /\ (forall items,
        snd (process_modules dir modules all_items) = Ok items ->
        items = all_items ++ calls (fst (process_modules dir modules all_items))).
Proof.
  revert all_items. induction modules as [ | m modules IH]; intros all_items.
  - cbn. repeat split; [constructor | ].
    intros items H. injection H as <-. now rewrite app_nil_r.
  - rewrite process_modules_cons.
    rewrite io_bind_snd, io_bind_fst. cbn [emit fst snd].
    rewrite io_bind_snd, io_bind_fst. cbn [call fst snd listing_result app].
    destruct (get_module_items m) as [items | e].
    + rewrite io_bind_snd, io_bind_fst.
      rewrite for_each_returns by apply process_item_returns.
      destruct (for_each_calls m dir (getattr (module_id m) 0%Z)
                  (filter to_download items) (filter_to_download items))
        as [Hc He].
      destruct (IH (all_items ++ filter to_download items)) as (IH1 & IH2 & IH3).
      split; [exact IH1 | ]. split.
      * constructor; [exact I | ]. apply Forall_app. auto.
      * intros its Hits. rewrite calls_cons. cbn [handed_over].
        rewrite calls_app, Hc, (IH3 its Hits). now rewrite app_assoc.
    + split; [reflexivity | ]. split; [repeat constructor | ].
      intros its Hits. discriminate Hits.
Qed.

Lemma walk_log dir :
  fst (download_course_modules dir)
  = Mkdir dir
    :: match mkdir dir, get_modules with
       | Answer _, Answer modules => fst (process_modules dir modules [])
       | _, _ => []
       end.
Proof.
  unfold ModuleItems.download_course_modules.
  rewrite io_bind_fst. cbn [emit fst snd]. rewrite io_bind_fst.
  cbn [call fst snd app]. destruct (mkdir dir) as [[] | e]; [ | reflexivity].
  rewrite io_bind_fst. cbn [call fst snd app].
  now destruct get_modules.
Qed.

Lemma walk_returns dir (items : list module_item) :
  snd (download_course_modules dir) = Ok items ->
  exists modules,
    get_modules = Answer modules
    /\ snd (process_modules dir modules []) = Ok items
    /\ fst (download_course_modules dir)
       = Mkdir dir :: fst (process_modules dir modules []).
Proof.
  rewrite walk_log. unfold ModuleItems.download_course_modules.
  rewrite io_bind_snd. cbn [emit snd]. rewrite io_bind_snd. cbn [call snd].
  destruct (mkdir dir) as [[] | e]; [ | discriminate].
  rewrite io_bind_snd. cbn [call snd].
  destruct get_modules as [modules | e]; [ | discriminate].
  intros H. exists modules. auto.
Qed.

(** The list [download_course_modules] returns is decided by the listings
    alone: it holds the items to download of every module, in order,
    whether or not their download succeeded; a directory that cannot be
    made or a listing that fails ends the walk with that exception. *)
Theorem returned_items_follow_listings dir :
  snd (download_course_modules dir)
  = match mkdir dir with
    | Failure e => Raise e
    | Answer _ =>
        match get_modules with
        | Failure e => Raise e
        | Answer modules => listing_result modules []
        end
    end.
Proof.
  unfold ModuleItems.download_course_modules.
  rewrite io_bind_snd. cbn [emit snd]. rewrite io_bind_snd. cbn [call snd].
  destruct (mkdir dir) as [[] | e]; [ | reflexivity].
  rewrite io_bind_snd. cbn [call snd].
  destruct get_modules as [modules | e]; [ | reflexivity].
  apply process_modules_walk.
Qed.

(** Every item [download_course_modules] returns was handed to
    [download_file] or [download_page] exactly once, and in the order of
    the returned list. *)
Theorem returned_items_are_handed_over_once dir (items : list module_item) :
  snd (download_course_modules dir) = Ok items ->
  calls (fst (download_course_modules dir)) = items.
Proof.
  intros H. destruct (walk_returns dir items H) as (modules & _ & Hm & ->).
  rewrite calls_cons. cbn [handed_over].
  destruct (process_modules_walk dir modules []) as (_ & _ & H3).
  now rewrite (H3 items Hm).
Qed.

(** The walk hands File and Attachment items to [download_file] and Page
    items to [download_page]; the branch that prints [Skipping ...] and
    the [except] clause around the two calls are never taken. *)
Theorem walk_never_skips dir :
  Forall expected (fst (download_course_modules dir)).
Proof.
  rewrite walk_log. constructor; [exact I | ].
  destruct (mkdir dir) as [[] | e]; [ | constructor].
  destruct get_modules as [modules | e]; [ | constructor].
  apply process_modules_walk.
Qed.

End World.

Lemma download_file_writes_witness :
  exists cid f name mpos,
    item_content_id sample_file = Some cid /\ cid <> 0%Z
    /\ sample_get_file cid = Answer f
    /\ module_name week_one = Some name
    /\ module_position week_one = Some mpos.
Proof.
  apply (proj2 (proj2
           (download_file_writes sample_get_file sample_file_download
              sample_sortable sample_suffix sample_join sample_file week_one
              "downloads"%string 10%Z 1%Z))).
  reflexivity.
Defined.

Lemma download_page_writes_witness :
  exists url p name mpos,
    item_page_url welcome_page = Some url /\ url <> ""%string
    /\ sample_get_page url = Answer p
    /\ module_name week_one = Some name
    /\ module_position week_one = Some mpos.
Proof.
  apply (proj2 (proj2
           (download_page_writes sample_get_page sample_write_text
              sample_sortable sample_join welcome_page week_one
              "downloads"%string 10%Z 2%Z))).
  reflexivity.
Defined.

Lemma returned_items_are_handed_over_once_witness :
  calls (fst sample_run) = [sample_file; sample_bare_page].
Proof.
  apply (returned_items_are_handed_over_once sample_get_file sample_get_page
           sample_file_download sample_write_text sample_mkdir sample_modules
           sample_sortable sample_suffix sample_join "downloads"%string).
  reflexivity.
Defined.

End WalkerFacts.

(** ** Sortable file names *)

Module FilenamesFacts.
Import PyStr PyFormat Filenames FilenamesSpec PyStrFacts.

Example sortable_example :
  make_sortable_filename cut_at_last_dot (lit "Week 1: intro/notes.pdf")
    (lit "Getting  started") 2 13 []
  = lit "002_Getting_started_013_Week_1_intro_notes.pdf".
Proof. reflexivity. Qed.

(** *** No character of the class is left *)

Lemma sub_runs_safe (in_run : bool) (s : str) : safe (sub_runs in_run s).
Proof.
  unfold safe. revert in_run. induction s as [ | c s IH]; intros in_run; simpl.
  - constructor.
  - destruct (unsafe_char c) eqn:E.
    + destruct in_run; [apply IH | constructor; [reflexivity | apply IH]].
    + constructor; [exact E | apply IH].
Qed.

Lemma safe_app (a b : str) : safe a -> safe b -> safe (a ++ b).
Proof. unfold safe. intros Ha Hb. apply Forall_app. auto. Qed.

Lemma safe_firstn (n : nat) (s : str) : safe s -> safe (firstn n s).
Proof.
  unfold safe. intros H. revert n.
  induction H as [ | c s Hc _ IH]; intros [ | n]; simpl; constructor; auto.
Qed.

Lemma safe_slice (k : Z) (s : str) : safe s -> safe (slice_to k s).
Proof. intros H. unfold slice_to. destruct (0 <=? k)%Z; now apply safe_firstn. Qed.

Lemma safe_dropwhile (p : ascii -> bool) (s : str) : safe s -> safe (dropwhile p s).
Proof.
  unfold safe. induction 1 as [ | c s Hc Hs IH]; simpl; [constructor | ].
  destruct (p c); [exact IH | now constructor].
Qed.

Lemma safe_rev (s : str) : safe s -> safe (rev s).
Proof. unfold safe. apply Forall_rev. Qed.

Lemma safe_strip (s : str) : safe s -> safe (strip s).
Proof.
  intros H. unfold strip, rstrip, lstrip.
  now apply safe_rev, safe_dropwhile, safe_rev, safe_dropwhile.
Qed.

Lemma safe_uint (d : Decimal.uint) :
  safe (list_ascii_of_string (NilEmpty.string_of_uint d)).
Proof. unfold safe. induction d; simpl; constructor; auto. Qed.

Lemma safe_repeat_zero (n : nat) : safe (repeat "0"%char n).
Proof.
  unfold safe. apply Forall_forall. intros c Hc. apply repeat_spec in Hc.
  now subst.
Qed.

Lemma safe_format (n : Z) : safe (format_03d n).
Proof.
  unfold format_03d, zfill, digits. destruct (n <? 0)%Z.
  - constructor; [reflexivity | ]. apply safe_app;
      [apply safe_repeat_zero | apply safe_uint].
  - apply safe_app; [apply safe_repeat_zero | apply safe_uint].
Qed.

(** *** The order of strings *)

Lemma lex_ltb_common (p a b : str) : lex_ltb (p ++ a) (p ++ b) = lex_ltb a b.
Proof.
  induction p as [ | c p IH]; [reflexivity | ].
  simpl. now rewrite N.ltb_irrefl, N.eqb_refl, IH.
Qed.

Lemma lex_ltb_same_length (u v x y : str) :
  length u = length v -> lex_ltb u v = true ->
  lex_ltb (u ++ x) (v ++ y) = true.
Proof.
  revert v. induction u as [ | c u IH]; intros [ | d v] Hl H;
    try discriminate Hl; try discriminate H.
  simpl in *. injection Hl as Hl.
  apply orb_true_iff in H as [H | H]; [now rewrite H | ].
  apply andb_true_iff in H as [H1 H2]. rewrite H1, (IH v Hl H2).
  now rewrite orb_true_r.
Qed.

Lemma lex_ltb_trans (a b c : str) :
  lex_ltb a b = true -> lex_ltb b c = true -> lex_ltb a c = true.
Proof.
  revert b c. induction a as [ | x a IH]; intros [ | y b] [ | z c] H1 H2;
    try discriminate H1; try discriminate H2; try reflexivity.
  simpl in *.
  apply orb_true_iff in H1 as [H1 | H1]; apply orb_true_iff in H2 as [H2 | H2].
  - apply N.ltb_lt in H1, H2. apply orb_true_iff. left. apply N.ltb_lt. lia.
  - apply andb_true_iff in H2 as [H2 _]. apply N.eqb_eq in H2.
    rewrite <- H2, H1. reflexivity.
  - apply andb_true_iff in H1 as [H1 _]. apply N.eqb_eq in H1.
    rewrite H1, H2. reflexivity.
  - apply andb_true_iff in H1 as [H1 H1'], H2 as [H2 H2'].
    apply N.eqb_eq in H1, H2. rewrite H1, H2, N.eqb_refl, (IH b c H1' H2').
    now rewrite orb_true_r.
Qed.

Lemma lex_ltb_irrefl (a : str) : lex_ltb a a = false.
Proof.
  induction a as [ | x a IH]; [reflexivity | ].
  simpl. now rewrite N.ltb_irrefl, N.eqb_refl, IH.
Qed.

(** *** Three digits *)

(** Each number from 0 to 999 is written with three characters, and
    before its successor in the order of strings. *)
Lemma format_table :
  forallb (fun n =>
             (length (format_03d (Z.of_nat n)) =? 3)
             && ((n =? 999)
                 || lex_ltb (format_03d (Z.of_nat n))
                            (format_03d (Z.of_nat (S n)))))
          (seq 0 1000) = true.
Proof. vm_compute. reflexivity. Qed.

Lemma format_row (n : nat) :
  n <= 999 ->
  length (format_03d (Z.of_nat n)) = 3
  /\ (n < 999 ->
      lex_ltb (format_03d (Z.of_nat n)) (format_03d (Z.of_nat (S n))) = true).
Proof.
  intros Hn. pose proof format_table as H. rewrite forallb_forall in H.
  specialize (H n). rewrite in_seq in H.
  destruct (andb_prop _ _ (H ltac:(lia))) as [H1 H2].
  apply Nat.eqb_eq in H1. split; [exact H1 | ]. intros Hlt.
  apply orb_true_iff in H2 as [H2 | H2]; [ | exact H2].
  apply Nat.eqb_eq in H2. lia.
Qed.

Lemma format_length (z : Z) : three_digits z -> length (format_03d z) = 3.
Proof.
  intros [H1 H2]. rewrite <- (Z2Nat.id z) by exact H1.
  apply format_row. lia.
Qed.

Lemma format_increasing (a b : Z) :
  three_digits a -> three_digits b -> (a < b)%Z ->
  lex_ltb (format_03d a) (format_03d b) = true.
Proof.
  intros [Ha _] [_ Hb] Hlt.
  rewrite <- (Z2Nat.id a) by exact Ha. rewrite <- (Z2Nat.id b) by lia.
  assert (Hn : Z.to_nat a < Z.to_nat b <= 999) by lia.
  revert Hn. generalize (Z.to_nat a) as n, (Z.to_nat b) as m. clear.
  intros n m [Hlt Hm]. induction m as [ | m IH]; [lia | ].
  destruct (Nat.eq_dec n m) as [-> | Hne].
  - apply format_row; lia.
  - eapply lex_ltb_trans; [apply IH; lia | apply format_row; lia].
Qed.

Section Paths.

Variable splitext : str -> str * str.

Local Abbreviation make_sortable_filename := (make_sortable_filename splitext).

(** The name is a base, in which no space and none of the characters
    [< > : / \ | ? *] or the double quote is left, followed by the
    extension: the one given or, when none is given, the one of the title,
    which is not cleaned. *)
Theorem base_name_is_clean (title module_title : str)
  (module_position position : Z) (extension : str) :
  exists base,
    make_sortable_filename title module_title module_position position extension
    = base ++ chosen_extension splitext title extension
    /\ safe base.
Proof.
  unfold Filenames.make_sortable_filename, chosen_extension.
  destruct (splitext title) as [basefilename ogextension]. cbv zeta. cbn [snd].
  eexists. split; [reflexivity | ].
  assert (Hu : safe (lit "_")) by (unfold safe; repeat constructor).
  destruct (200 <? _);
    repeat first
      [ exact Hu | apply safe_format | apply safe_slice | apply safe_strip
      | apply sub_runs_safe | apply safe_app ].
Qed.

Lemma slice_to_length (k : nat) (s : str) :
  length (slice_to (Z.of_nat k) s) <= k.
Proof.
  unfold slice_to. destruct (0 <=? Z.of_nat k)%Z eqn:E; [ | lia].
  rewrite Nat2Z.id, length_firstn. lia.
Qed.

(** The name begins with the position of the module, the cleaned title of
    the module cut at 25 characters, and the position of the item. *)
Lemma name_shape (title module_title : str) (module_position position : Z)
  (extension : str) :
  exists tail,
    make_sortable_filename title module_title module_position position extension
    = format_03d module_position
      ++ (lit "_" ++ slice_to 25 (sanitize module_title) ++ lit "_")
      ++ format_03d position ++ tail.
Proof.
  unfold Filenames.make_sortable_filename.
  destruct (splitext title) as [basefilename ogextension]. cbv zeta.
  destruct (200 <? _); eexists; rewrite <- !app_assoc; reflexivity.
Qed.

(** With positions from 0 to 999 the name has at most 200 characters
    before its extension. *)
Theorem name_length_is_bounded (title module_title : str)
  (module_position position : Z) (extension : str) :
  three_digits module_position -> three_digits position ->
  length (make_sortable_filename title module_title module_position position
            extension)
  <= 200 + length (chosen_extension splitext title extension).
Proof.
  intros Hm Hp. unfold Filenames.make_sortable_filename, chosen_extension.
  destruct (splitext title) as [basefilename ogextension]. cbv zeta. cbn [snd].
  set (prefix := format_03d module_position ++ lit "_"
                 ++ slice_to 25 (sanitize module_title) ++ lit "_"
                 ++ format_03d position).
  assert (Hprefix : length prefix <= 33).
  { subst prefix. rewrite !length_app, !format_length by assumption.
    pose proof (slice_to_length 25 (sanitize module_title)) as Hs.
    change (Z.of_nat 25) with 25%Z in Hs. simpl. lia. }
  rewrite length_app. apply Nat.add_le_mono_r.
  destruct (200 <? length (prefix ++ lit "_" ++ strip (sanitize basefilename)))
    eqn:E.
  - rewrite !length_app.
    replace (200 - Z.of_nat (length prefix) - 1)%Z
      with (Z.of_nat (199 - length prefix)) by lia.
    pose proof (slice_to_length (199 - length prefix)
                  (strip (sanitize basefilename))) as Hs.
    change (length (lit "_")) with 1. lia.
  - apply Nat.ltb_ge in E. exact E.
Qed.

Lemma module_order (title title' module_title module_title' : str)
  (module_position module_position' position position' : Z)
  (extension extension' : str) :
  three_digits module_position -> three_digits module_position' ->
  (module_position < module_position')%Z ->
  lex_ltb
    (make_sortable_filename title module_title module_position position
       extension)
    (make_sortable_filename title' module_title' module_position' position'
       extension') = true.
Proof.
  intros Hm Hm' Hlt.
  destruct (name_shape title module_title module_position position extension)
    as [tail ->].
  destruct (name_shape title' module_title' module_position' position'
              extension') as [tail' ->].
  apply lex_ltb_same_length.
  - now rewrite !format_length.
  - now apply format_increasing.
Qed.

Lemma item_order (title title' module_title : str)
  (module_position position position' : Z) (extension extension' : str) :
  three_digits position -> three_digits position' ->
  (position < position')%Z ->
  lex_ltb
    (make_sortable_filename title module_title module_position position
       extension)
    (make_sortable_filename title' module_title module_position position'
       extension') = true.
Proof.
  intros Hp Hp' Hlt.
  destruct (name_shape title module_title module_position position extension)
    as [tail ->].
  destruct (name_shape title' module_title module_position position'
              extension') as [tail' ->].
  rewrite lex_ltb_common, lex_ltb_common.
  apply lex_ltb_same_length.
  - now rewrite !format_length.
  - now apply format_increasing.
Qed.

Lemma lex_ltb_differ (a b : str) : lex_ltb a b = true -> a <> b /\ b <> a.
Proof.
  intros H. split; intros E; rewrite E, lex_ltb_irrefl in H; discriminate.
Qed.

Lemma names_differ_modules (title title' module_title module_title' : str)
  (module_position module_position' position position' : Z)
  (extension extension' : str) :
  three_digits module_position -> three_digits module_position' ->
  module_position <> module_position' ->
  make_sortable_filename title module_title module_position position extension
  <> make_sortable_filename title' module_title' module_position' position'
       extension'.
Proof.
  intros Hm Hm' Hne.
  destruct (Z.lt_total module_position module_position')
    as [Hlt | [Heq | Hgt]]; [ | contradiction | ].
  - refine (proj1 (lex_ltb_differ _ _ _)). now apply module_order.
  - refine (proj2 (lex_ltb_differ _ _ _)). now apply module_order.
Qed.

Lemma names_differ_items (title title' module_title : str)
  (module_position position position' : Z) (extension extension' : str) :
  three_digits position -> three_digits position' -> position <> position' ->
  make_sortable_filename title module_title module_position position extension
  <> make_sortable_filename title' module_title module_position position'
       extension'.
Proof.
  intros Hp Hp' Hne.
  destruct (Z.lt_total position position') as [Hlt | [Heq | Hgt]];
    [ | contradiction | ].
  - refine (proj1 (lex_ltb_differ _ _ _)). now apply item_order.
  - refine (proj2 (lex_ltb_differ _ _ _)). now apply item_order.
Qed.

(** With positions from 0 to 999 the names sort as the docstring promises:
    a file of a module at an earlier position comes before any file of a
    module at a later one, and within one module the file at the earlier
    position comes first, whatever the titles and extensions are.  Two
    items at different positions of one module never get the same name. *)
Theorem names_sort_in_module_order (title title' module_title module_title' : str)
  (module_position module_position' position position' : Z)
  (extension extension' : str) :
  three_digits module_position -> three_digits module_position' ->
  three_digits position -> three_digits position' ->
  ((module_position < module_position')%Z ->
   lex_ltb
     (make_sortable_filename title module_title module_position position
        extension)
     (make_sortable_filename title' module_title' module_position' position'
        extension') = true)
  /\ ((position < position')%Z ->
      lex_ltb
        (make_sortable_filename title module_title module_position position
           extension)
        (make_sortable_filename title' module_title module_position position'
           extension') = true)
  /\ (position <> position' ->
      make_sortable_filename title module_title module_position position
        extension
      <> make_sortable_filename title' module_title module_position position'
           extension').
Proof.
  intros Hm Hm' Hp Hp'. split; [ | split].
  - now apply module_order.
  - now apply item_order.
  - now apply names_differ_items.
Qed.

End Paths.

Lemma name_length_is_bounded_witness :
  length (make_sortable_filename cut_at_last_dot
            (repeat "x"%char 300 ++ lit ".pdf") (lit "Week 1") 2 13 [])
  <= 200 + 4.
Proof.
  apply (name_length_is_bounded cut_at_last_dot
           (repeat "x"%char 300 ++ lit ".pdf") (lit "Week 1") 2 13 []);
    unfold three_digits; lia.
Defined.

Lemma names_sort_in_module_order_witness :
  lex_ltb
    (make_sortable_filename cut_at_last_dot (lit "zebra.pdf") (lit "Week 1") 2 9 [])
    (make_sortable_filename cut_at_last_dot (lit "apple.pdf") (lit "Week 1") 2 10 [])
  = true.
Proof.
  apply (proj1 (proj2 (names_sort_in_module_order cut_at_last_dot
                         (lit "zebra.pdf") (lit "apple.pdf") (lit "Week 1")
                         (lit "Week 1") 2 2 9 10 [] []
                         ltac:(unfold three_digits; lia)
                         ltac:(unfold three_digits; lia)
                         ltac:(unfold three_digits; lia)
                         ltac:(unfold three_digits; lia)))).
  lia.
Defined.

End FilenamesFacts.

(** ** The requests of the quiz creator *)

Module QuizItemsFacts.
Import Py PyStr PyFormat Re Text2Qti Text2QtiSpec QuizCreator QuizItems QuizItemsSpec.
Import PyStrFacts Text2QtiFacts.

(** *** Dicts *)

Lemma get_set_key (key key' : string) (v : json) (fields : list (string * json)) :
  get_key key (set_key key' v fields)
  = if String.eqb key' key then Some v else get_key key fields.
Proof.
  induction fields as [ | [k w] fields IH]; simpl.
  - reflexivity.
  - destruct (String.eqb k key') eqn:E; simpl.
    + apply String.eqb_eq in E. subst k.
      destruct (String.eqb key' key); reflexivity.
    + rewrite IH. destruct (String.eqb key' key) eqn:E'; [ | reflexivity].
      apply String.eqb_eq in E'. subst key'. now rewrite E.
Qed.

Lemma get_key_app (key : string) (a b : list (string * json)) :
  get_key key (a ++ b)
  = match get_key key a with Some v => Some v | None => get_key key b end.
Proof.
  induction a as [ | [k w] a IH]; simpl; [reflexivity | ].
  destruct (String.eqb k key); [reflexivity | exact IH].
Qed.

(** *** The loops over the choices *)



Section Requests.

Variable uuid4 : nat -> str.



Lemma indexed_loop_spec (index : Z) (choices : list choice) (i : nat)
  (data : list json) (correct : json) :
  indexed_loop uuid4 index choices i data correct
  = (data ++ entries_from uuid4 i choices,
     if ((Z.of_nat i <=? index) && (index <? Z.of_nat (i + length choices)))%Z
     then JStr (uuid4 (Z.to_nat index))
     else correct).
Proof.
  revert i data correct.
  induction choices as [ | c rest IH]; intros i data correct;
    cbn [indexed_loop entries_from length].
  - rewrite app_nil_r, Nat.add_0_r.
    destruct (Z.leb_spec (Z.of_nat i) index), (Z.ltb_spec index (Z.of_nat i));
      try reflexivity; lia.
  - rewrite IH, <- app_assoc. cbn [app]. f_equal.
    replace (S i + length rest) with (i + S (length rest)) by lia.
    destruct (Z.eqb_spec (Z.of_nat i) index) as [He | He].
    + subst index. rewrite Nat2Z.id.
      destruct (Z.leb_spec (Z.of_nat (S i)) (Z.of_nat i)); [lia | ].
      destruct (Z.leb_spec (Z.of_nat i) (Z.of_nat i)); [ | lia].
      destruct (Z.ltb_spec (Z.of_nat i) (Z.of_nat (i + S (length rest))));
        [reflexivity | lia].
    + destruct (Z.leb_spec (Z.of_nat (S i)) index),
               (Z.leb_spec (Z.of_nat i) index); try reflexivity; lia.
Qed.



(** The public method scores the choice at the given index; an index that
    is negative or not below the number of choices leaves the question
    without a correct answer, and no error is raised. *)
Theorem index_out_of_range_scores_nothing (self : CanvasQuizCreator)
  (course_id assignment_id : Z) (question_text : str) (choices : list choice)
  (correct_answer_index : Z) (points : Q) (position : option Z)
  (title : option str) :
  let r := indexed_choice_request uuid4 self course_id assignment_id
             question_text choices correct_answer_index points position
             title in
  field choices_path (body r) = Some (JList (entries uuid4 choices))
  /\ field value_path (body r)
     = Some (if ((0 <=? correct_answer_index)
                 && (correct_answer_index <? Z.of_nat (length choices)))%Z
             then JStr (uuid4 (Z.to_nat correct_answer_index))
             else JNull).
Proof.
  cbv zeta. unfold indexed_choice_request, entries.
  rewrite indexed_loop_spec. cbn [app]. split.
  - destruct position; reflexivity.
  - destruct position; reflexivity.
Qed.

End Requests.

(** *** True or false *)

Lemma kind_never_true_false (s : str) : kind_of s <> Some true_false.
Proof.
  unfold kind_of.
  repeat match goal with
         | |- context [if ?b then _ else _] => destruct b
         end; discriminate.
Qed.

Lemma scan_line_not_true_false (s : str) (q : question) :
  q_type q <> true_false -> q_type (scan_line s q) <> true_false.
Proof.
  intros H. rewrite scan_line_type.
  destruct (kind_of s) as [k | ] eqn:E; [ | exact H].
  intros ->. exact (kind_never_true_false s E).
Qed.

Lemma scan_body_not_true_false (fuel : nat) (lines : list str) (i : nat)
  (q q' : question) (n : nat) :
  q_type q <> true_false -> scan_body fuel lines i q = Ok (q', n) ->
  q_type q' <> true_false.
Proof.
  revert i q. induction fuel as [ | fuel IH]; intros i q Hq; cbn [scan_body];
    destruct (i <? length lines).
  - discriminate.
  - intros H. injection H as <- _. exact Hq.
  - destruct (is_match header_re (strip (nth i lines []))).
    + intros H. injection H as <- _. exact Hq.
    + apply IH. now apply scan_line_not_true_false.
  - intros H. injection H as <- _. exact Hq.
Qed.

Lemma new_question_type (text : str) : q_type (new_question text) <> true_false.
Proof. discriminate. Qed.

Lemma truth_of_pair (q : question) :
  looks_true_false q ->
  truth_loop (q_choices q) true = starred_truth (q_choices q).
Proof.
  intros (_ & c1 & c2 & -> & Hp). unfold starred_truth. cbn [truth_loop find].
  destruct Hp as [[H1 H2] | [[H1 H2] | [[H1 H2] | [H1 H2]]]];
    destruct (c_correct c1), (c_correct c2); rewrite ?H1, ?H2; reflexivity.
Qed.

Lemma detected_truth (scanned : question) :
  q_type scanned <> true_false ->
  q_type (auto_detect scanned) = true_false ->
  truth_loop (q_choices scanned) true = starred_truth (q_choices scanned).
Proof.
  intros Hs Hq.
  destruct (bool_dec (truth_loop (q_choices scanned) true)
                     (starred_truth (q_choices scanned))) as [H | H];
    [exact H | exfalso].
  rewrite auto_detect_no in Hq; [contradiction | ].
  intros Hl. apply H. now apply truth_of_pair.
Qed.

Lemma auto_detect_choices (q : question) :
  q_choices (auto_detect q) = q_choices q.
Proof. destruct (auto_detect_cases q) as [-> | ->]; reflexivity. Qed.

Section Service.

Variable response : Type.
Variable post : str -> list (string * str) -> json -> reply response.
Variable ids : nat -> nat -> str.

(** A question that [_parse_question] returns with type true_false is sent
    as a true-false item whose correct answer is the one its first starred
    choice names: true for 'true' or 'yes', false for 'false' or 'no', in
    any case of the letters; when neither choice is starred the answer sent
    is true. *)
Theorem parsed_true_false_value (lines : list str) (start : nat)
  (q : question) (next : nat) (base token : string)
  (course_id assignment_id : Z) (position : nat) :
  _parse_question lines start = Ok (Some q, next) ->
  q_type q = true_false ->
  let r := true_false_request (init (lit base) (lit token)) course_id
             assignment_id q (Some (Z.of_nat position)) in
  create_question_from_parsed response post ids base token course_id
    assignment_id q position
  = call (send response post r)
  /\ field slug_path (body r) = Some (JStr (lit "true-false"))
  /\ field value_path (body r) = Some (JBool (starred_truth (q_choices q))).
Proof.
  intros Hp Ht. cbv zeta. split; [ | split].
  - unfold create_question_from_parsed, QuizCreator.create_question_from_parsed.
    rewrite Ht. reflexivity.
  - reflexivity.
  - unfold true_false_request. cbn [body item_data]. 
    assert (Hv : truth_loop (q_choices q) true = starred_truth (q_choices q)).
    { revert Hp. unfold _parse_question, parse_question_fuel.
      destruct (nth_error lines start) as [l | ]; [ | discriminate].
      destruct (re_match header_text_re (strip l)) as [m | ]; [ | discriminate].
      destruct (scan_body _ _ _ _) as [[scanned i] | e | ] eqn:Es;
        simpl; try discriminate.
      intros H. injection H as <- <-.
      rewrite auto_detect_choices. apply detected_truth; [ | exact Ht].
      apply (scan_body_not_true_false _ _ _ _ _ _ (new_question_type _) Es). }
    rewrite Hv. reflexivity.
Qed.

(** A question of a type without a method of its own (numerical, short
    answer, file upload) is sent, after a warning, exactly as the
    multiple-choice question with the same text, choices and points: the
    answers read from the file are not part of the request, and a question
    without choices is sent with an empty list of choices and no correct
    answer. *)
Theorem unsupported_types_lose_their_answers (q : question)
  (base token : string) (course_id assignment_id : Z) (position : nat) :
  unsupported (q_type q) ->
  let r := multiple_choice_request (ids position) (init (lit base) (lit token))
             course_id assignment_id (without_answers q)
             (Some (Z.of_nat position)) in
  create_question_from_parsed response post ids base token course_id
    assignment_id q position
  = (emit (MsgTypeNotSupported (q_type q)) ;;; call (send response post r))
  /\ field slug_path (body r) = Some (JStr (lit "choice"))
  /\ (q_choices q = [] ->
      field choices_path (body r) = Some (JList [])
      /\ field value_path (body r) = Some JNull).
Proof.
  intros Hu. cbv zeta. split; [ | split].
  - unfold create_question_from_parsed, QuizCreator.create_question_from_parsed.
    destruct Hu as [-> | [-> | ->]]; reflexivity.
  - unfold multiple_choice_request.
    destruct (choice_loop _ _ _ _ _). reflexivity.
  - intros Hc. unfold multiple_choice_request, without_answers.
    cbn [q_choices]. rewrite Hc. split; reflexivity.
Qed.

End Service.

(** *** The quiz and the address *)

Lemma fold_settings (key : string) (settings base : list (string * json)) :
  get_key key
    (fold_left (fun quiz kv => set_key (fst kv) (snd kv) quiz) settings base)
  = match get_key key (rev settings) with
    | Some v => Some v
    | None => get_key key base
    end.
Proof.
  revert base. induction settings as [ | [k v] settings IH]; intros base.
  - reflexivity.
  - cbn [fold_left fst snd rev]. rewrite IH, get_key_app, get_set_key.
    destruct (get_key key (rev settings)); [reflexivity | ].
    simpl. destruct (String.eqb k key); reflexivity.
Qed.

(** Each key of the quiz that is sent has the value of the last keyword
    setting of that name, if there is one, and the value [create_quiz]
    wrote otherwise: a keyword setting replaces the title, the
    instructions, the grading type or the points. *)
Theorem quiz_settings_override (self : CanvasQuizCreator) (course_id : Z)
  (quiz_title instructions : str) (points_possible : option Q)
  (quiz_settings : list (string * json)) (key : string) :
  field ["quiz"%string; key]
        (body (quiz_request self course_id quiz_title instructions
                 points_possible quiz_settings))
  = match get_key key (rev quiz_settings) with
    | Some v => Some v
    | None => get_key key (quiz_keys quiz_title instructions points_possible)
    end.
Proof.
  unfold quiz_request. cbn [body field get_key].
  change (String.eqb "quiz" "quiz") with true. cbv iota.
  rewrite fold_settings.
  assert (H : forall o : option json,
             match o with Some v => field [] v | None => None end = o)
    by (intros [v | ]; reflexivity).
  rewrite H. destruct (get_key key (rev quiz_settings)); [reflexivity | ].
  destruct points_possible; reflexivity.
Qed.

Lemma rev_repeat (c : ascii) (n : nat) : rev (repeat c n) = repeat c n.
Proof.
  induction n as [ | n IH]; [reflexivity | ].
  simpl. rewrite IH. clear IH.
  induction n as [ | n IH]; [reflexivity | ]. simpl. now rewrite IH.
Qed.

Lemma rstrip_slash_repeat (s : str) (n : nat) :
  rstrip_slash (s ++ repeat "/"%char n) = rstrip_slash s.
Proof.
  unfold rstrip_slash. rewrite rev_app_distr, rev_repeat.
  rewrite dropwhile_app_all; [reflexivity | ].
  induction n as [ | n IH]; [reflexivity | exact IH].
Qed.

Lemma rstrip_slash_last (s b : str) : rstrip_slash s <> b ++ lit "/".
Proof.
  unfold rstrip_slash. intros H. apply (f_equal (@rev ascii)) in H.
  rewrite rev_involutive, rev_app_distr in H. simpl in H.
  apply dropwhile_head in H. discriminate H.
Qed.

(** Slashes at the end of the Canvas address make no difference: the
    object built from the address with them is the one built without, so
    every request is the same, and the address of a request never has a
    slash before [/api]. *)
Theorem trailing_slashes_are_dropped (base token : str) (n : nat)
  (course_id assignment_id : Z) :
  init (base ++ repeat "/"%char n) token = init base token
  /\ exists host,
       items_url (init base token) course_id assignment_id
       = host ++ lit "/api/quiz/v1/courses/" ++ format_int course_id
         ++ lit "/quizzes/" ++ format_int assignment_id ++ lit "/items"
       /\ forall b, host <> b ++ lit "/".
Proof.
  split.
  - unfold init. now rewrite rstrip_slash_repeat.
  - exists (rstrip_slash base). split; [reflexivity | ].
    apply rstrip_slash_last.
Qed.

(** *** Runs *)



Lemma trailing_slashes_are_dropped_witness :
  init (lit "https://canvas.example.edu//") (lit "token")
  = init (lit "https://canvas.example.edu") (lit "token").
Proof.
  apply (proj1 (trailing_slashes_are_dropped (lit "https://canvas.example.edu")
                  (lit "token") 2 7 70)).
Defined.

Lemma parsed_true_false_value_witness :
  field value_path
    (body (true_false_request
             (init (lit "https://canvas.example.edu/") (lit "token")) 7 70
             (Question (lit "The sky is green") true_false
                [Choice (lit "True") false; Choice (lit "False") true]
                1 None None)
             (Some (Z.of_nat 1))))
  = Some (JBool false).
Proof.
  apply (proj2 (proj2
           (parsed_true_false_value json sample_post (fun _ => sample_uuid4)
              [lit "1. The sky is green"; lit "a) True"; lit "*b) False"] 0
              (Question (lit "The sky is green") true_false
                 [Choice (lit "True") false; Choice (lit "False") true]
                 1 None None)
              3 "https://canvas.example.edu/" "token" 7 70 1
              eq_refl eq_refl))).
Defined.

Lemma unsupported_types_lose_their_answers_witness :
  create_question_from_parsed json sample_post (fun _ => sample_uuid4)
    "https://canvas.example.edu/" "token" 7 70
    (Question (lit "2 + 3 = ?") numerical [] 1 (Some (lit "5")) None) 2
  = (emit (MsgTypeNotSupported numerical) ;;;
     call (send json sample_post
             (multiple_choice_request sample_uuid4
                (init (lit "https://canvas.example.edu/") (lit "token")) 7 70
                (Question (lit "2 + 3 = ?") multiple_choice [] 1 None None)
                (Some (Z.of_nat 2))))).
Proof.
  apply (proj1
           (unsupported_types_lose_their_answers json sample_post
              (fun _ => sample_uuid4)
              (Question (lit "2 + 3 = ?") numerical [] 1 (Some (lit "5")) None)
              "https://canvas.example.edu/" "token" 7 70 2
              (or_introl eq_refl))).
Defined.

End QuizItemsFacts.

(** ** No download overwrites another *)

Module DownloadsFacts.
Import Py PyFacts PyStr ModuleItems ModuleItemsSpec ModuleItemsFacts.
Import FilenamesSpec FilenamesFacts WalkerFacts DownloadsSpec.

Lemma written_paths_app (l1 l2 : list event) :
  written_paths (l1 ++ l2) = written_paths l1 ++ written_paths l2.
Proof. apply flat_map_app. Qed.

Section World.

Variable get_file : Z -> reply file_obj.
Variable get_page : string -> reply page.
Variable file_download : file_obj -> string -> reply unit.
Variable write_text : string -> reply unit.
Variable mkdir : string -> reply unit.
Variable get_modules : reply (list canvas_module).
Variable make_sortable_filename :
  string -> string -> Z -> Z -> string -> reply string.
Variable path_suffix : string -> string.
Variable path_join : string -> string -> string.

Local Abbreviation download_file :=
  (download_file get_file file_download make_sortable_filename path_suffix path_join).
Local Abbreviation download_page :=
  (download_page get_page write_text make_sortable_filename path_join).
Local Abbreviation process_item :=
  (process_item get_file get_page file_download write_text
                make_sortable_filename path_suffix path_join).
Local Abbreviation process_modules :=
  (process_modules get_file get_page file_download write_text
                   make_sortable_filename path_suffix path_join).

Local Abbreviation named := (named make_sortable_filename path_join).
Local Abbreviation at_most_one :=
  (at_most_one make_sortable_filename path_join).

Ltac run_io :=
  repeat progress (cbn [call emit ret raise attr snd fst app];
                   rewrite ?io_bind_snd, ?io_bind_fst, ?try_except_fst,
                           ?try_except_snd).

Lemma download_file_paths item module dir mid pos :
  at_most_one module pos dir
    (written_paths (fst (download_file item module dir mid pos))).
Proof.
  unfold ModuleItems.download_file.
  destruct (item_content_id item) as [[ | p | p] | ] eqn:Ec.
  1, 4: left; reflexivity.
  all: run_io; destruct (get_file _) as [f | e] eqn:Eg; run_io;
    [ | left; reflexivity ].
  all: destruct (module_name module) as [mname | ] eqn:En; run_io;
    [ | left; reflexivity ].
  all: destruct (module_position module) as [mpos | ] eqn:Ep; run_io;
    [ | left; reflexivity ].
  all: destruct (make_sortable_filename _ _ _ _ _) as [name | e] eqn:Es;
    run_io; [ | left; reflexivity ].
  all: right; eexists; split;
    [destruct (file_download _ _) as [[] | e]; reflexivity | ].
  all: unfold DownloadsSpec.named; do 5 eexists; repeat split;
    [exact En | exact Ep | exact Es].
Qed.

Lemma download_page_paths item module dir mid pos :
  at_most_one module pos dir
    (written_paths (fst (download_page item module dir mid pos))).
Proof.
  unfold ModuleItems.download_page.
  destruct (item_page_url item) as [[ | c u] | ] eqn:Ec.
  1, 3: left; reflexivity.
  run_io; destruct (get_page _) as [p | e] eqn:Eg; run_io;
    [ | left; reflexivity ].
  destruct (module_name module) as [mname | ] eqn:En; run_io;
    [ | left; reflexivity ].
  destruct (module_position module) as [mpos | ] eqn:Ep; run_io;
    [ | left; reflexivity ].
  destruct (make_sortable_filename _ _ _ _ _) as [name | e] eqn:Es;
    run_io; [ | left; reflexivity ].
  right; eexists; split;
    [destruct (write_text _) as [[] | e]; reflexivity | ].
  unfold DownloadsSpec.named; do 5 eexists; repeat split;
    [exact En | exact Ep | exact Es].
Qed.

Lemma process_item_paths module dir mid item :
  at_most_one module (item_key item) dir
    (written_paths (fst (process_item module dir mid item))).
Proof.
  unfold ModuleItems.process_item. cbv zeta.
  rewrite io_bind_fst. cbn [emit fst snd]. rewrite try_except_fst.
  fold (item_key item).
  pose proof (download_file_paths item module dir mid (item_key item)) as Hf.
  pose proof (download_page_paths item module dir mid (item_key item)) as Hp.
  repeat match goal with
         | |- context [if ?b then _ else _] => destruct b
         end;
    rewrite ?io_bind_snd, ?io_bind_fst; cbn [emit fst snd];
    rewrite ?download_file_returns, ?download_page_returns;
    cbn [app]; rewrite ?app_nil_r; try assumption.
  left. reflexivity.
Qed.

Section Module_.

Variables (module : canvas_module) (dir : string) (mid : Z) (keys : list Z).

Hypothesis items_differ :
  forall p p' path, In p keys -> In p' keys -> p <> p' ->
    named module p dir path -> named module p' dir path -> False.

Lemma for_each_paths (items : list module_item) :
  incl (map item_key items) keys ->
  NoDup (map item_key items) ->
  let paths :=
    written_paths (fst (for_each (process_item module dir mid) items)) in
  NoDup paths
  /\ Forall (fun path => exists p, In p (map item_key items)
                                   /\ named module p dir path) paths.
Proof.
  cbv zeta. induction items as [ | item items IH]; intros Hincl Hnd.
  - split; constructor.
  - cbn [for_each map] in *. apply NoDup_cons_iff in Hnd as [Hnotin Hnd].
    destruct (IH (fun x Hx => Hincl x (or_intror Hx)) Hnd) as [IH1 IH2].
    clear IH.
    rewrite io_bind_fst, process_item_returns, written_paths_app.
    destruct (process_item_paths module dir mid item) as [-> | (path & -> & Hp)].
    + split; [exact IH1 | ]. eapply Forall_impl; [ | exact IH2].
      intros q (p & Hin & Hq). exists p. split; [now right | exact Hq].
    + cbn [app]. split.
      * constructor; [ | exact IH1]. intros Hin.
        rewrite Forall_forall in IH2. destruct (IH2 path Hin) as (p & Hpin & Hq).
        apply (items_differ (item_key item) p path); try assumption.
        -- apply Hincl. now left.
        -- apply Hincl. now right.
        -- intros E. apply Hnotin. now rewrite E.
      * constructor.
        -- exists (item_key item). split; [now left | exact Hp].
        -- eapply Forall_impl; [ | exact IH2].
           intros q (p & Hin & Hq). exists p. split; [now right | exact Hq].
Qed.

End Module_.

Section Modules.

Variable dir : string.

Lemma process_modules_paths (modules : list canvas_module)
  (all_items : list module_item) :
  (forall m, In m modules ->
     forall p p' path, In p (module_keys m) -> In p' (module_keys m) ->
       p <> p' -> named m p dir path -> named m p' dir path -> False) ->
  (forall m m' p p' path, In m modules -> In m' modules ->
     module_position m <> module_position m' ->
     named m p dir path -> named m' p' dir path -> False) ->
  NoDup (module_positions modules) ->
  Forall (fun m => NoDup (module_keys m)) modules ->
  let paths := written_paths (fst (process_modules dir modules all_items)) in
  NoDup paths
  /\ Forall (module_path make_sortable_filename path_join dir modules) paths.
Proof.
  cbv zeta. revert all_items.
  induction modules as [ | m modules IH]; intros all_items Hitems Hmods Hnd Hkeys.
  - split; constructor.
  - rewrite process_modules_cons.
    rewrite io_bind_fst. cbn [emit fst snd]. rewrite io_bind_fst.
    cbn [call fst snd app written_paths flat_map].
    apply Forall_cons_iff in Hkeys as [Hk Hkeys].
    destruct (get_module_items m) as [items | e] eqn:Eitems;
      [ | split; constructor].
    rewrite io_bind_fst.
    rewrite for_each_returns by apply process_item_returns.
    fold (written_paths
            (fst (for_each (process_item m dir (getattr (module_id m) 0%Z))
                    (filter to_download items))
             ++ fst (process_modules dir modules
                       (all_items ++ filter to_download items)))).
    rewrite written_paths_app.
    assert (Hmk : module_keys m = map item_key (filter to_download items))
      by (unfold module_keys; now rewrite Eitems).
    assert (Hnd' : NoDup (module_positions modules)).
    { unfold module_positions in *. cbn [flat_map] in Hnd.
      now apply NoDup_app_remove_l in Hnd. }
    destruct (IH (all_items ++ filter to_download items)) as [IH1 IH2];
      [ | | exact Hnd' | exact Hkeys | ].
    { intros m' Hin. apply Hitems. now right. }
    { intros m1 m2 p p' path H1 H2. apply Hmods; now right. }
    clear IH.
    destruct (for_each_paths m dir (getattr (module_id m) 0%Z) (module_keys m)
                (Hitems m (or_introl eq_refl)) (filter to_download items))
      as [H1 H2].
    { rewrite Hmk. apply incl_refl. }
    { rewrite <- Hmk. exact Hk. }
    rewrite <- Hmk in H2. split.
    + apply NoDup_app; [exact H1 | exact IH1 | ].
      intros path Hin Hin'. rewrite Forall_forall in H2, IH2.
      destruct (H2 path Hin) as (p & Hp & Hnamed).
      destruct (IH2 path Hin') as (m' & p' & Hm' & Hp' & Hnamed').
      apply (Hmods m m' p p' path); try assumption; [now left | now right | ].
      destruct Hnamed as (_ & _ & mpos & _ & _ & _ & Hpos & _).
      destruct Hnamed' as (_ & _ & mpos' & _ & _ & _ & Hpos' & _).
      rewrite Hpos, Hpos'. intros E. injection E as <-.
      unfold module_positions in Hnd. cbn [flat_map] in Hnd.
      rewrite Hpos in Hnd. cbn [app] in Hnd.
      apply NoDup_cons_iff in Hnd as [Hnotin _]. apply Hnotin.
      apply in_flat_map. exists m'. split; [exact Hm' | ].
      rewrite Hpos'. now left.
    + apply Forall_app. split.
      * eapply Forall_impl; [ | exact H2].
        intros path (p & Hp & Hn). exists m, p. repeat split; auto. now left.
      * eapply Forall_impl; [ | exact IH2].
        intros path (m' & p & Hm' & Hp & Hn). exists m', p.
        repeat split; auto. now right.
Qed.

End Modules.

End World.

Lemma string_of_list_ascii_inj (a b : PyStr.str) :
  string_of_list_ascii a = string_of_list_ascii b -> a = b.
Proof.
  intros H. apply (f_equal list_ascii_of_string) in H.
  now rewrite !list_ascii_of_string_of_list_ascii in H.
Qed.

Lemma module_position_listed (modules : list canvas_module) (m : canvas_module)
  (p : Z) :
  In m modules -> module_position m = Some p -> In p (module_positions modules).
Proof.
  intros Hin Hp. apply in_flat_map. exists m. split; [exact Hin | ].
  rewrite Hp. now left.
Qed.

Section Linked.

Variable get_file : Z -> reply file_obj.
Variable get_page : string -> reply page.
Variable file_download : file_obj -> string -> reply unit.
Variable write_text : string -> reply unit.
Variable mkdir : string -> reply unit.
Variable get_modules : reply (list canvas_module).
Variable splitext : PyStr.str -> PyStr.str * PyStr.str.
Variable path_suffix : string -> string.
Variable path_join : string -> string -> string.

(** With the positions Canvas gives (from 0 to 999, different for the
    modules and for the items of one module) and a directory in which
    different names are different paths, no path is written twice in a
    run: no download overwrites another, whatever the titles are. *)
Theorem no_download_overwrites_another (dir : string)
  (modules : list canvas_module) :
  (forall a b, path_join dir a = path_join dir b -> a = b) ->
  get_modules = Answer modules ->
  positions_ok modules ->
  NoDup (written_paths
           (fst (Downloads.download_course_modules get_file get_page
                   file_download write_text mkdir get_modules splitext
                   path_suffix path_join dir))).
Proof.
  intros Hjoin Hget (Hnd & Hthree & Hmods).
  unfold Downloads.download_course_modules. rewrite walk_log, Hget.
  cbn [written_paths flat_map app].
  destruct (mkdir dir) as [[] | e]; [ | constructor].
  rewrite Forall_forall in Hthree, Hmods.
  apply process_modules_paths.
  - intros m Hm p p' path Hp Hp' Hne
           (t & mname & mpos & ext & name & Hn & Hpos & Hname & ->)
           (t' & mname' & mpos' & ext' & name' & Hn' & Hpos' & Hname' & Hpath).
    rewrite Hn in Hn'. injection Hn' as <-.
    rewrite Hpos in Hpos'. injection Hpos' as <-.
    apply Hjoin in Hpath. subst name'.
    unfold Downloads.make_sortable_filename in Hname, Hname'.
    injection Hname as <-. injection Hname' as Hname'.
    apply string_of_list_ascii_inj in Hname'.
    destruct (Hmods m Hm) as [_ Hk]. rewrite Forall_forall in Hk.
    revert Hname'. apply not_eq_sym. apply names_differ_items; auto.
  - intros m m' p p' path Hm Hm' Hne
           (t & mname & mpos & ext & name & Hn & Hpos & Hname & ->)
           (t' & mname' & mpos' & ext' & name' & Hn' & Hpos' & Hname' & Hpath).
    apply Hjoin in Hpath. subst name'.
    unfold Downloads.make_sortable_filename in Hname, Hname'.
    injection Hname as <-. injection Hname' as Hname'.
    apply string_of_list_ascii_inj in Hname'.
    revert Hname'. apply not_eq_sym. apply names_differ_modules.
    + apply Hthree. exact (module_position_listed modules m mpos Hm Hpos).
    + apply Hthree. exact (module_position_listed modules m' mpos' Hm' Hpos').
    + intros E. apply Hne. now rewrite Hpos, Hpos', E.
  - exact Hnd.
  - apply Forall_forall. intros m Hm. apply (Hmods m Hm).
Qed.

End Linked.

Lemma no_download_overwrites_another_witness :
  NoDup (written_paths
           (fst (Downloads.download_course_modules any_file
                   sample_get_page sample_file_download sample_write_text
                   sample_mkdir (Answer twin_modules) cut_at_last_dot
                   sample_suffix sample_join "downloads"%string))).
Proof.
  apply (no_download_overwrites_another any_file sample_get_page
           sample_file_download sample_write_text sample_mkdir
           (Answer twin_modules) cut_at_last_dot sample_suffix sample_join
           "downloads"%string twin_modules).
  - intros a b H. unfold sample_join in H. simpl in H. now injection H.
  - reflexivity.
  - unfold positions_ok. split; [ | split].
    + change (NoDup [1%Z]). constructor; [simpl; tauto | constructor].
    + change (Forall three_digits [1%Z]).
      constructor; [unfold three_digits; lia | constructor].
    + constructor; [ | constructor].
      change (NoDup [1%Z; 2%Z] /\ Forall three_digits [1%Z; 2%Z]). split.
      * constructor; [simpl; intros [H | []]; discriminate | ].
        constructor; [simpl; tauto | constructor].
      * unfold three_digits. repeat constructor; lia.
Defined.

End DownloadsFacts.

(** ** The upload and the lines of the parser *)

Module StdoutFacts.
Import Py PyFacts PyStr Re Text2Qti Text2QtiSpec QuizCreator QuizCreatorSpec.
Import UploadSpec Stdout StdoutSpec PyStrFacts Text2QtiFacts QuizCreatorFacts.
Import UploadFacts.

Lemma pair_eq {A B : Type} (p : A * B) (a : A) (b : B) :
  fst p = a -> snd p = b -> p = (a, b).
Proof. destruct p. simpl. congruence. Qed.

(** On a header line the parser prints the text of the question and goes
    on as without the print. *)
Lemma parse_question_prints (fuel : nat) (lines : list str) (i : nat) (l : str) :
  nth_error lines i = Some l -> is_header l = true ->
  Stdout.parse_question_fuel fuel lines i
  = ([QuestionText (header_text l)], Text2Qti.parse_question_fuel fuel lines i).
Proof.
  intros Hl Hh. unfold Stdout.parse_question_fuel, Text2Qti.parse_question_fuel.
  rewrite Hl. cbv zeta. unfold header_text.
  destruct (header_has_text (strip l) (strip_trimmed l) Hh) as [t Hm].
  rewrite Hm.
  destruct (scan_body _ _ _ _) as [[q n] | e | ]; reflexivity.
Qed.

Lemma headers_skip_body (ls : list str) :
  filter is_header (skipn (length (body_of ls)) ls) = filter is_header ls.
Proof.
  induction ls as [ | l ls IH]; simpl; [reflexivity | ].
  destruct (is_header l) eqn:E; simpl; [now rewrite E | exact IH].
Qed.

(** The loop of [parse_content] prints the texts of the header lines it
    walks over, in order, and computes what it computes without the
    prints. *)
Lemma parse_loop_prints (fuel : nat) (lines : list str) (i : nat) (self : parser) :
  length lines - i <= fuel ->
  Stdout.parse_loop fuel lines i self
  = (map QuestionText (map header_text (filter is_header (skipn i lines))),
     Text2Qti.parse_loop fuel lines i self).
Proof.
  revert i self. induction fuel as [ | fuel IH]; intros i self Hf.
  - assert (Hi : length lines <= i) by lia.
    simpl. apply Nat.ltb_ge in Hi as Hlt. rewrite Hlt.
    now rewrite skipn_all2 by exact Hi.
  - cbn [Stdout.parse_loop Text2Qti.parse_loop].
    destruct (i <? length lines) eqn:Hlt.
    2:{ apply Nat.ltb_ge in Hlt. now rewrite skipn_all2 by exact Hlt. }
    apply Nat.ltb_lt in Hlt. rewrite (skipn_nth lines i Hlt).
    set (l := nth i lines []). cbv zeta. cbn [filter].
    assert (Hnth : nth_error lines i = Some l)
      by (subst l; now apply nth_error_nth').
    destruct (str_eqb (strip l) [] || startswith (lit "%") (strip l)) eqn:Eskip.
    + rewrite (skipped_line_is_no_header l Eskip). rewrite Nat.add_1_r.
      apply IH. lia.
    + destruct (parse_settings_ok (strip l) self) as (self1 & -> & Hq).
      unfold lift. rewrite io_bind_ok. cbn [bind app].
      fold (is_header l). destruct (is_header l) eqn:Eh.
      * unfold Stdout._parse_question, Text2Qti._parse_question.
        rewrite (parse_question_prints _ lines i l Hnth Eh).
        rewrite (parse_question_header _ lines i l Hnth Eh) by lia.
        rewrite io_bind_ok. cbn [bind fst snd app map].
        set (body := body_of (skipn (S i) lines)).
        rewrite IH.
        2:{ pose proof (body_of_length (skipn (S i) lines)) as Hb.
            rewrite length_skipn in Hb. subst body. lia. }
        cbn [fst snd]. f_equal. f_equal. f_equal. f_equal.
        rewrite <- (headers_skip_body (skipn (S i) lines)).
        fold body. now rewrite skipn_skipn, Nat.add_comm.
      * rewrite Nat.add_1_r. rewrite IH by lia. reflexivity.
Qed.

Lemma parse_content_prints (self : parser) (content : str) :
  Stdout.parse_content self content
  = (question_lines content, Text2Qti.parse_content self content).
Proof.
  unfold Stdout.parse_content, Text2Qti.parse_content, question_lines.
  cbv zeta. rewrite parse_loop_prints by lia. cbn [skipn].
  destruct (Text2Qti.parse_loop _ _ _ _) as [p | e | ];
    [ | reflexivity | reflexivity].
  rewrite io_bind_ok. cbn [ret fst snd bind]. now rewrite app_nil_r.
Qed.

Lemma messages_said (log : list message) : messages (map Said log) = log.
Proof. induction log as [ | m log IH]; simpl; [reflexivity | now rewrite IH]. Qed.

Lemma messages_questions (texts : list str) :
  messages (map QuestionText texts) = [].
Proof. induction texts as [ | t texts IH]; simpl; [reflexivity | exact IH]. Qed.

Lemma messages_app (l1 l2 : list line) :
  messages (l1 ++ l2) = messages l1 ++ messages l2.
Proof. apply flat_map_app. Qed.

Section World.

Variable response : Type.
Variable response_id : response -> option Z.
Variable read_file : string -> reply str.
Variable create_quiz :
  string -> string -> Z -> str -> str -> Q -> str -> reply response.
Variable _create_multiple_choice_question :
  string -> string -> Z -> Z -> question -> nat -> reply response.
Variable _create_multiple_answer_question :
  string -> string -> Z -> Z -> question -> nat -> reply response.
Variable _create_true_false_question :
  string -> string -> Z -> Z -> question -> nat -> reply response.
Variable _create_essay_question :
  string -> string -> Z -> Z -> question -> nat -> reply response.

Local Abbreviation add_questions :=
  (add_questions response _create_multiple_choice_question
     _create_multiple_answer_question _create_true_false_question
     _create_essay_question).
Local Abbreviation created_from :=
  (created_from response _create_multiple_choice_question
     _create_multiple_answer_question _create_true_false_question
     _create_essay_question).
Local Abbreviation upload :=
  (Stdout.create_quiz_from_text2qti_file response response_id read_file
     create_quiz _create_multiple_choice_question
     _create_multiple_answer_question _create_true_false_question
     _create_essay_question).
Local Abbreviation silent_upload :=
  (QuizCreator.create_quiz_from_text2qti_file response response_id read_file
     create_quiz _create_multiple_choice_question
     _create_multiple_answer_question _create_true_false_question
     _create_essay_question).

(** The whole of [create_quiz_from_text2qti_file] with its output, case by
    case. *)
Lemma upload_output (file_path : string) (course_id : Z)
  (canvas_url api_token : string) :
  upload file_path course_id canvas_url api_token
  = match read_file file_path with
    | Failure e => ([], Raise e)
    | Answer content =>
        let qd := parsed content in
        let qs := qd_questions qd in
        match create_quiz canvas_url api_token course_id (title qd)
                (description qd) (sum_points qs) (qd_multiple_attempts qd) with
        | Failure e => (question_lines content, Raise e)
        | Answer new_quiz =>
            match response_id new_quiz with
            | None => (question_lines content, Raise (KeyError "id"))
            | Some id =>
                (question_lines content
                 ++ Said (MsgQuizCreated (title qd) id)
                    :: map Said
                         (fst (add_questions canvas_url api_token course_id id
                                 qs 1 [])),
                 Ok (Creation new_quiz
                       (created_from canvas_url api_token course_id id 1 qs)
                       (length (created_from canvas_url api_token course_id id
                                  1 qs))
                       (sum_points qs)))
            end
        end
    end.
Proof.
  unfold Stdout.create_quiz_from_text2qti_file.
  destruct (read_file file_path) as [content | e]; [ | reflexivity].
  unfold call at 1. rewrite io_bind_ok. cbn [app].
  rewrite parse_content_prints.
  destruct (parsed_ok content) as (p & Hp & _). rewrite Hp.
  rewrite io_bind_ok. cbn [fst snd]. cbv zeta.
  destruct (create_quiz _ _ _ _ _ _ _) as [new_quiz | e];
    [ | cbn; now rewrite app_nil_r].
  unfold call. rewrite io_bind_ok. cbn [fst snd app].
  unfold get_id, said.
  destruct (response_id new_quiz) as [id | ];
    [ | cbn; now rewrite app_nil_r].
  cbn [ret raise fst snd map]. rewrite io_bind_ok. cbn [app].
  unfold emit. rewrite io_bind_ok. cbn [app fst snd]. rewrite io_bind_ok.
  cbn [app fst snd].
  pose proof (add_questions_result response _create_multiple_choice_question
                _create_multiple_answer_question _create_true_false_question
                _create_essay_question canvas_url api_token course_id id
                (qd_questions (parsed content)) 1 []) as Hres.
  cbn [app] in Hres.
  destruct (add_questions canvas_url api_token course_id id
              (qd_questions (parsed content)) 1 []) as [log res].
  cbn [snd fst] in *. subst res. rewrite io_bind_ok.
  cbn [ret fst snd]. now rewrite app_nil_r.
Qed.

(** Without the lines of the parser the output is the log of the upload
    as the other theorems have it, and the result is the same. *)
Lemma upload_messages (file_path : string) (course_id : Z)
  (canvas_url api_token : string) :
  messages (fst (upload file_path course_id canvas_url api_token))
  = fst (silent_upload file_path course_id canvas_url api_token)
  /\ snd (upload file_path course_id canvas_url api_token)
     = snd (silent_upload file_path course_id canvas_url api_token).
Proof.
  rewrite upload_output, upload_run.
  destruct (read_file file_path) as [content | e]; [ | split; reflexivity].
  cbv zeta. unfold question_lines.
  destruct (create_quiz _ _ _ _ _ _ _) as [new_quiz | e];
    [ | split; [apply messages_questions | reflexivity]].
  destruct (response_id new_quiz) as [id | ];
    [ | split; [apply messages_questions | reflexivity]].
  split; [ | reflexivity]. cbn [fst].
  rewrite messages_app, messages_questions. cbn [app].
  change (Said ?m :: map Said ?l) with (map Said (m :: l)).
  apply messages_said.
Qed.

(** When the quiz itself cannot be created, or the answer of the service
    has no ['id'], the function raises and no question is sent.  A file
    that cannot be read ends the call with nothing printed; a refused quiz
    and a missing id end it when the parser has printed the texts of the
    questions of the file and nothing else is on the output: no line about
    the quiz, no line about a question. *)
Theorem quiz_failure_stops_upload (file_path : string) (course_id : Z)
  (canvas_url api_token : string) :
  let run := upload file_path course_id canvas_url api_token in
  (forall e, read_file file_path = Failure e -> run = ([], Raise e))
  /\ (forall content e,
        read_file file_path = Answer content ->
        create_quiz canvas_url api_token course_id (title (parsed content))
          (description (parsed content))
          (sum_points (qd_questions (parsed content)))
          (qd_multiple_attempts (parsed content)) = Failure e ->
        run = (question_lines content, Raise e))
  /\ (forall content new_quiz,
        read_file file_path = Answer content ->
        create_quiz canvas_url api_token course_id (title (parsed content))
          (description (parsed content))
          (sum_points (qd_questions (parsed content)))
          (qd_multiple_attempts (parsed content)) = Answer new_quiz ->
        response_id new_quiz = None ->
        run = (question_lines content, Raise (KeyError "id"))).
Proof.
  intros run. subst run. rewrite upload_output. repeat split.
  - intros e ->. reflexivity.
  - intros content e -> H. cbv zeta. now rewrite H.
  - intros content new_quiz -> H Hid. cbv zeta. now rewrite H, Hid.
Qed.

End World.

Lemma quiz_failure_stops_upload_witness :
  Stdout.create_quiz_from_text2qti_file sample_response sample_id
    sample_read_file refuse_quiz sample_accept sample_accept sample_accept
    sample_refuse "quiz.txt" 12345 "https://canvas.example.edu" "secret"
  = ([QuestionText (lit "What is 2+3?"); QuestionText (lit "Explain why.");
      QuestionText (lit "Which are prime?")],
     Raise (Exn "HTTPError" "401 Unauthorized")).
Proof.
  apply (proj1 (proj2 (quiz_failure_stops_upload sample_response sample_id
                         sample_read_file refuse_quiz sample_accept
                         sample_accept sample_accept sample_refuse "quiz.txt"
                         12345%Z "https://canvas.example.edu" "secret"))
               sample_content); reflexivity.
Defined.

End StdoutFacts.
